(** * Impulse: the AI orchestration core

    A shallow embedding of the tool registry ([toolSchema.js]), the tool
    executor ([toolExecutor.js]), the JSON memory store ([simpleMemory.js]),
    the SQLite memory store ([aiMemory.js]) and the agent loop ([agent.js]),
    followed by the properties of the orchestration core.

    Conventions of the embedding.
    - JavaScript strings are [string]; the string functions below agree with
      their JavaScript counterparts on ASCII text (code units below 128).
    - JavaScript numbers that the modelled code computes with are integers
      and are carried as [Z].
    - An [async] function is a computation in the monad [M]: it reads the
      environment (what the collaborators and the provider answer), takes
      the world (the state of the executor, the memory store and the agent),
      and either returns a value or throws (a rejected promise), together
      with the world it leaves behind. *)

From Stdlib Require Import ZArith List String Ascii Bool Lia QArith.
From Stdlib Require Import DecimalString.
From Equations Require Import Equations.
From Stdlib Require Import Sorting.Sorted.
Import ListNotations.
Open Scope string_scope.
Open Scope list_scope.
Open Scope Z_scope.

(** ** Text primitives *)

Module Text.

Definition code (c : ascii) : Z := Z.of_nat (nat_of_ascii c).

Definition chr (z : Z) : ascii := ascii_of_nat (Z.to_nat z).

(** [String.prototype.toLowerCase], one code unit. *)
Definition lower_char (c : ascii) : ascii :=
  if (65 <=? code c) && (code c <=? 90) then chr (code c + 32) else c.

Fixpoint toLowerCase (s : string) : string :=
  match s with
  | EmptyString => EmptyString
  | String c r => String (lower_char c) (toLowerCase r)
  end.

(** The class [\s] of a regular expression, which is also the set that
    [String.prototype.trim] strips: TAB, LF, VT, FF, CR and SPACE. *)
Definition is_space (c : ascii) : bool :=
  ((9 <=? code c) && (code c <=? 13)) || (code c =? 32).

(** [s.replace(/\s+/g, ' ')]: every maximal run of white space becomes one
    space.  [in_run] tells that the previous code unit was white space. *)
Fixpoint collapse_from (in_run : bool) (s : string) : string :=
  match s with
  | EmptyString => EmptyString
  | String c r =>
      if is_space c
      then if in_run then collapse_from true r
           else String " " (collapse_from true r)
      else String c (collapse_from false r)
  end.

Definition collapse_spaces (s : string) : string := collapse_from false s.

Fixpoint trimStart (s : string) : string :=
  match s with
  | EmptyString => EmptyString
  | String c r => if is_space c then trimStart r else s
  end.

Definition rev_string (s : string) : string :=
  string_of_list_ascii (rev (list_ascii_of_string s)).

Definition trimEnd (s : string) : string :=
  rev_string (trimStart (rev_string s)).

Definition trim (s : string) : string := trimEnd (trimStart s).

(** [s.substring(0, n)] for [0 <= n]. *)
Fixpoint take (n : nat) (s : string) : string :=
  match n, s with
  | O, _ => EmptyString
  | _, EmptyString => EmptyString
  | S k, String c r => String c (take k r)
  end.

Definition newline : string := String (ascii_of_nat 10) EmptyString.

Fixpoint starts_with (p s : string) : bool :=
  match p, s with
  | EmptyString, _ => true
  | String a p', String b s' => Ascii.eqb a b && starts_with p' s'
  | String _ _, EmptyString => false
  end.

(** [s.includes(p)] *)
Fixpoint includes (s p : string) : bool :=
  starts_with p s ||
  match s with
  | EmptyString => false
  | String _ r => includes r p
  end.

End Text.

(** ** SHA-256 ([crypto.createHash('sha256')]) *)

Module Sha256.

Definition w32 (x : Z) : Z := x mod 4294967296.

Definition add32 (x y : Z) : Z := w32 (x + y).

Definition rotr (n x : Z) : Z :=
  Z.lor (Z.shiftr x n) (w32 (Z.shiftl x (32 - n))).

Definition shr (n x : Z) : Z := Z.shiftr x n.

Definition Ch (x y z : Z) : Z :=
  Z.lxor (Z.land x y) (Z.land (Z.lxor x 4294967295) z).

Definition Maj (x y z : Z) : Z :=
  Z.lxor (Z.lxor (Z.land x y) (Z.land x z)) (Z.land y z).

Definition Sigma0 (x : Z) : Z :=
  Z.lxor (Z.lxor (rotr 2 x) (rotr 13 x)) (rotr 22 x).

Definition Sigma1 (x : Z) : Z :=
  Z.lxor (Z.lxor (rotr 6 x) (rotr 11 x)) (rotr 25 x).

Definition sigma0 (x : Z) : Z :=
  Z.lxor (Z.lxor (rotr 7 x) (rotr 18 x)) (shr 3 x).

Definition sigma1 (x : Z) : Z :=
  Z.lxor (Z.lxor (rotr 17 x) (rotr 19 x)) (shr 10 x).

(** The first 64 primes. *)
Definition is_prime (n : Z) : bool :=
forallb (fun d => negb (n mod Z.of_nat d =? 0)) (seq 2 (Z.to_nat n - 2)).

Definition primes : list Z :=
Eval vm_compute in filter is_prime (map Z.of_nat (seq 2 310)).

(** The integer cube root, one bit at a time from bit [n - 1] down. *)
Fixpoint cube_root (n : nat) (x r : Z) : Z :=
match n with
| O => r
| S k =>
    let c := r + 2 ^ Z.of_nat k in
    if c * c * c <=? x then cube_root k x c else cube_root k x r
end.

(** The round constants: the first 32 bits of the fractional parts of the
    cube roots of the primes. *)
Definition K : list Z :=
Eval vm_compute in map (fun p => w32 (cube_root 40 (p * 2 ^ 96) 0)) primes.

(** The eight working words. *)
Record state := mk_state {
h0 : Z; h1 : Z; h2 : Z; h3 : Z; h4 : Z; h5 : Z; h6 : Z; h7 : Z }.

(** The initial hash value: the first 32 bits of the fractional parts of
    the square roots of the first eight primes. *)
Definition root_word (i : nat) : Z := w32 (Z.sqrt (nth i primes 0 * 2 ^ 64)).

Definition initial : state :=
Eval vm_compute in
mk_state (root_word 0) (root_word 1) (root_word 2) (root_word 3)
         (root_word 4) (root_word 5) (root_word 6) (root_word 7).

(** Padding: the bit 1, zeros up to 56 modulo 64, the bit length on eight
    bytes, most significant first. *)
Definition be_bytes (n : nat) (x : Z) : list Z :=
  map (fun i => Z.shiftr x (8 * Z.of_nat i) mod 256) (rev (seq 0 n)).

Definition pad (msg : list Z) : list Z :=
  let len := Z.of_nat (List.length msg) in
  let zeros := Z.to_nat ((55 - len) mod 64) in
  msg ++ [128] ++ repeat 0 zeros ++ be_bytes 8 (8 * len).

Fixpoint be_words (fuel : nat) (bytes : list Z) : list Z :=
  match fuel, bytes with
  | S f, a :: b :: c :: d :: r =>
      (Z.shiftl a 24 + Z.shiftl b 16 + Z.shiftl c 8 + d) :: be_words f r
  | _, _ => []
  end.

(** The message schedule: sixteen words of the block, extended to 64. *)
Fixpoint extend (n : nat) (w : list Z) : list Z :=
  match n with
  | O => w
  | S k =>
      let t := List.length w in
      let at_ i := nth (t - i) w 0 in
      extend k (w ++ [add32 (add32 (sigma1 (at_ 2%nat)) (at_ 7%nat))
                            (add32 (sigma0 (at_ 15%nat)) (at_ 16%nat))])
  end.

Definition round (s : state) (kw : Z * Z) : state :=
  let t1 := add32 (add32 (add32 (h7 s) (Sigma1 (h4 s)))
                         (add32 (Ch (h4 s) (h5 s) (h6 s)) (fst kw)))
                  (snd kw) in
  let t2 := add32 (Sigma0 (h0 s)) (Maj (h0 s) (h1 s) (h2 s)) in
  mk_state (add32 t1 t2) (h0 s) (h1 s) (h2 s)
           (add32 (h3 s) t1) (h4 s) (h5 s) (h6 s).

Definition compress (s : state) (block : list Z) : state :=
  let w := extend 48 (be_words 16 block) in
  let r := fold_left round (combine K w) s in
  mk_state (add32 (h0 s) (h0 r)) (add32 (h1 s) (h1 r))
           (add32 (h2 s) (h2 r)) (add32 (h3 s) (h3 r))
           (add32 (h4 s) (h4 r)) (add32 (h5 s) (h5 r))
           (add32 (h6 s) (h6 r)) (add32 (h7 s) (h7 r)).

Fixpoint blocks (fuel : nat) (s : state) (bytes : list Z) : state :=
  match fuel with
  | O => s
  | S f =>
      match bytes with
      | [] => s
      | _ => blocks f (compress s (firstn 64 bytes)) (skipn 64 bytes)
      end
  end.

Definition digest (msg : list Z) : state :=
  let p := pad msg in blocks (List.length p) initial p.

(** [.digest('hex')] *)
Definition hex_digit (d : Z) : ascii :=
  if d <? 10 then Text.chr (48 + d) else Text.chr (87 + d).

Definition hex_word (x : Z) : string :=
  string_of_list_ascii
    (map (fun i => hex_digit (Z.shiftr x (4 * Z.of_nat i) mod 16))
         (rev (seq 0 8))).

Definition hex (s : state) : string :=
  (hex_word (h0 s) ++ hex_word (h1 s) ++ hex_word (h2 s) ++ hex_word (h3 s) ++
   hex_word (h4 s) ++ hex_word (h5 s) ++ hex_word (h6 s) ++ hex_word (h7 s))%string.

(** [.update(text)]: the bytes of the text. *)
Definition bytes_of (s : string) : list Z :=
  map Text.code (list_ascii_of_string s).

Definition sha256_hex (s : string) : string := hex (digest (bytes_of s)).

End Sha256.

(** [generateSignature] of [simpleMemory.js], which is also
    [generateErrorSignature] of [aiMemory.js]. *)
Definition normalize (text : string) : string :=
  Text.trim (Text.collapse_spaces (Text.toLowerCase text)).

Definition generateSignature (text : string) : string :=
  Text.take 16 (Sha256.sha256_hex (normalize text)).


(** ** JavaScript values *)

#[local] Set Warnings "-register-all".

Inductive value : Type :=
| VUndefined
| VNull
| VBool (b : bool)
| VNum (n : Z)              (* an integer number *)
| VReal (q : Q)             (* a number that is not an integer *)
| VStr (s : string)
| VArr (items : list value)
| VObj (fields : list (string * value)).

Module Js.

(** [ToBoolean] *)
Definition truthy (v : value) : bool :=
  match v with
  | VUndefined | VNull => false
  | VBool b => b
  | VNum n => negb (n =? 0)
  | VReal _ => true
  | VStr s => negb (String.eqb s "")
  | VArr _ | VObj _ => true
  end.

(** [a || b] *)
Definition or_else (a b : value) : value := if truthy a then a else b.

Fixpoint lookup (k : string) (fields : list (string * value)) : option value :=
  match fields with
  | [] => None
  | (k', v) :: r => if String.eqb k k' then Some v else lookup k r
  end.

(** [k in o] for a plain object [o] and a key that [Object.prototype]
    does not define. *)
Definition has_key (k : string) (fields : list (string * value)) : bool :=
  match lookup k fields with Some _ => true | None => false end.

(** [v === VStr s] *)
Definition is_string (s : string) (v : value) : bool :=
  match v with VStr s' => String.eqb s' s | _ => false end.

(** [v !== false] *)
Definition not_false (v : value) : bool :=
  match v with VBool false => false | _ => true end.

(** [a.slice(start)] and [a.slice(0, stop)] on an array, for integer
    bounds: a negative bound counts from the end. *)
Definition slice_from {A} (start : Z) (l : list A) : list A :=
  let len := Z.of_nat (List.length l) in
  let k := if start <? 0 then Z.max (len + start) 0 else Z.min start len in
  skipn (Z.to_nat k) l.

Definition slice_to {A} (stop : Z) (l : list A) : list A :=
  let len := Z.of_nat (List.length l) in
  let k := if stop <? 0 then Z.max (len + stop) 0 else Z.min stop len in
  firstn (Z.to_nat k) l.

(** [obj.k] for a key [k] that no prototype defines: [undefined] on
    anything but an object that has the key, and a [TypeError] on
    [undefined] and [null]. *)
Definition read (v : value) (k : string) : value :=
  match v with
  | VObj fields =>
      match lookup k fields with Some x => x | None => VUndefined end
  | _ => VUndefined
  end.

Fixpoint lookup_by {A} (k : string) (table : list (string * A)) : option A :=
  match table with
  | [] => None
  | (k', a) :: r => if String.eqb k k' then Some a else lookup_by k r
  end.

Definition nullish (v : value) : bool :=
  match v with VUndefined | VNull => true | _ => false end.

(** A default: [x = d] in a parameter list or a destructuring pattern. *)
Definition default (d v : value) : value :=
  match v with VUndefined => d | _ => v end.

(** [String(v)], as a template literal renders [v].  [real_text] renders
    the numbers that are not integers. *)
Section ToString.
Variable real_text : Q -> string.

Fixpoint to_text (v : value) : string :=
  match v with
  | VUndefined => "undefined"
  | VNull => "null"
  | VBool true => "true"
  | VBool false => "false"
  | VNum n => NilZero.string_of_int (Z.to_int n)
  | VReal q => real_text q
  | VStr s => s
  | VArr items =>
      (fix join (l : list value) : string :=
         match l with
         | [] => ""
         | x :: r =>
             ((if nullish x then "" else to_text x) ++
              match r with [] => "" | _ => "," ++ join r end)%string
         end) items
  | VObj _ => "[object Object]"
  end.
End ToString.

End Js.

(** An [Error] object: its [message], and the other properties the code
    reads ([stack], [stdout], [stderr]). *)
Record JsError := mkError { message : string; props : list (string * value) }.

Definition TypeError (msg : string) : JsError := mkError msg [].

Definition err_prop (e : JsError) (k : string) : value :=
  match Js.lookup k (props e) with Some v => v | None => VUndefined end.

(** What a call comes to: a value, or a thrown error (a rejected promise). *)
Inductive Outcome (A : Type) : Type :=
| Returned (a : A)
| Threw (e : JsError).
Arguments Returned {A} a.
Arguments Threw {A} e.

(** ** The JSON memory store ([simpleMemory.js]) *)

Module SimpleMemory.

Record ErrorEntry := mkErrorEntry {
  id : Z;               (* Date.now().toString() *)
  signature : string;
  e_message : string;
  type : value;
  context : value;
  count : Z;
  firstSeen : Z;        (* new Date().toISOString() *)
  lastSeen : Z }.

Record Fix := mkFix {
  fix_id : Z;
  errorSignature : value;
  description : value;
  fix_context : value;
  createdAt : Z }.

Record Execution := mkExecution {
  tool : string;
  args : value;
  success : bool;
  error : value;
  timestamp : Z }.

Record Data := mkData {
  errors : list ErrorEntry;
  fixes : list Fix;
  executions : list Execution;
  boards : list value }.

Definition defaults : Data := mkData [] [] [] [].

(** The object: [this.memory], [this.loaded], and the file at
    [this.memoryPath] ([None]: no readable file; [writable]: whether
    [fs.writeFile] succeeds). *)
Record t := mk {
  memory : Data;
  loaded : bool;
  disk : option Data;
  writable : bool }.

(** [new SimpleMemory()] *)
Definition create (disk : option Data) (writable : bool) : t :=
  mk defaults false disk writable.

Definition load (m : t) : t :=
  mk (match disk m with Some d => d | None => defaults end)
     true (disk m) (writable m).

Definition ensureLoaded (m : t) : t := if loaded m then m else load m.

(** [save]: a failed write is logged and swallowed. *)
Definition save (m : t) : t :=
  if writable m then mk (memory m) (loaded m) (Some (memory m)) true else m.

Definition with_memory (m : t) (d : Data) : t :=
  mk d (loaded m) (disk m) (writable m).

Definition has_signature (sig : string) (e : ErrorEntry) : bool :=
  String.eqb (signature e) sig.

(** [existing.count++; existing.lastSeen = now] on the first entry that
    [find] returns. *)
Fixpoint bump (sig : string) (now : Z) (l : list ErrorEntry) : list ErrorEntry :=
  match l with
  | [] => []
  | e :: r =>
      if has_signature sig e
      then mkErrorEntry (id e) (signature e) (e_message e) (type e)
                        (context e) (count e + 1) (firstSeen e) now :: r
      else e :: bump sig now r
  end.

Definition recordError (errorMessage : string) (errorType context : value)
    (now : Z) (m0 : t) : string * t :=
  let m := ensureLoaded m0 in
  let signature := generateSignature errorMessage in
  let d := memory m in
  let errors' :=
    match find (has_signature signature) (errors d) with
    | Some _ => bump signature now (errors d)
    | None =>
        errors d ++ [mkErrorEntry now signature errorMessage errorType
                                  context 1 now now]
    end in
  (signature,
   save (with_memory m (mkData errors' (fixes d) (executions d) (boards d)))).

Inductive SearchResult :=
| Exact (match_ : ErrorEntry) (fixes : list Fix) (confidence : Q)
| Similar (matches : list (ErrorEntry * list Fix * Q)) (count : Z).

Definition fixes_for (sig : string) (d : Data) : list Fix :=
  filter (fun f => Js.is_string sig (errorSignature f)) (fixes d).

Definition is_similar (queryLower : string) (e : ErrorEntry) : bool :=
  Text.includes (Text.toLowerCase (e_message e)) queryLower ||
  Text.includes queryLower (Text.take 50 (Text.toLowerCase (e_message e))).

Definition searchSimilarErrors (query : string) (limit : Z) (m0 : t)
    : SearchResult * t :=
  let m := ensureLoaded m0 in
  let d := memory m in
  let querySignature := generateSignature query in
  let queryLower := Text.toLowerCase query in
  match find (has_signature querySignature) (errors d) with
  | Some exactMatch => (Exact exactMatch (fixes_for querySignature d) 1%Q, m)
  | None =>
      let similar :=
        map (fun e => (e, fixes_for (signature e) d, (1 # 2)%Q))
            (Js.slice_to limit (filter (is_similar queryLower) (errors d))) in
      (Similar similar (Z.of_nat (List.length similar)), m)
  end.

Definition recordFix (errorSignature fixDescription context : value)
    (now : Z) (m0 : t) : Fix * t :=
  let m := ensureLoaded m0 in
  let d := memory m in
  let entry := mkFix now errorSignature fixDescription context now in
  (entry,
   save (with_memory m (mkData (errors d) (fixes d ++ [entry]) (executions d)
                               (boards d)))).

Definition recordExecution (toolName : string) (args : value) (success : bool)
    (error : value) (now : Z) (m0 : t) : t :=
  let m := ensureLoaded m0 in
  let d := memory m in
  let pushed := executions d ++ [mkExecution toolName args success error now] in
  let kept :=
    if (100 <? Z.of_nat (List.length pushed)) then Js.slice_from (-100) pushed
    else pushed in
  save (with_memory m (mkData (errors d) (fixes d) kept (boards d))).

Definition getStats (m0 : t) : (Z * Z * Z * Q) * t :=
  let m := ensureLoaded m0 in
  let d := memory m in
  let n := Z.of_nat (List.length (executions d)) in
  let successCount :=
    Z.of_nat (List.length (filter success (executions d))) in
  ((Z.of_nat (List.length (errors d)), Z.of_nat (List.length (fixes d)), n,
    if 0 <? n then Qmake successCount (Z.to_pos n) else 0%Q), m).

End SimpleMemory.

(** ** The SQLite memory store ([aiMemory.js]) *)

(** [ORDER BY]: a stable insertion sort; [before x y] tells that [x] may
    come before [y]. *)
Section OrderBy.
Context {A : Type} (before : A -> A -> bool).

Fixpoint insert_by (x : A) (l : list A) : list A :=
  match l with
  | [] => [x]
  | y :: r => if before x y then x :: y :: r else y :: insert_by x r
  end.

Fixpoint order_by (l : list A) : list A :=
  match l with
  | [] => []
  | x :: r => insert_by x (order_by r)
  end.
End OrderBy.

(** [LIMIT n]: a negative [n] is no limit. *)
Definition sql_limit {A} (n : Z) (l : list A) : list A :=
  if n <? 0 then l else firstn (Z.to_nat n) l.

(** [text LIKE pattern]: [%] is any run of characters, [_] any single one,
    letters compare without case. *)
Fixpoint sql_like (pattern : string) : string -> bool :=
  match pattern with
  | EmptyString =>
      fun text => match text with EmptyString => true | _ => false end
  | String c p =>
      if Ascii.eqb c "%" then
        fix star (text : string) : bool :=
          sql_like p text ||
          match text with
          | EmptyString => false
          | String _ r => star r
          end
      else if Ascii.eqb c "_" then
        fun text =>
          match text with
          | EmptyString => false
          | String _ r => sql_like p r
          end
      else
        fun text =>
          match text with
          | EmptyString => false
          | String d r =>
              Ascii.eqb (Text.lower_char c) (Text.lower_char d) && sql_like p r
          end
  end.

(** A nullable [TEXT] column in a comparison: [NULL] makes it unknown, which
    selects nothing. *)
Definition null_like (column : option string) (pattern : string) : bool :=
  match column with Some text => sql_like pattern text | None => false end.

Definition null_eq (column : option string) (text : string) : bool :=
  match column with Some c => String.eqb c text | None => false end.

(** [COALESCE(?, column)] *)
Definition coalesce {A} (param column : option A) : option A :=
  match param with Some _ => param | None => column end.

Module AIMemory.

(** Rows of [error_signatures], [fixes] and [error_fix_associations]; the
    other tables are not touched by the functions below.  [datetime('now')]
    is the clock in seconds. *)
Record SignatureRow := mkSignatureRow {
  es_id : Z;
  es_signature : string;
  es_error_type : option string;
  es_pattern : option string;
  es_first_seen : Z;
  es_last_seen : Z;
  es_occurrence_count : Z }.

Record FixRow := mkFixRow {
  f_id : Z;
  f_error_signature_id : Z;
  f_fix_description : string;
  f_fix_code : option string;
  f_context : value;          (* JSON.stringify(context) *)
  f_success_rate : Q;
  f_applied_count : Z;
  f_created_at : Z;
  f_last_applied : Z }.

Record AssociationRow := mkAssociationRow {
  a_id : Z;
  a_error_signature_id : Z;
  a_fix_id : Z;
  a_success_count : Z;
  a_failure_count : Z;
  a_last_used : Z }.

(** The [seq_*] fields are the [AUTOINCREMENT] counters. *)
Record Database := mkDatabase {
  error_signatures : list SignatureRow;
  fixes : list FixRow;
  error_fix_associations : list AssociationRow;
  seq_error_signatures : Z;
  seq_fixes : Z;
  seq_associations : Z;
  last_insert_rowid : Z }.


(** [this.db] once [ensureInitialized] has run: [None] when sql.js could
    not be initialised, in which case [run] does nothing, [get] answers
    [null] and [all] answers []. *)
Definition t := option Database.

(** A fix joined with its association: [f.*, efa.success_count,
    efa.failure_count]. *)
Record FixResult := mkFixResult {
  row : FixRow;
  success_count : Z;
  failure_count : Z }.

Definition has_signature (sig : string) (r : SignatureRow) : bool :=
  String.eqb (es_signature r) sig.

Definition recordErrorSignature (errorMessage : string)
    (errorType pattern : option string) (now : Z) (m : t) : Outcome Z * t :=
  let signature := generateSignature errorMessage in
  match m with
  | None =>
      (Threw (TypeError "Cannot read properties of null (reading 'id')"), m)
  | Some db =>
      match find (has_signature signature) (error_signatures db) with
      | Some existing =>
          let update r :=
            if has_signature signature r
            then mkSignatureRow (es_id r) (es_signature r)
                   (coalesce errorType (es_error_type r))
                   (coalesce pattern (es_pattern r))
                   (es_first_seen r) now (es_occurrence_count r + 1)
            else r in
          (Returned (es_id existing),
           Some (mkDatabase (map update (error_signatures db)) (fixes db)
                   (error_fix_associations db) (seq_error_signatures db)
                   (seq_fixes db) (seq_associations db)
                   (last_insert_rowid db)))
      | None =>
          let rowid := seq_error_signatures db + 1 in
          (Returned rowid,
           Some (mkDatabase
                   (error_signatures db ++
                    [mkSignatureRow rowid signature errorType pattern now now 1])
                   (fixes db) (error_fix_associations db) rowid
                   (seq_fixes db) (seq_associations db) rowid))
      end
  end.

(** [SELECT f.*, efa.success_count, efa.failure_count FROM fixes f JOIN
    error_fix_associations efa ON f.id = efa.fix_id
    WHERE efa.error_signature_id = ?] *)
Definition joined_fixes (db : Database) (signature_id : Z) : list FixResult :=
  flat_map
    (fun f =>
       map (fun a => mkFixResult f (a_success_count a) (a_failure_count a))
           (filter (fun a => (a_fix_id a =? f_id f) &&
                             (a_error_signature_id a =? signature_id))
                   (error_fix_associations db)))
    (fixes db).

(** [ORDER BY efa.success_count DESC, f.last_applied DESC] *)
Definition by_success_then_recency (x y : FixResult) : bool :=
  (success_count y <? success_count x) ||
  ((success_count x =? success_count y) &&
   (f_last_applied (row y) <=? f_last_applied (row x))).

(** [ORDER BY efa.success_count DESC] *)
Definition by_success (x y : FixResult) : bool :=
  success_count y <=? success_count x.

(** [CASE WHEN pattern LIKE ? THEN 0.8 WHEN error_type = ? THEN 0.6
    ELSE 0.3 END] *)
Definition similarity (query : string) (r : SignatureRow) : Q :=
  if null_like (es_pattern r) ("%" ++ query ++ "%")%string then (8 # 10)%Q
  else if null_eq (es_error_type r) query then (6 # 10)%Q
  else (3 # 10)%Q.

(** [ORDER BY similarity DESC, occurrence_count DESC] *)
Definition by_similarity (query : string) (x y : SignatureRow) : bool :=
  let sx := similarity query x in
  let sy := similarity query y in
  negb (Qle_bool sx sy) ||
  (Qeq_bool sx sy && (es_occurrence_count y <=? es_occurrence_count x)).

Inductive SearchResult :=
| Exact (match_ : SignatureRow) (fixes : list FixResult) (confidence : Q)
| Similar (matches : list (SignatureRow * list FixResult * Q)) (count : Z).

Definition searchSimilarErrors (query : string) (limit : Z) (m : t)
    : SearchResult :=
  match m with
  | None => Similar [] 0
  | Some db =>
      let queryHash := generateSignature query in
      match find (has_signature queryHash) (error_signatures db) with
      | Some exactMatch =>
          Exact exactMatch
            (sql_limit limit
               (order_by by_success_then_recency
                  (joined_fixes db (es_id exactMatch))))
            1%Q
      | None =>
          let wild := ("%" ++ query ++ "%")%string in
          let similar :=
            sql_limit limit
              (order_by (by_similarity query)
                 (filter (fun r => null_like (es_pattern r) wild ||
                                   null_like (es_error_type r) wild)
                         (error_signatures db))) in
          let results :=
            map (fun err =>
                   (err,
                    sql_limit 3 (order_by by_success
                                   (joined_fixes db (es_id err))),
                    similarity query err))
                similar in
          Similar results (Z.of_nat (List.length results))
      end
  end.

(** [recordFix]: its first argument goes through [recordErrorSignature],
    which hashes it as an error message. *)
Definition recordFix (errorSignature fixDescription : string)
    (fixCode : option string) (context : value) (now : Z) (m : t)
    : Outcome (Z * Z) * t :=
  match recordErrorSignature errorSignature None None now m with
  | (Threw e, m') => (Threw e, m')
  | (Returned errorId, None) =>
      (Threw (TypeError "Cannot read properties of null (reading 'id')"), None)
  | (Returned errorId, Some db) =>
      let fixId := seq_fixes db + 1 in
      let fixes' :=
        fixes db ++
        [mkFixRow fixId errorId fixDescription fixCode context 1%Q 1 now now] in
      let exists_ :=
        existsb (fun a => (a_error_signature_id a =? errorId) &&
                          (a_fix_id a =? fixId))
                (error_fix_associations db) in
      let db' :=
        if exists_
        then mkDatabase (error_signatures db) fixes'
               (error_fix_associations db) (seq_error_signatures db) fixId
               (seq_associations db) fixId
        else
          let aid := seq_associations db + 1 in
          mkDatabase (error_signatures db) fixes'
            (error_fix_associations db ++
             [mkAssociationRow aid errorId fixId 1 0 now])
            (seq_error_signatures db) fixId aid aid in
      (Returned (fixId, errorId), Some db')
  end.

End AIMemory.

(** ** The tool registry ([toolSchema.js]) *)

Module ToolSchema.

(** A catalog entry: the tool's name, the names and JSON types of its
    [parameters.properties], and [parameters.required], which some entries
    do not have.  The [description] texts are left out. *)
Record ToolDefinition := mkTool {
  name : string;
  properties : list (string * string);
  required : option (list string) }.

Definition TOOL_SCHEMA : list ToolDefinition :=
  [ mkTool "compile_sketch"
      [("sketchPath", "string"); ("boardFQBN", "string")] (Some []);
    mkTool "upload_sketch"
      [("sketchPath", "string"); ("boardFQBN", "string"); ("port", "string")]
      (Some []);
    mkTool "list_boards" [] None;
    mkTool "list_ports" [] None;
    mkTool "connect_serial" [("port", "string"); ("baudRate", "number")]
      (Some ["port"]);
    mkTool "disconnect_serial" [] None;
    mkTool "send_serial" [("data", "string")] (Some ["data"]);
    mkTool "read_serial" [("lines", "number")] None;
    mkTool "auto_detect_baud" [("port", "string")] (Some ["port"]);
    mkTool "get_baud_rate" [] None;
    mkTool "set_baud_rate" [("baudRate", "number")] (Some ["baudRate"]);
    mkTool "get_available_baud_rates" [] None;
    mkTool "get_editor_code" [] None;
    mkTool "set_editor_code" [("code", "string")] (Some ["code"]);
    mkTool "edit_code"
      [("operation", "string"); ("startLine", "number");
       ("endLine", "number"); ("newCode", "string")]
      (Some ["operation"; "startLine"]);
    mkTool "search_code" [("searchText", "string"); ("isRegex", "boolean")]
      (Some ["searchText"]);
    mkTool "replace_in_code"
      [("searchText", "string"); ("replaceText", "string");
       ("replaceAll", "boolean")]
      (Some ["searchText"; "replaceText"]);
    mkTool "get_current_sketch_path" [] None;
    mkTool "save_sketch" [("path", "string")] None;
    mkTool "analyze_error" [("errorMessage", "string"); ("context", "object")]
      (Some ["errorMessage"]);
    mkTool "search_memory" [("query", "string"); ("limit", "number")]
      (Some ["query"]);
    mkTool "record_fix"
      [("errorSignature", "string"); ("fix", "string"); ("context", "object")]
      (Some ["errorSignature"; "fix"]);
    mkTool "get_current_state" [] None ].

Definition DEBUG_TOOL_NAMES : list string :=
  ["analyze_error"; "search_memory"; "record_fix"].

Definition getAllTools : list ToolDefinition := TOOL_SCHEMA.

Definition getDebugTools : list ToolDefinition :=
  filter (fun t => existsb (String.eqb (name t)) DEBUG_TOOL_NAMES) TOOL_SCHEMA.

Definition getTool (n : string) : option ToolDefinition :=
  find (fun tool => String.eqb (name tool) n) TOOL_SCHEMA.

End ToolSchema.

(** A tool call as a provider adapter or the renderer hands it over.
    [arguments] is whatever JavaScript value came with it. *)
Record ToolCall := mkToolCall {
  tc_id : string;
  tc_name : string;
  tc_arguments : value }.

Inductive Validation :=
| Valid
| Invalid (error : string).

(** [param in toolCall.arguments]: a [TypeError] unless the right operand is
    an object. *)
Definition js_in (param : string) (v : value) : Outcome bool :=
  match v with
  | VObj fields => Returned (Js.has_key param fields)
  | VArr _ => Returned false
  | VUndefined =>
      Threw (TypeError ("Cannot use 'in' operator to search for '" ++ param ++
                        "' in undefined")%string)
  | VNull =>
      Threw (TypeError ("Cannot use 'in' operator to search for '" ++ param ++
                        "' in null")%string)
  | _ =>
      Threw (TypeError ("Cannot use 'in' operator to search for '" ++ param ++
                        "' in a primitive value")%string)
  end.

(** The [for] loop of [validateToolCall] over [tool.parameters.required]. *)
Fixpoint check_required (params : list string) (arguments : value)
    : Outcome Validation :=
  match params with
  | [] => Returned Valid
  | param :: rest =>
      match js_in param arguments with
      | Threw e => Threw e
      | Returned false =>
          Returned (Invalid ("Missing required parameter: " ++ param)%string)
      | Returned true => check_required rest arguments
      end
  end.

Definition validateToolCall (toolCall : ToolCall) : Outcome Validation :=
  if String.eqb (tc_name toolCall) "" then
    Returned (Invalid "Tool name is required")
  else
    match ToolSchema.getTool (tc_name toolCall) with
    | None => Returned (Invalid ("Unknown tool: " ++ tc_name toolCall)%string)
    | Some tool =>
        match ToolSchema.required tool with
        | Some params => check_required params (tc_arguments toolCall)
        | None => Returned Valid
        end
    end.

(** ** The world around the orchestration core *)

(** The collaborators are outside the core: what they answer is given by an
    oracle that sees the calls made so far.  [elapsed] is the wall-clock time
    a call takes. *)
Inductive Collaborator :=
| ArduinoService
| SerialMonitor
| UICallbacks
| ErrorMemory.

Record Call := mkCall {
  target : Collaborator;
  method : string;
  call_args : list value }.

Record Reply := mkReply {
  outcome : Outcome value;
  elapsed : Z }.

(** What [execute] returns.  [executionTime] is set by the agent. *)
Record ToolResult := mkToolResult {
  success : bool;
  tool : string;
  result : option value;
  error : option string;
  stack : option value;
  executionTime : option Z }.

Inductive Prompt := SYSTEM_PROMPT | ASK_PROMPT | DEBUG_PROMPT.

(** The messages of one turn.  The [content] of a tool message is
    [JSON.stringify(result)], carried as the result it renders. *)
Inductive Message :=
| SystemMessage (prompt : Prompt)
| UserMessage (content : string)
| AssistantMessage (content : value) (tool_calls : list ToolCall)
| ToolMessage (tool_call_id : string) (name : string) (content : ToolResult).

(** A provider's normalised answer. *)
Record Response := mkResponse {
  content : value;
  toolCalls : list ToolCall;
  usage : value;
  model : value }.

Inductive Event :=
| Invoked (c : Call)
| Chatted (messages : list Message) (tools : list string).

Record Env := mkEnv {
  collaborator : list Event -> Call -> Reply;
  (** a property of a collaborator object, such as [isConnected] *)
  property : list Event -> Collaborator -> string -> value;
  (** [currentProvider.chat(messages, {tools})] and the time it takes *)
  provider : list Event -> list Message -> list string -> Outcome Response * Z;
  (** the string built-ins of the JavaScript engine that the editor tools
      use and that are not modelled: [split], [slice], [join], [RegExp] *)
  builtin : string -> list value -> Outcome value;
  (** [ToIntegerOrInfinity] of a string, an array or an object *)
  to_integer_or_infinity : value -> Z;
  (** [JSON.stringify(v, null, 2)] *)
  json_text : value -> string;
  (** [String(x)] for a number [x] that is not an integer *)
  real_text : Q -> string }.

Record World := mkWorld {
  trace : list Event;
  clock : Z;
  (* ToolExecutor *)
  arduinoService : bool;
  serialMonitor : bool;
  errorMemory : bool;
  aiMemory : option SimpleMemory.t;
  serialBuffer : list value;
  dataListeners : nat;
  uiCallbacks : option (list string);
  (* AIAgent *)
  currentProvider : bool;
  maxIterations : Z;
  conversationHistory : list Message }.

Definition set_trace (w : World) (t : list Event) (c : Z) : World :=
  mkWorld t c (arduinoService w) (serialMonitor w) (errorMemory w)
    (aiMemory w) (serialBuffer w) (dataListeners w) (uiCallbacks w)
    (currentProvider w) (maxIterations w) (conversationHistory w).

Definition set_aiMemory (w : World) (m : option SimpleMemory.t) : World :=
  mkWorld (trace w) (clock w) (arduinoService w) (serialMonitor w)
    (errorMemory w) m (serialBuffer w) (dataListeners w) (uiCallbacks w)
    (currentProvider w) (maxIterations w) (conversationHistory w).

Definition set_serialBuffer (w : World) (b : list value) : World :=
  mkWorld (trace w) (clock w) (arduinoService w) (serialMonitor w)
    (errorMemory w) (aiMemory w) b (dataListeners w) (uiCallbacks w)
    (currentProvider w) (maxIterations w) (conversationHistory w).

Definition set_dataListeners (w : World) (n : nat) : World :=
  mkWorld (trace w) (clock w) (arduinoService w) (serialMonitor w)
    (errorMemory w) (aiMemory w) (serialBuffer w) n (uiCallbacks w)
    (currentProvider w) (maxIterations w) (conversationHistory w).

Definition set_uiCallbacks (w : World) (c : option (list string)) : World :=
  mkWorld (trace w) (clock w) (arduinoService w) (serialMonitor w)
    (errorMemory w) (aiMemory w) (serialBuffer w) (dataListeners w) c
    (currentProvider w) (maxIterations w) (conversationHistory w).

Definition set_conversationHistory (w : World) (h : list Message) : World :=
  mkWorld (trace w) (clock w) (arduinoService w) (serialMonitor w)
    (errorMemory w) (aiMemory w) (serialBuffer w) (dataListeners w)
    (uiCallbacks w) (currentProvider w) (maxIterations w) h.

(** ** Computations: state and exceptions *)

(** A computation reads the environment and threads the world. *)
Definition M (A : Type) : Type := Env -> World -> Outcome A * World.

Definition ret {A} (a : A) : M A := fun _ w => (Returned a, w).

Definition throw {A} (e : JsError) : M A := fun _ w => (Threw e, w).

Definition bind {A B} (c : M A) (k : A -> M B) : M B :=
  fun env w =>
    match c env w with
    | (Returned a, w') => k a env w'
    | (Threw e, w') => (Threw e, w')
    end.

(** [try { c } catch (e) { handler e }] *)
Definition try_catch {A} (c : M A) (handler : JsError -> M A) : M A :=
  fun env w =>
    match c env w with
    | (Returned a, w') => (Returned a, w')
    | (Threw e, w') => handler e env w'
    end.

Declare Scope monad_scope.
Delimit Scope monad_scope with monad.
Notation "x <- c ;; k" := (bind c (fun x => k))
  (at level 61, c at next level, right associativity) : monad_scope.
Notation "c ;;; k" := (bind c (fun _ => k))
  (at level 61, right associativity) : monad_scope.
Open Scope monad_scope.

Definition gets {A} (f : World -> A) : M A := fun _ w => (Returned (f w), w).

(** A reading that depends on the environment. *)
Definition asks {A} (f : Env -> World -> A) : M A :=
  fun env w => (Returned (f env w), w).

Definition modify (f : World -> World) : M unit :=
  fun _ w => (Returned tt, f w).

Definition lift {A} (o : Outcome A) : M A := fun _ w => (o, w).

(** [await target.method(args)] *)
Definition invoke (t : Collaborator) (m : string) (args : list value) : M value :=
  fun env w =>
    let call := mkCall t m args in
    let r := collaborator env (trace w) call in
    (outcome r, set_trace w (trace w ++ [Invoked call]) (clock w + elapsed r)).

(** A method call on a collaborator that the constructor may have received
    as [null]. *)
Definition invoke_on (present : World -> bool) (t : Collaborator) (m : string)
    (args : list value) : M value :=
  here <- gets present ;;
  if here then invoke t m args
  else throw (TypeError ("Cannot read properties of null (reading '" ++ m ++
                         "')")%string).

Definition peek_on (present : World -> bool) (t : Collaborator) (k : string)
    : M value :=
  here <- gets present ;;
  if here then asks (fun env w => property env (trace w) t k)
  else throw (TypeError ("Cannot read properties of null (reading '" ++ k ++
                         "')")%string).

(** [v.k] *)
Definition get (v : value) (k : string) : M value :=
  if Js.nullish v
  then throw (TypeError ("Cannot read properties of " ++
                         match v with VNull => "null" | _ => "undefined" end ++
                         " (reading '" ++ k ++ "')")%string)
  else ret (Js.read v k).

(** [v.trim()] *)
Definition call_trim (v : value) : M value :=
  match v with
  | VStr s => ret (VStr (Text.trim s))
  | _ => throw (TypeError "(intermediate value).trim is not a function")
  end.

(** [this.uiCallbacks && this.uiCallbacks.name] *)
Definition has_callback (name : string) (w : World) : bool :=
  match uiCallbacks w with
  | Some defined => existsb (String.eqb name) defined
  | None => false
  end.

Definition text_of (v : value) : M string :=
  asks (fun env _ => Js.to_text (real_text env) v).

(** [await this.uiCallbacks.name(args)] *)
Definition callback (name : string) (args : list value) : M value :=
  invoke UICallbacks name args.

(** An engine built-in that the embedding leaves to [builtin]. *)
Definition eval (name : string) (args : list value) : M value :=
  fun env w => (builtin env name args, w).

(** [ToIntegerOrInfinity], as [slice] applies it to a bound. *)
Definition to_integer (v : value) : M Z :=
  asks (fun env _ =>
    match v with
    | VNum n => n
    | VUndefined | VNull => 0
    | VBool b => if b then 1 else 0
    | _ => to_integer_or_infinity env v
    end).

Definition items_of (v : value) : list value :=
  match v with VArr l => l | _ => [] end.

(** A number as a value. *)
Definition number (q : Q) : value :=
  match Qden q with
  | xH => VNum (Qnum q)
  | _ => VReal q
  end.

Definition obj_false (msg : string) : value :=
  VObj [("success", VBool false); ("error", VStr msg)].

(** ** The tool executor ([toolExecutor.js]) *)

Module ToolExecutor.

Definition maxBufferSize : Z := 1000.

Definition availableBaudRates : list Z :=
  [300; 1200; 2400; 4800; 9600; 19200; 38400;
   57600; 74880; 115200; 230400; 250000; 500000; 1000000; 2000000].

Definition setUICallbacks (callbacks : option (list string)) : M unit :=
  modify (fun w => set_uiCallbacks w callbacks).

(** What the memory store hands back, as values. *)
Definition entry_value (e : SimpleMemory.ErrorEntry) : value :=
  VObj [("id", VNum (SimpleMemory.id e));
        ("signature", VStr (SimpleMemory.signature e));
        ("message", VStr (SimpleMemory.e_message e));
        ("type", SimpleMemory.type e);
        ("context", SimpleMemory.context e);
        ("count", VNum (SimpleMemory.count e));
        ("firstSeen", VNum (SimpleMemory.firstSeen e));
        ("lastSeen", VNum (SimpleMemory.lastSeen e))].

Definition fix_value (f : SimpleMemory.Fix) : value :=
  VObj [("id", VNum (SimpleMemory.fix_id f));
        ("errorSignature", SimpleMemory.errorSignature f);
        ("description", SimpleMemory.description f);
        ("context", SimpleMemory.fix_context f);
        ("createdAt", VNum (SimpleMemory.createdAt f))].

Definition search_value (r : SimpleMemory.SearchResult) : value :=
  match r with
  | SimpleMemory.Exact m fixes c =>
      VObj [("match", entry_value m);
            ("fixes", VArr (map fix_value fixes));
            ("confidence", number c)]
  | SimpleMemory.Similar matches n =>
      VObj [("matches",
             VArr (map (fun x : SimpleMemory.ErrorEntry *
                                list SimpleMemory.Fix * Q =>
                          VObj [("error", entry_value (fst (fst x)));
                                ("fixes", VArr (map fix_value (snd (fst x))));
                                ("confidence", number (snd x))])
                       matches));
            ("count", VNum n)]
  end.

(** [await this.aiMemory.searchSimilarErrors(query, limit)]: the store
    loads itself, then [query.toLowerCase()] needs a string. *)
Definition memory_search (m : SimpleMemory.t) (query : value) (limit : Z)
    : M value :=
  match query with
  | VStr q =>
      let (r, m') := SimpleMemory.searchSimilarErrors q limit m in
      modify (fun w => set_aiMemory w (Some m')) ;;;
      ret (search_value r)
  | _ =>
      modify (fun w => set_aiMemory w (Some (SimpleMemory.ensureLoaded m))) ;;;
      throw (TypeError "text.toLowerCase is not a function")
  end.

(** *** Arduino operations *)

Definition executeCompile (args0 : value) : M value :=
  let args := Js.default (VObj []) args0 in
  a <- get args "sketchPath" ;;
  sketchPath0 <- call_trim (Js.or_else a (VStr "")) ;;
  b <- get args "boardFQBN" ;;
  boardFQBN0 <- call_trim (Js.or_else b (VStr "")) ;;
  hasPath <- gets (has_callback "getCurrentSketchPath") ;;
  sketchPath <-
    (if negb (Js.truthy sketchPath0) && hasPath
     then p <- callback "getCurrentSketchPath" [] ;; ret (Js.or_else p (VStr ""))
     else ret sketchPath0) ;;
  hasBoard <- gets (has_callback "getSelectedBoard") ;;
  boardFQBN <-
    (if negb (Js.truthy boardFQBN0) && hasBoard
     then p <- callback "getSelectedBoard" [] ;; ret (Js.or_else p (VStr ""))
     else ret boardFQBN0) ;;
  if negb (Js.truthy sketchPath) then
    ret (obj_false "No sketch open. Please open a .ino file first (Open Sketch in the sidebar).")
  else if negb (Js.truthy boardFQBN) then
    ret (obj_false "No board selected. Please select a board from the Board dropdown in the sidebar.")
  else
    hasSave <- gets (has_callback "saveSketch") ;;
    (if hasSave then callback "saveSketch" [sketchPath] else ret VUndefined) ;;;
    try_catch
      (compileResult <- invoke_on arduinoService ArduinoService "compile"
                          [sketchPath; boardFQBN] ;;
       output <- get compileResult "output" ;;
       warnings <- get compileResult "warnings" ;;
       message <- get compileResult "message" ;;
       ret (VObj [("output", output);
                  ("warnings", Js.or_else warnings (VArr []));
                  ("success", VBool true);
                  ("message", message)]))
      (fun err =>
         ret (VObj [("success", VBool false);
                    ("error", VStr (message err));
                    ("output", Js.or_else (err_prop err "stdout")
                                          (err_prop err "stderr"))])).

Definition executeUpload (args0 : value) : M value :=
  let args := Js.default (VObj []) args0 in
  a <- get args "sketchPath" ;;
  sketchPath0 <- call_trim (Js.or_else a (VStr "")) ;;
  b <- get args "boardFQBN" ;;
  boardFQBN0 <- call_trim (Js.or_else b (VStr "")) ;;
  c <- get args "port" ;;
  port0 <- call_trim (Js.or_else c (VStr "")) ;;
  hasPath <- gets (has_callback "getCurrentSketchPath") ;;
  sketchPath <-
    (if negb (Js.truthy sketchPath0) && hasPath
     then p <- callback "getCurrentSketchPath" [] ;; ret (Js.or_else p (VStr ""))
     else ret sketchPath0) ;;
  hasBoard <- gets (has_callback "getSelectedBoard") ;;
  boardFQBN <-
    (if negb (Js.truthy boardFQBN0) && hasBoard
     then p <- callback "getSelectedBoard" [] ;; ret (Js.or_else p (VStr ""))
     else ret boardFQBN0) ;;
  hasPort <- gets (has_callback "getSelectedPort") ;;
  port <-
    (if negb (Js.truthy port0) && hasPort
     then p <- callback "getSelectedPort" [] ;; ret (Js.or_else p (VStr ""))
     else ret port0) ;;
  if negb (Js.truthy sketchPath) then
    ret (obj_false "No sketch open. Please open a .ino file first (Open Sketch in the sidebar).")
  else if negb (Js.truthy boardFQBN) then
    ret (obj_false "No board selected. Please select a board from the Board dropdown.")
  else if negb (Js.truthy port) then
    ret (obj_false "No port selected. Please select a port from the Port dropdown (and connect your board via USB).")
  else
    present <- gets serialMonitor ;;
    connected <-
      (if present
       then asks (fun env w => property env (trace w) SerialMonitor "isConnected")
       else ret VNull) ;;
    (if Js.truthy connected then invoke SerialMonitor "disconnect" []
     else ret VUndefined) ;;;
    hasSave <- gets (has_callback "saveSketch") ;;
    (if hasSave then callback "saveSketch" [sketchPath] else ret VUndefined) ;;;
    try_catch
      (uploadResult <- invoke_on arduinoService ArduinoService "upload"
                         [sketchPath; boardFQBN; port] ;;
       output <- get uploadResult "output" ;;
       port' <- get uploadResult "port" ;;
       message <- get uploadResult "message" ;;
       ret (VObj [("output", output);
                  ("port", port');
                  ("success", VBool true);
                  ("message", Js.or_else message (VStr "Upload complete"))]))
      (fun err =>
         ret (VObj [("success", VBool false);
                    ("error", VStr (message err));
                    ("output", Js.or_else (err_prop err "stdout")
                                          (err_prop err "stderr"))])).

Definition executeListBoards : M value :=
  boards <- invoke_on arduinoService ArduinoService "listBoards" [] ;;
  ret (VObj [("boards", boards)]).

Definition executeListPorts : M value :=
  ports <- invoke_on arduinoService ArduinoService "listPorts" [] ;;
  ret (VObj [("ports", ports)]).

(** *** Serial monitor operations *)

Definition addToBuffer (data : value) : M unit :=
  timestamp <- get data "timestamp" ;;
  now <- gets clock ;;
  inner <- get data "data" ;;
  baudRate <- get data "baudRate" ;;
  let entry := VObj [("timestamp", Js.or_else timestamp (VNum now));
                     ("data", Js.or_else inner data);
                     ("baudRate", baudRate)] in
  modify (fun w =>
    let pushed := serialBuffer w ++ [entry] in
    set_serialBuffer w
      (if maxBufferSize <? Z.of_nat (List.length pushed)
       then tl pushed else pushed)).

Definition clearBuffer : M unit := modify (fun w => set_serialBuffer w []).

Definition executeConnectSerial (args : value) : M value :=
  port <- get args "port" ;;
  b <- get args "baudRate" ;;
  let baudRate := Js.default (VNum 115200) b in
  invoke_on serialMonitor SerialMonitor "connect" [port; baudRate] ;;;
  invoke SerialMonitor "on" [VStr "data"] ;;;
  modify (fun w => set_dataListeners w (S (dataListeners w))) ;;;
  ret (VObj [("port", port); ("baudRate", baudRate); ("connected", VBool true)]).

Definition executeDisconnectSerial : M value :=
  invoke_on serialMonitor SerialMonitor "disconnect" [] ;;;
  ret (VObj [("connected", VBool false)]).

Definition executeSendSerial (args : value) : M value :=
  data <- get args "data" ;;
  invoke_on serialMonitor SerialMonitor "send" [data] ;;;
  ret (VObj [("sent", data)]).

Definition executeReadSerial (args : value) : M value :=
  l <- get args "lines" ;;
  n <- to_integer (Js.default (VNum 50) l) ;;
  buffer <- gets serialBuffer ;;
  ret (VObj [("lines", VArr (Js.slice_from (- n) buffer));
             ("totalBuffered", VNum (Z.of_nat (List.length buffer)))]).

Definition executeAutoDetectBaud (args : value) : M value :=
  port <- get args "port" ;;
  tryBaudRates <- peek_on serialMonitor SerialMonitor "tryBaudRates" ;;
  detectedBaud <-
    (if Js.truthy tryBaudRates
     then invoke SerialMonitor "tryBaudRates" [port]
     else ret VUndefined) ;;
  if Js.truthy tryBaudRates && Js.truthy detectedBaud then
    ret (VObj [("success", VBool true); ("baudRate", detectedBaud);
               ("port", port)])
  else
    ret (VObj [("success", VBool false);
               ("error", VStr "Could not detect baud rate");
               ("port", port)]).

(** *** Baud rate operations *)

Definition executeGetBaudRate : M value :=
  hasGet <- gets (has_callback "getBaudRate") ;;
  if hasGet then
    baudRate <- callback "getBaudRate" [] ;;
    ret (VObj [("baudRate", baudRate)])
  else
    present <- gets serialMonitor ;;
    current <-
      (if present
       then asks (fun env w => property env (trace w) SerialMonitor
                               "currentBaudRate")
       else ret VNull) ;;
    if Js.truthy current then ret (VObj [("baudRate", current)])
    else ret (VObj [("baudRate", VNull);
                    ("error", VStr "No baud rate information available")]).

Definition rates_text : string :=
  String.concat ", "
    (map (fun n => NilZero.string_of_int (Z.to_int n)) availableBaudRates).

Definition executeSetBaudRate (args : value) : M value :=
  baudRate <- get args "baudRate" ;;
  let included :=
    match baudRate with
    | VNum n => existsb (Z.eqb n) availableBaudRates
    | _ => false
    end in
  if negb included then
    shown <- text_of baudRate ;;
    ret (obj_false ("Invalid baud rate: " ++ shown ++ ". Available rates: " ++
                    rates_text)%string)
  else
    hasSet <- gets (has_callback "setBaudRate") ;;
    if hasSet then
      callback "setBaudRate" [baudRate] ;;;
      ret (VObj [("success", VBool true); ("baudRate", baudRate)])
    else
      ret (obj_false "Unable to set baud rate - UI callback not available").

Definition executeGetAvailableBaudRates : M value :=
  ret (VObj [("baudRates", VArr (map VNum availableBaudRates))]).

(** *** Code editor operations *)

Definition executeGetEditorCode : M value :=
  hasGet <- gets (has_callback "getEditorCode") ;;
  if hasGet then
    code <- callback "getEditorCode" [] ;;
    ret (VObj [("code", code)])
  else
    ret (VObj [("code", VNull);
               ("error", VStr "Unable to get editor code - UI callback not available")]).

Definition executeSetEditorCode (args : value) : M value :=
  code <- get args "code" ;;
  hasSet <- gets (has_callback "setEditorCode") ;;
  if hasSet then
    callback "setEditorCode" [code] ;;;
    ret (VObj [("success", VBool true)])
  else
    ret (obj_false "Unable to set editor code - UI callback not available").

(** The line arithmetic of [executeEditCode] ([split], [slice], [join]) is
    the built-in [edit_code]; it answers [newCodeStr], [linesAffected] and
    [newLineCount]. *)
Definition executeEditCode (args : value) : M value :=
  operation <- get args "operation" ;;
  startLine <- get args "startLine" ;;
  endLine <- get args "endLine" ;;
  newCode <- get args "newCode" ;;
  hasGet <- gets (has_callback "getEditorCode") ;;
  hasSet <- gets (has_callback "setEditorCode") ;;
  if negb (hasGet && hasSet) then
    ret (obj_false "Unable to edit code - UI callbacks not available")
  else
    currentCode <- callback "getEditorCode" [] ;;
    eval "split" [currentCode] ;;;
    if Js.is_string "replace" operation || Js.is_string "insert" operation ||
       Js.is_string "delete" operation
    then
      r <- eval "edit_code" [currentCode; operation; startLine; endLine; newCode] ;;
      newCodeStr <- get r "newCodeStr" ;;
      callback "setEditorCode" [newCodeStr] ;;;
      ret (VObj [("success", VBool true);
                 ("operation", operation);
                 ("linesAffected", Js.read r "linesAffected");
                 ("newLineCount", Js.read r "newLineCount")])
    else
      shown <- text_of operation ;;
      ret (obj_false ("Unknown operation: " ++ shown)%string).

(** The matching of [executeSearchCode] (plain or [RegExp]) is the
    built-in [search_code]; it answers the array of matches. *)
Definition executeSearchCode (args : value) : M value :=
  searchText <- get args "searchText" ;;
  r <- get args "isRegex" ;;
  let isRegex := Js.default (VBool false) r in
  hasGet <- gets (has_callback "getEditorCode") ;;
  if negb hasGet then
    ret (obj_false "Unable to search code - UI callback not available")
  else
    code <- callback "getEditorCode" [] ;;
    found <- eval "search_code" [code; searchText; isRegex] ;;
    let matches := items_of found in
    ret (VObj [("searchText", searchText);
               ("matchCount", VNum (Z.of_nat (List.length matches)));
               ("matches", VArr (Js.slice_to 50 matches))]).

(** The replacement of [executeReplaceInCode] is the built-in
    [replace_in_code]; it answers [newCode] and [count]. *)
Definition executeReplaceInCode (args : value) : M value :=
  searchText <- get args "searchText" ;;
  replaceText <- get args "replaceText" ;;
  r <- get args "replaceAll" ;;
  let replaceAll := Js.default (VBool false) r in
  hasGet <- gets (has_callback "getEditorCode") ;;
  hasSet <- gets (has_callback "setEditorCode") ;;
  if negb (hasGet && hasSet) then
    ret (obj_false "Unable to replace in code - UI callbacks not available")
  else
    code <- callback "getEditorCode" [] ;;
    done <- eval "replace_in_code" [code; searchText; replaceText; replaceAll] ;;
    newCode <- get done "newCode" ;;
    callback "setEditorCode" [newCode] ;;;
    ret (VObj [("success", VBool true);
               ("searchText", searchText);
               ("replaceText", replaceText);
               ("replacementCount", Js.read done "count")]).

Definition executeGetCurrentSketchPath : M value :=
  hasPath <- gets (has_callback "getCurrentSketchPath") ;;
  if hasPath then
    path <- callback "getCurrentSketchPath" [] ;;
    ret (VObj [("path", path)])
  else
    ret (VObj [("path", VNull);
               ("error", VStr "Unable to get sketch path - UI callback not available")]).

Definition executeSaveSketch (args : value) : M value :=
  path <- get args "path" ;;
  hasSave <- gets (has_callback "saveSketch") ;;
  if hasSave then
    callback "saveSketch" [path] ;;;
    ret (VObj [("success", VBool true); ("path", path)])
  else
    ret (obj_false "Unable to save sketch - UI callback not available").

(** *** Analysis operations *)

Definition executeAnalyzeError (args : value) : M value :=
  errorMessage <- get args "errorMessage" ;;
  context <- get args "context" ;;
  memory <- gets aiMemory ;;
  memoryResults <-
    match memory with
    | Some m => memory_search m errorMessage 10
    | None => ret (VArr [])
    end ;;
  present <- gets errorMemory ;;
  analyzedError <-
    (if present then invoke ErrorMemory "analyzeError" [errorMessage]
     else ret (VObj [("suggestions", VArr [])])) ;;
  suggestions <- get analyzedError "suggestions" ;;
  ret (VObj [("errorMessage", errorMessage);
             ("context", context);
             ("memoryMatches", memoryResults);
             ("patternAnalysis", analyzedError);
             ("suggestions", suggestions)]).

Definition executeSearchMemory (args : value) : M value :=
  query <- get args "query" ;;
  l <- get args "limit" ;;
  memory <- gets aiMemory ;;
  match memory with
  | Some m =>
      match query with
      | VStr _ =>
          limit <- to_integer (Js.default (VNum 10) l) ;;
          results <- memory_search m query limit ;;
          ret (VObj [("results", results)])
      | _ =>
          results <- memory_search m query 0 ;;
          ret (VObj [("results", results)])
      end
  | None => ret (VObj [("results", VArr [])])
  end.

Definition executeRecordFix (args : value) : M value :=
  errorSignature <- get args "errorSignature" ;;
  fix_ <- get args "fix" ;;
  context <- get args "context" ;;
  memory <- gets aiMemory ;;
  match memory with
  | Some m =>
      now <- gets clock ;;
      let (record, m') :=
        SimpleMemory.recordFix errorSignature fix_ (Js.default VNull context)
                               now m in
      modify (fun w => set_aiMemory w (Some m')) ;;;
      ret (VObj [("record", fix_value record)])
  | None => ret (obj_false "Memory not available")
  end.

(** *** State operations *)

Definition executeGetCurrentState : M value :=
  present <- gets serialMonitor ;;
  isConnected <-
    asks (fun env w => if present
                       then property env (trace w) SerialMonitor "isConnected"
                       else VBool false) ;;
  buffer <- gets serialBuffer ;;
  currentSerial <-
    asks (fun env w => if present
                       then property env (trace w) SerialMonitor
                              "currentBaudRate"
                       else VNull) ;;
  let state :=
    [("serialConnected", isConnected);
     ("serialBufferSize", VNum (Z.of_nat (List.length buffer)));
     ("availableBaudRates", VArr (map VNum availableBaudRates));
     ("currentSerialBaudRate", currentSerial)] in
  let ask (cb key : string) (state : list (string * value))
      : M (list (string * value)) :=
    has <- gets (has_callback cb) ;;
    if has then v <- callback cb [] ;; ret (state ++ [(key, v)])
    else ret state in
  state <- ask "getBaudRate" "currentBaudRate" state ;;
  state <- ask "getCurrentSketchPath" "currentSketchPath" state ;;
  state <- ask "getSelectedBoard" "selectedBoard" state ;;
  state <- ask "getSelectedPort" "selectedPort" state ;;
  ret (VObj state).

(** *** [execute] *)

(** The [switch] of [execute]: the handler of each [case]; [None] is the
    [default] branch. *)
Definition dispatch (name : string) : option (value -> M value) :=
  Js.lookup_by name
    [ ("compile_sketch", executeCompile);
      ("upload_sketch", executeUpload);
      ("list_boards", fun _ => executeListBoards);
      ("list_ports", fun _ => executeListPorts);
      ("connect_serial", executeConnectSerial);
      ("disconnect_serial", fun _ => executeDisconnectSerial);
      ("send_serial", executeSendSerial);
      ("read_serial", executeReadSerial);
      ("auto_detect_baud", executeAutoDetectBaud);
      ("get_baud_rate", fun _ => executeGetBaudRate);
      ("set_baud_rate", executeSetBaudRate);
      ("get_available_baud_rates", fun _ => executeGetAvailableBaudRates);
      ("get_editor_code", fun _ => executeGetEditorCode);
      ("set_editor_code", executeSetEditorCode);
      ("edit_code", executeEditCode);
      ("search_code", executeSearchCode);
      ("replace_in_code", executeReplaceInCode);
      ("get_current_sketch_path", fun _ => executeGetCurrentSketchPath);
      ("save_sketch", executeSaveSketch);
      ("analyze_error", executeAnalyzeError);
      ("search_memory", executeSearchMemory);
      ("record_fix", executeRecordFix);
      ("get_current_state", fun _ => executeGetCurrentState) ].

(** [await this.aiMemory.recordExecution(toolCall.name, toolCall.arguments,
    result.success !== false, result.error)] *)
Definition record_execution (toolCall : ToolCall) (result : value) : M unit :=
  memory <- gets aiMemory ;;
  match memory with
  | Some m =>
      ok <- get result "success" ;;
      err <- get result "error" ;;
      now <- gets clock ;;
      modify (fun w =>
        set_aiMemory w
          (Some (SimpleMemory.recordExecution (tc_name toolCall)
                   (tc_arguments toolCall) (Js.not_false ok)
                   (Js.default VNull err) now m)))
  | None => ret tt
  end.

Definition failure (toolCall : ToolCall) (msg : string) : ToolResult :=
  mkToolResult false (tc_name toolCall) None (Some msg) None None.

Definition execute (toolCall : ToolCall) : M ToolResult :=
  validation <- lift (validateToolCall toolCall) ;;
  match validation with
  | Invalid msg => ret (failure toolCall msg)
  | Valid =>
      try_catch
        match dispatch (tc_name toolCall) with
        | Some handler =>
            result <- handler (tc_arguments toolCall) ;;
            record_execution toolCall result ;;;
            ret (mkToolResult true (tc_name toolCall) (Some result) None None
                              None)
        | None =>
            ret (failure toolCall ("Unknown tool: " ++ tc_name toolCall)%string)
        end
        (fun error =>
           ret (mkToolResult false (tc_name toolCall) None
                  (Some (message error)) (Some (err_prop error "stack")) None))
  end.

End ToolExecutor.

(** ** The agent ([agent.js]) *)

Module AIAgent.

(** [getSystemPrompt] of [systemPrompt.js] *)
Definition getSystemPrompt (mode : string) : Prompt :=
  if String.eqb mode "ask" then ASK_PROMPT
  else if String.eqb mode "debug" then DEBUG_PROMPT
  else SYSTEM_PROMPT.

Definition _getToolsForMode (mode : string) : list ToolSchema.ToolDefinition :=
  if String.eqb mode "ask" then []
  else if String.eqb mode "debug" then ToolSchema.getDebugTools
  else ToolSchema.getAllTools.

(** What [processQuery] returns. *)
Record QueryResult := mkQueryResult {
  response : value;
  toolResults : list ToolResult;
  q_usage : value;
  q_model : value;
  warning : option string }.

(** [await this.currentProvider.chat(messages, chatOptions)] *)
Definition chat (messages : list Message)
    (tools : list ToolSchema.ToolDefinition) : M Response :=
  fun env w =>
    let names := map ToolSchema.name tools in
    let (o, dt) := provider env (trace w) messages names in
    (o, set_trace w (trace w ++ [Chatted messages names]) (clock w + dt)).

Definition no_provider : JsError :=
  mkError "No provider selected. Please set a provider first." [].

(** The bracketed prefix that carries the IDE context. *)
Definition userContent (userQuery : string) (context : value) : M string :=
  hasFileOpen <- get context "hasFileOpen" ;;
  currentSketchPath <- get context "currentSketchPath" ;;
  selectedBoard <- get context "selectedBoard" ;;
  selectedPort <- get context "selectedPort" ;;
  sketch <- text_of currentSketchPath ;;
  board <- text_of selectedBoard ;;
  port <- text_of selectedPort ;;
  let ctx :=
    (if negb (Js.truthy hasFileOpen) then ["NO_FILE_OPEN"]
     else if Js.truthy currentSketchPath then [("sketch=" ++ sketch)%string]
     else []) ++
    (if Js.truthy selectedBoard then [("board=" ++ board)%string] else []) ++
    (if Js.truthy selectedPort then [("port=" ++ port)%string] else []) in
  ret match ctx with
      | [] => userQuery
      | _ => ("[IDE: " ++ String.concat ", " ctx ++ "]" ++ Text.newline ++
              Text.newline ++ userQuery)%string
      end.

Definition push_history (m : Message) : M unit :=
  modify (fun w => set_conversationHistory w (conversationHistory w ++ [m])).

(** The answer of a round that proposes no tool call. *)
Definition finish (r : Response) (toolResults : list ToolResult)
    : M QueryResult :=
  (if Js.truthy (content r)
   then push_history (AssistantMessage (content r) [])
   else ret tt) ;;;
  ret (mkQueryResult (content r) toolResults (usage r) (model r) None).

(** An entry of [assistantMsg.tool_calls]: the arguments are kept when
    they are a string, and are [JSON.stringify(tc.arguments || {})]
    otherwise, carried as the value that text renders. *)
Definition wire_call (tc : ToolCall) : ToolCall :=
  mkToolCall (tc_id tc) (tc_name tc)
    match tc_arguments tc with
    | VStr s => VStr s
    | a => Js.or_else a (VObj [])
    end.

Definition with_executionTime (r : ToolResult) (t : Z) : ToolResult :=
  mkToolResult (success r) (tool r) (result r) (error r) (stack r) (Some t).

(** [for (const toolCall of response.toolCalls) { ... }] *)
Fixpoint run_tool_calls (calls : list ToolCall) (messages : list Message)
    (toolResults : list ToolResult) : M (list Message * list ToolResult) :=
  match calls with
  | [] => ret (messages, toolResults)
  | toolCall :: rest =>
      startTime <- gets clock ;;
      result <- ToolExecutor.execute toolCall ;;
      now <- gets clock ;;
      let result := with_executionTime result (now - startTime) in
      run_tool_calls rest
        (messages ++ [ToolMessage (tc_id toolCall) (tc_name toolCall) result])
        (toolResults ++ [result])
  end.

Definition limit_reached (toolResults : list ToolResult) : QueryResult :=
  mkQueryResult (VStr "Maximum iterations reached. Please refine your query.")
    toolResults VUndefined VUndefined (Some "max_iterations_reached").

(** One pass through the body of the [while] loop: either the turn is
    over, or the loop goes on with more messages and results. *)
Inductive Step :=
| Done (r : QueryResult)
| Again (messages : list Message) (toolResults : list ToolResult).

Definition round (tools : list ToolSchema.ToolDefinition)
    (messages : list Message) (toolResults : list ToolResult) : M Step :=
  r <- chat messages tools ;;
  match toolCalls r with
  | [] => q <- finish r toolResults ;; ret (Done q)
  | calls =>
      let assistantMsg :=
        AssistantMessage (Js.or_else (content r) VNull) (map wire_call calls) in
      s <- run_tool_calls calls (messages ++ [assistantMsg]) toolResults ;;
      ret (Again (fst s) (snd s))
  end.


(** [while (iteration < maxIterations) { ...; iteration++ }] and the
    [return] after it. *)
Equations tool_loop (tools : list ToolSchema.ToolDefinition) (maxIter : Z)
    (iteration : Z) (messages : list Message) (toolResults : list ToolResult)
    (env : Env) (w : World) : Outcome QueryResult * World
    by wf (Z.to_nat (maxIter - iteration)) lt :=
  tool_loop tools maxIter iteration messages toolResults env w
    with Z_lt_dec iteration maxIter := {
    | left _ with round tools messages toolResults env w := {
        | (Threw e, w') => (Threw e, w')
        | (Returned (Done r), w') => (Returned r, w')
        | (Returned (Again messages' toolResults'), w') =>
            tool_loop tools maxIter (iteration + 1) messages' toolResults'
                      env w' }
    | right _ => (Returned (limit_reached toolResults), w) }.
Next Obligation. lia. Qed.

Definition processQuery (userQuery : string) (context0 : value)
    (mode : string) : M QueryResult :=
  selected <- gets currentProvider ;;
  if negb selected then throw no_provider
  else
    let context := Js.default (VObj []) context0 in
    let toolsForMode := _getToolsForMode mode in
    text <- userContent userQuery context ;;
    push_history (UserMessage text) ;;;
    history <- gets conversationHistory ;;
    let messages := SystemMessage (getSystemPrompt mode) :: history in
    match toolsForMode with
    | [] =>
        r <- chat messages toolsForMode ;;
        (if Js.truthy (content r)
         then push_history (AssistantMessage (content r) [])
         else ret tt) ;;;
        ret (mkQueryResult (content r) [] (usage r) (model r) None)
    | _ =>
        maxIter <- gets maxIterations ;;
        tool_loop toolsForMode maxIter 0 messages []
    end.

(** What [analyzeError] returns. *)
Inductive Analysis :=
| FromMemory (error : SimpleMemory.ErrorEntry) (fixes : list SimpleMemory.Fix)
             (confidence : Q)
| MemoryOnly (matches : list (SimpleMemory.ErrorEntry *
                              list SimpleMemory.Fix * Q))
             (message : string)
| FromAI (analysis : value) (memoryResults : SimpleMemory.SearchResult)
         (toolResults : list ToolResult).

Definition matches_of (r : SimpleMemory.SearchResult)
    : list (SimpleMemory.ErrorEntry * list SimpleMemory.Fix * Q) :=
  match r with
  | SimpleMemory.Similar matches _ => matches
  | SimpleMemory.Exact _ _ _ => []
  end.

Definition analyzeError (errorMessage : value) (context0 : value) : M Analysis :=
  memory <- gets aiMemory ;;
  match memory, errorMessage with
  | None, _ =>
      throw (TypeError "Cannot read properties of null (reading 'searchSimilarErrors')")
  | Some m, VStr text =>
      let (memoryResults, m') := SimpleMemory.searchSimilarErrors text 5 m in
      modify (fun w => set_aiMemory w (Some m')) ;;;
      match memoryResults with
      | SimpleMemory.Exact match_ (f :: fixes) _ =>
          ret (FromMemory match_ (f :: fixes) 1%Q)
      | _ =>
          selected <- gets currentProvider ;;
          if negb selected then
            ret (MemoryOnly (matches_of memoryResults)
                   "No AI provider configured. Showing memory results only.")
          else
            let context := Js.default (VObj []) context0 in
            json <- asks (fun env _ => json_text env context) ;;
            let query :=
              ("Analyze this Arduino error and suggest fixes: " ++ text ++
               Text.newline ++ Text.newline ++ "Context: " ++ json)%string in
            match matches_of memoryResults with
            | _ :: _ => throw (TypeError "Assignment to constant variable.")
            | [] =>
                r <- processQuery query context "agent" ;;
                ret (FromAI (response r) memoryResults (toolResults r))
            end
      end
  | Some m, _ =>
      modify (fun w => set_aiMemory w (Some (SimpleMemory.ensureLoaded m))) ;;;
      throw (TypeError "text.toLowerCase is not a function")
  end.



Definition clearHistory : M unit :=
  modify (fun w => set_conversationHistory w []).

Definition getHistory : M (list Message) := gets conversationHistory.

End AIAgent.

(** ** Fixtures: concrete worlds *)

Module Fixtures.

(** Every collaborator answers [undefined] after one millisecond; the
    provider answers with a text and no tool call. *)
Definition quiet : Env :=
  mkEnv (fun _ _ => mkReply (Returned VUndefined) 1)
        (fun _ _ _ => VUndefined)
        (fun _ _ _ => (Returned (mkResponse (VStr "ok") [] VUndefined VUndefined), 1))
        (fun _ _ => Returned VUndefined)
        (fun _ => 0)
        (fun _ => "{}")
        (fun _ => "").

Definition all_callbacks : list string :=
  ["getBaudRate"; "setBaudRate"; "getEditorCode"; "setEditorCode";
   "getCurrentSketchPath"; "saveSketch"; "getSelectedBoard";
   "getSelectedPort"].

(** The application right after start-up ([main.js]): all collaborators
    present, the UI callbacks set, an empty memory file. *)
Definition started (selected : bool) (maxIter : Z) : World :=
  mkWorld [] 0 true true true (Some (SimpleMemory.create None true)) [] 0
          (Some all_callbacks) selected maxIter [].

Definition upload_call : ToolCall := mkToolCall "call-1" "upload_sketch" (VObj []).


(** A provider that answers every request with the same three tool calls. *)
Definition three_calls : list ToolCall :=
  [ mkToolCall "call-a" "list_boards" (VObj []);
    mkToolCall "call-b" "list_ports" (VObj []);
    mkToolCall "call-c" "get_available_baud_rates" (VObj []) ].

Definition eager : Env :=
  mkEnv (collaborator quiet) (property quiet)
        (fun _ _ _ => (Returned (mkResponse VNull three_calls VUndefined
                                            VUndefined), 5))
        (builtin quiet) (to_integer_or_infinity quiet) (json_text quiet)
        (real_text quiet).


(** A JSON store in which one error was recorded. *)
Definition one_error : SimpleMemory.t :=
  snd (SimpleMemory.recordError "avrdude: stk500_getsync(): not in sync"
         VNull VNull 1 (SimpleMemory.create None true)).

End Fixtures.

(** ** Vocabulary of the properties *)

Definition is_hex (c : ascii) : bool :=
  let n := Text.code c in
  ((48 <=? n) && (n <=? 57)) || ((97 <=? n) && (n <=? 102)).

Definition all_hex (s : string) : bool :=
  forallb is_hex (list_ascii_of_string s).

(** [l'] is [l] with the first entry of signature [sig] counted once more
    and seen at [now], nothing else touched. *)
Definition bumped (sig : string) (now : Z)
    (l l' : list SimpleMemory.ErrorEntry) : Prop :=
  exists before e after,
    l = before ++ e :: after /\
    SimpleMemory.signature e = sig /\
    Forall (fun x => SimpleMemory.signature x <> sig) before /\
    l' = before ++
         SimpleMemory.mkErrorEntry (SimpleMemory.id e) (SimpleMemory.signature e)
           (SimpleMemory.e_message e) (SimpleMemory.type e)
           (SimpleMemory.context e) (SimpleMemory.count e + 1)
           (SimpleMemory.firstSeen e) now :: after.


(** The arguments of a tool call are a key-value mapping. *)
Definition is_object (v : value) : bool :=
  match v with VObj _ => true | _ => false end.

(** The name of a tool call is not in the catalog. *)
Definition unknown_tool (tc : ToolCall) : Prop :=
  ToolSchema.getTool (tc_name tc) = None.

(** The arguments object of a tool call lacks a key that the tool's
    [required] list names. *)
Definition missing_required (tc : ToolCall) : Prop :=
  exists tool params fields param,
    ToolSchema.getTool (tc_name tc) = Some tool /\
    ToolSchema.required tool = Some params /\
    tc_arguments tc = VObj fields /\
    In param params /\
    Js.has_key param fields = false.

(** The UI callbacks that take no argument answer without throwing. *)
Definition ui_getters_answer (e : Env) : Prop :=
  forall t name, exists v,
    outcome (collaborator e t (mkCall UICallbacks name [])) = Returned v.

(** No file is open: [getCurrentSketchPath] answers nothing. *)
Definition no_sketch_open (e : Env) : Prop :=
  forall t, exists v,
    outcome (collaborator e t (mkCall UICallbacks "getCurrentSketchPath" []))
      = Returned v /\
    Js.truthy v = false.

Definition no_sketch_message : string :=
  "No sketch open. Please open a .ino file first (Open Sketch in the sidebar).".

(** The tool calls of a provider response carry objects as arguments. *)
Definition well_formed (calls : list ToolCall) : Prop :=
  Forall (fun tc => is_object (tc_arguments tc) = true) calls.

(** The tool-result messages of the calls, one per call, in their order. *)
Definition tool_messages (calls : list ToolCall) (rs : list ToolResult)
    : list Message :=
  map (fun p => ToolMessage (tc_id (fst p)) (tc_name (fst p)) (snd p))
      (combine calls rs).

Definition tool_call_id_of (m : Message) : option string :=
  match m with
  | ToolMessage id _ _ => Some id
  | _ => None
  end.

(** The executor ran the calls one after the other, in the order of the
    list: each call starts in the world that the one before it left, and its
    result is stamped with the time it took. *)
Inductive executed_in_order (env : Env)
    : list ToolCall -> World -> list ToolResult -> World -> Prop :=
| in_order_nil (w : World) : executed_in_order env [] w [] w
| in_order_cons (tc : ToolCall) (rest : list ToolCall) (w w1 w2 : World)
    (r : ToolResult) (rs : list ToolResult) :
    ToolExecutor.execute tc env w = (Returned r, w1) ->
    executed_in_order env rest w1 rs w2 ->
    executed_in_order env (tc :: rest) w
      (AIAgent.with_executionTime r (clock w1 - clock w) :: rs) w2.




(** The number of provider round trips in a trace. *)
Definition is_chat (ev : Event) : bool :=
  match ev with Chatted _ _ => true | Invoked _ => false end.

Definition chat_rounds (t : list Event) : nat := List.length (filter is_chat t).

(** A computation that adds nothing to the trace but collaborator calls. *)
Definition only_invokes {A} (c : M A) : Prop :=
  forall env w o w', c env w = (o, w') ->
  exists calls, trace w' = trace w ++ map Invoked calls.


(** ** More of the code, and more vocabulary *)

(** What a tool may not touch: the wiring of the executor, the serial
    buffer, and the state of the agent. *)
Definition fixed_part (w : World) :=
  (arduinoService w, serialMonitor w, errorMemory w, serialBuffer w,
   uiCallbacks w, currentProvider w, maxIterations w, conversationHistory w).

(** A computation that leaves all of that as it was, whatever it answers. *)
Definition keeps {A} (c : M A) : Prop :=
  forall env w, fixed_part (snd (c env w)) = fixed_part w.

(** The assistant message that a turn leaves in the conversation: the
    final text of the provider, if it has one; nothing when the turn ran
    into the iteration limit. *)
Definition reply_of (r : AIAgent.QueryResult) : list Message :=
  match AIAgent.warning r with
  | None =>
      if Js.truthy (AIAgent.response r)
      then [AssistantMessage (AIAgent.response r) []]
      else []
  | Some _ => []
  end.

(** An environment in which the serial monitor is connected; the
    collaborators answer as in [Fixtures.quiet]. *)
Definition monitoring : Env :=
  mkEnv (collaborator Fixtures.quiet)
        (fun _ c k =>
           match c with
           | SerialMonitor => if String.eqb k "isConnected" then VBool true
                              else VUndefined
           | _ => VUndefined
           end)
        (provider Fixtures.quiet) (builtin Fixtures.quiet)
        (to_integer_or_infinity Fixtures.quiet) (json_text Fixtures.quiet)
        (real_text Fixtures.quiet).

(** The text is white space only. *)
Definition all_space (s : string) : bool :=
  forallb Text.is_space (list_ascii_of_string s).

(** ** The line arithmetic of [executeEditCode] ([toolExecutor.js])

    What [executeEditCode] does between reading the editor and writing it
    back, for line numbers that are integers: the built-in [edit_code] of
    the handler above, written out. *)

Module EditCode.

(** [code.split('\n')] *)
Fixpoint split (s : string) : list string :=
  match s with
  | EmptyString => [""]
  | String c r =>
      if Ascii.eqb c (ascii_of_nat 10) then "" :: split r
      else
        match split r with
        | [] => [String c ""]
        | l :: ls => String c l :: ls
        end
  end.

(** [lines.join('\n')] *)
Fixpoint join (lines : list string) : string :=
  match lines with
  | [] => ""
  | l :: ls =>
      match ls with
      | [] => l
      | _ => (l ++ Text.newline ++ join ls)%string
      end
  end.

(** [newCode ? newCode.split('\n') : []]: no code, and the empty string,
    give no line. *)
Definition codeLines (newCode : option string) : list string :=
  match newCode with
  | Some (String c r) => split (String c r)
  | _ => []
  end.

(** The result of an edit: [newLines] and [linesAffected]. *)
Definition edit (operation : string) (lines : list string) (startLine : Z)
    (endLine : option Z) (newCode : option string)
    : option (list string * Z) :=
  let start := startLine - 1 in
  let end_ :=
    match endLine with
    | Some e => if e =? 0 then start else e - 1
    | None => start
    end in
  if String.eqb operation "replace" then
    Some (Js.slice_to start lines ++ codeLines newCode ++
          Js.slice_from (end_ + 1) lines, end_ - start + 1)
  else if String.eqb operation "insert" then
    Some (Js.slice_to start lines ++ codeLines newCode ++
          Js.slice_from start lines, end_ - start + 1)
  else if String.eqb operation "delete" then
    Some (Js.slice_to start lines ++ Js.slice_from (end_ + 1) lines,
          end_ - start + 1)
  else None.

(** The text that goes back to the editor: [newLines.join('\n')]; [None]
    for an unknown operation, which writes nothing. *)
Definition newCodeStr (operation : string) (currentCode : string)
    (startLine : Z) (endLine : option Z) (newCode : option string)
    : option string :=
  match edit operation (split currentCode) startLine endLine newCode with
  | Some (newLines, _) => Some (join newLines)
  | None => None
  end.

End EditCode.

(** The text has no line break. *)
Definition one_line (s : string) : bool :=
  negb (existsb (Ascii.eqb (ascii_of_nat 10)) (list_ascii_of_string s)).

(** ** Searching and replacing in the editor ([toolExecutor.js])

    The branches of [executeSearchCode] and [executeReplaceInCode] that do
    not build a [RegExp], written out: a plain search (the built-in
    [search_code] when [isRegex] is not set), and the replacement of the
    first occurrence (the built-in [replace_in_code] when [replaceAll] is
    not set). *)

Module EditorText.

(** [s.indexOf(p)]: [None] is -1. *)
Fixpoint indexOf (s p : string) : option nat :=
  if Text.starts_with p s then Some 0%nat
  else
    match s with
    | EmptyString => None
    | String _ r =>
        match indexOf r p with
        | Some i => Some (S i)
        | None => None
        end
    end.

(** [s.substring(n)] *)
Fixpoint drop (n : nat) (s : string) : string :=
  match n, s with
  | O, _ => s
  | S k, String _ r => drop k r
  | S _, EmptyString => EmptyString
  end.

(** [executeReplaceInCode] without [replaceAll]: [newCode] and [count]. *)
Definition replaceFirst (code searchText replaceText : string) : string * Z :=
  match indexOf code searchText with
  | Some index =>
      ((Text.take index code ++ replaceText ++
        drop (index + String.length searchText) code)%string, 1)
  | None => (code, 0)
  end.

(** A match of [executeSearchCode]: [lineNumber] and [content]. *)
Definition found (searchText : string) (numbered : nat * string) : bool :=
  Text.includes (Text.toLowerCase (snd numbered)) (Text.toLowerCase searchText).

(** [executeSearchCode] without [isRegex]: [matchCount] and [matches]. *)
Definition searchPlain (code searchText : string)
    : Z * list (Z * string) :=
  let lines := EditCode.split code in
  let numbered := combine (seq 1 (List.length lines)) lines in
  let matches :=
    map (fun x : nat * string => (Z.of_nat (fst x), Text.trim (snd x)))
        (filter (found searchText) numbered) in
  (Z.of_nat (List.length matches), Js.slice_to 50 matches).

End EditorText.

(** ** The providers ([providers/*.js]): what does not go over the network *)

Module Providers.

Inductive ProviderClass := OpenAIProvider | GeminiProvider | ClaudeProvider.

Definition DEFAULT_MODEL (c : ProviderClass) : string :=
  match c with
  | OpenAIProvider => "gpt-4o-mini"
  | GeminiProvider => "gemini-1.5-flash"
  | ClaudeProvider => "claude-3-5-sonnet-20241022"
  end.

Definition getAvailableModels (c : ProviderClass) : list string :=
  match c with
  | OpenAIProvider =>
      ["gpt-4o-mini"; "gpt-4o"; "gpt-4-turbo"; "gpt-4"; "gpt-3.5-turbo"]
  | GeminiProvider =>
      ["gemini-1.5-flash"; "gemini-1.5-flash-latest"; "gemini-1.5-pro";
       "gemini-1.5-pro-latest"; "gemini-2.0-flash-exp"]
  | ClaudeProvider =>
      ["claude-3-5-sonnet-20241022"; "claude-3-opus-20240229";
       "claude-3-sonnet-20240229"; "claude-3-haiku-20240307";
       "claude-3-5-haiku-20241022"]
  end.

(** [validateApiKey] of a key that is a string: the check of
    [BaseProvider], [apiKey && apiKey.length > 0], and the one the class
    adds. *)
Definition validateApiKey (c : ProviderClass) (apiKey : string) : bool :=
  negb (String.eqb apiKey "") &&
  match c with
  | OpenAIProvider => Text.starts_with "sk-" apiKey
  | ClaudeProvider => Text.starts_with "sk-ant-" apiKey
  | GeminiProvider => (30 <=? String.length apiKey)%nat
  end.

(** A provider object: its class, [this.apiKey] and [this.model]. *)
Record t := mk {
  class : ProviderClass;
  apiKey : string;
  model : value }.

Definition getName (p : t) : string :=
  match class p with
  | OpenAIProvider => "openai"
  | GeminiProvider => "gemini"
  | ClaudeProvider => "claude"
  end.

Section Sdk.
(** What the constructor of the SDK client throws for a key, if it
    throws. *)
Variable sdk : ProviderClass -> string -> option JsError.

(** [new ProviderClass(apiKey, model)]: the model is [model ||
    DEFAULT_MODEL]. *)
Definition new (c : ProviderClass) (apiKey : string) (model : value)
    : Outcome t :=
  match sdk c apiKey with
  | Some e => Threw e
  | None => Returned (mk c apiKey (Js.or_else model (VStr (DEFAULT_MODEL c))))
  end.
End Sdk.

End Providers.

(** ** The agent's providers ([agent.js]) *)

Module AgentProviders.

(** [this.providers], a [Map] from names to classes in insertion order,
    and [this.currentProvider]. *)
Record t := mk {
  providers : list (string * Providers.ProviderClass);
  currentProvider : option Providers.t }.

(** [new AIAgent(...)] *)
Definition create : t := mk [] None.

(** [map.set(k, v)]: a key that is there keeps its place. *)
Fixpoint map_set {V} (k : string) (v : V) (m : list (string * V))
    : list (string * V) :=
  match m with
  | [] => [(k, v)]
  | (k', v') :: r =>
      if String.eqb k k' then (k, v) :: r else (k', v') :: map_set k v r
  end.

Definition registerProvider (name : string) (provider : Providers.ProviderClass)
    (a : t) : t :=
  mk (map_set name provider (providers a)) (currentProvider a).

Definition initializeProviders (a : t) : t :=
  registerProvider "claude" Providers.ClaudeProvider
    (registerProvider "gemini" Providers.GeminiProvider
       (registerProvider "openai" Providers.OpenAIProvider a)).

Definition getAvailableProviders (a : t) : list string :=
  map fst (providers a).

(** [AIAgent.getProviderFromModel] *)
Definition getProviderFromModel (modelId : value) : option string :=
  match modelId with
  | VStr s =>
      if String.eqb s "" then None
      else
        let id := Text.toLowerCase s in
        if Text.starts_with "claude-" id then Some "claude"
        else if Text.starts_with "gpt-" id then Some "openai"
        else if Text.starts_with "gemini-" id then Some "gemini"
        else None
  | _ => None
  end.

Definition displayNames : list (string * string) :=
  [ ("claude-3-5-sonnet-20241022", "Claude 3.5 Sonnet");
    ("claude-3-opus-20240229", "Claude 3 Opus");
    ("claude-3-sonnet-20240229", "Claude 3 Sonnet");
    ("claude-3-haiku-20240307", "Claude 3 Haiku");
    ("claude-3-5-haiku-20241022", "Claude 3.5 Haiku");
    ("gpt-4o-mini", "GPT-4o Mini");
    ("gpt-4o", "GPT-4o");
    ("gpt-4-turbo", "GPT-4 Turbo");
    ("gpt-4", "GPT-4");
    ("gpt-3.5-turbo", "GPT-3.5 Turbo");
    ("gemini-1.5-flash", "Gemini 1.5 Flash");
    ("gemini-1.5-flash-latest", "Gemini 1.5 Flash (Latest)");
    ("gemini-1.5-pro", "Gemini 1.5 Pro");
    ("gemini-1.5-pro-latest", "Gemini 1.5 Pro (Latest)");
    ("gemini-2.0-flash-exp", "Gemini 2.0 Flash (Experimental)") ].

(** An entry of the unified list. *)
Record ModelEntry := mkModelEntry {
  id : string;
  displayName : string;
  provider : string }.

Section Sdk.
Variable sdk : Providers.ProviderClass -> string -> option JsError.

Definition setProvider (providerName : string) (apiKey : string)
    (model : value) (a : t) : Outcome Providers.t * t :=
  match Js.lookup_by providerName (providers a) with
  | None =>
      (Threw (mkError ("Provider " ++ providerName ++ " not registered") []), a)
  | Some ProviderClass =>
      match Providers.new sdk ProviderClass apiKey model with
      | Threw e => (Threw e, a)
      | Returned provider =>
          if Providers.validateApiKey ProviderClass apiKey
          then (Returned provider, mk (providers a) (Some provider))
          else (Threw (mkError ("Invalid API key for provider " ++
                                 providerName) []), a)
      end
  end.

(** [getAvailableModels(providerName = null)]; [None] is [null]. *)
Definition getAvailableModels (providerName : option string) (a : t)
    : Outcome (list string) :=
  let current :=
    match currentProvider a with
    | None => Returned []
    | Some p => Returned (Providers.getAvailableModels (Providers.class p))
    end in
  match providerName with
  | Some name =>
      if String.eqb name "" then current
      else
        match Js.lookup_by name (providers a) with
        | Some ProviderClass =>
            match Providers.new sdk ProviderClass "temp-key" VUndefined with
            | Threw e => Threw e
            | Returned tempInstance =>
                Returned (Providers.getAvailableModels
                            (Providers.class tempInstance))
            end
        | None => current
        end
  | None => current
  end.

(** The two nested [for] loops of [getUnifiedModelList]. *)
Fixpoint unified (entries : list (string * Providers.ProviderClass))
    : Outcome (list ModelEntry) :=
  match entries with
  | [] => Returned []
  | (providerName, ProviderClass) :: rest =>
      match Providers.new sdk ProviderClass "temp-key" VUndefined with
      | Threw e => Threw e
      | Returned tempInstance =>
          match unified rest with
          | Threw e => Threw e
          | Returned list =>
              Returned
                (map (fun modelId =>
                        mkModelEntry modelId
                          match Js.lookup_by modelId displayNames with
                          | Some name =>
                              if String.eqb name "" then modelId else name
                          | None => modelId
                          end
                          providerName)
                     (Providers.getAvailableModels
                        (Providers.class tempInstance)) ++ list)
          end
      end
  end.

Definition getUnifiedModelList (a : t) : Outcome (list ModelEntry) :=
  unified (providers a).

End Sdk.

End AgentProviders.

(** ** The key store ([apiKeyManager.js])

    The [electron-store] file is the object at its key [keys], from
    provider names to API keys.  A provider name is one segment of a store
    path: it has no dot. *)

Module APIKeyManager.

(** [keys]: the stored object; [write_error]: what writing the store file
    throws, if it throws. *)
Record t := mk {
  keys : list (string * string);
  write_error : option string }.

Fixpoint remove (k : string) (m : list (string * string))
    : list (string * string) :=
  match m with
  | [] => []
  | (k', v) :: r => if String.eqb k k' then remove k r else (k', v) :: remove k r
  end.

(** [s.slice(-4)] *)
Definition last4 (s : string) : string :=
  EditorText.drop (String.length s - 4) s.

Definition setAPIKey (provider : string) (apiKey : value) (s : t)
    : Outcome bool * t :=
  match apiKey with
  | VStr key =>
      let trimmedKey := Text.trim key in
      if String.eqb trimmedKey "" then
        (Threw (mkError "API key cannot be empty" []), s)
      else if (String.length trimmedKey <? 10)%nat then
        (Threw (mkError "API key appears to be invalid (too short)" []), s)
      else
        match write_error s with
        | Some msg =>
            (Threw (mkError ("Failed to save API key: " ++ msg) []), s)
        | None =>
            (Returned true,
             mk (AgentProviders.map_set provider trimmedKey (keys s)) (write_error s))
        end
  | _ => (Threw (mkError "API key cannot be empty" []), s)
  end.

(** [getAPIKey]: [None] is [null]. *)
Definition getAPIKey (provider : string) (s : t) : option string :=
  Js.lookup_by provider (keys s).

Definition hasAPIKey (provider : string) (s : t) : bool :=
  match getAPIKey provider s with Some _ => true | None => false end.

Definition removeAPIKey (provider : string) (s : t) : Outcome bool * t :=
  match write_error s with
  | Some msg => (Threw (mkError msg []), s)
  | None => (Returned true, mk (remove provider (keys s)) (write_error s))
  end.

Definition getAllProviders (s : t) : list string := map fst (keys s).

Definition clearAll (s : t) : Outcome bool * t :=
  match write_error s with
  | Some msg => (Threw (mkError msg []), s)
  | None => (Returned true, mk [] (write_error s))
  end.

(** [getProviderConfig]: [hasKey] and the masked [key]. *)
Definition getProviderConfig (provider : string) (s : t)
    : bool * option string :=
  (hasAPIKey provider s,
   match getAPIKey provider s with
   | Some key => Some ("***" ++ last4 key)%string
   | None => None
   end).

End APIKeyManager.

(** ** The IPC handlers of the AI features ([main.js]) *)

Module Ipc.

(** What a handler answers: [{success: true, ...}] with its data, or
    [{success: false, error, ...}] with the further fields it sets. *)
Inductive Answer (A : Type) : Type :=
| Success (data : A)
| Failure (error : string) (more : list (string * value)).
Arguments Success {A} data.
Arguments Failure {A} error more.

(** [ai:execute-tool]: the tool call is built from the name and the
    arguments that the renderer sends; it has no [id].  The agent's
    constructor sets [toolExecutor], so the guard on it lets every call
    through. *)
Definition execute_tool (toolName : string) (args : value)
    : M (Answer ToolResult) :=
  try_catch
    (result <- ToolExecutor.execute (mkToolCall "" toolName args) ;;
     ret (Success result))
    (fun error => ret (Failure (message error) [])).

(** [{...context}]: the own enumerable properties of the context: the
    fields of an object, the elements of an array and the characters of a
    string under their indices, and none of anything else. *)
Definition indexed {A} (f : A -> value) (l : list A) : list (string * value) :=
  map (fun p => (NilZero.string_of_uint (Nat.to_uint (fst p)), f (snd p)))
      (combine (seq 0 (List.length l)) l).

Definition spread (context : value) : list (string * value) :=
  match context with
  | VObj fields => fields
  | VArr items => indexed (fun item => item) items
  | VStr s => indexed (fun c => VStr (String c "")) (list_ascii_of_string s)
  | _ => []
  end.

(** [{...context, currentBaudRate: ..., ..., hasFileOpen:
    context.hasFileOpen || false}]: a key that the context has keeps its
    place.  Reading [hasFileOpen] is the one step that can throw, and
    nothing before it has an effect. *)
Definition enrichedContext (context uiState : value) : M value :=
  hasFileOpen <- get context "hasFileOpen" ;;
  let put (k : string) (v : value) (o : list (string * value)) :=
    AgentProviders.map_set k v o in
  ret (VObj
         (put "hasFileOpen" (Js.or_else hasFileOpen (VBool false))
            (put "selectedPort" (Js.read uiState "selectedPort")
               (put "selectedBoard" (Js.read uiState "selectedBoard")
                  (put "currentSketchPath" (Js.read uiState "currentSketchPath")
                     (put "currentBaudRate" (Js.read uiState "currentBaudRate")
                        (spread context))))))).

Definition effectiveMode (mode : string) : string :=
  if String.eqb mode "ask" || String.eqb mode "debug" then mode else "agent".

(** [ai:process-query] *)
Definition process_query (uiState : value) (query : string) (context : value)
    (mode : string) : M (Answer AIAgent.QueryResult) :=
  try_catch
    (enriched <- enrichedContext context uiState ;;
     result <- AIAgent.processQuery query enriched (effectiveMode mode) ;;
     ret (Success result))
    (fun error => ret (Failure (message error) [])).

(** The state behind [ai:set-provider] and [ai:set-model]: the agent's
    providers and the key store. *)
Record Settings := mkSettings {
  agent : AgentProviders.t;
  apiKeyManager : APIKeyManager.t }.

Section Sdk.
Variable sdk : Providers.ProviderClass -> string -> option JsError.

(** The [setProvider] call and the answer of [ai:set-provider] and
    [ai:set-model]. *)
Definition select (providerName : string) (key : string) (model shown : value)
    (s : Settings) : Answer (string * value) * Settings :=
  match AgentProviders.setProvider sdk providerName key model (agent s) with
  | (Returned _, a') => (Success (providerName, shown), mkSettings a' (apiKeyManager s))
  | (Threw e, a') => (Failure (message e) [], mkSettings a' (apiKeyManager s))
  end.

(** [ai:set-provider] *)
Definition set_provider (providerName : string) (apiKey model : value)
    (s : Settings) : Answer (string * value) * Settings :=
  let given :=
    match apiKey with
    | VStr k => negb (String.eqb k "") && negb (String.eqb (Text.trim k) "")
    | _ => false
    end in
  match (if Js.truthy apiKey
         then match apiKey with
              | VStr _ => None
              | _ => Some (TypeError "apiKey.trim is not a function")
              end
         else None) with
  | Some e => (Failure (message e) [], s)
  | None =>
      let saved :=
        if given then APIKeyManager.setAPIKey providerName apiKey (apiKeyManager s)
        else (Returned true, apiKeyManager s) in
      match saved with
      | (Threw keyError, _) =>
          (Failure ("Failed to save API key: " ++ message keyError) [], s)
      | (Returned _, store) =>
          let s1 := mkSettings (agent s) store in
          let key :=
            if Js.truthy apiKey then apiKey
            else match APIKeyManager.getAPIKey providerName store with
                 | Some k => VStr k
                 | None => VNull
                 end in
          match key with
          | VStr k =>
              if String.eqb k "" || String.eqb (Text.trim k) "" then
                (Failure "API key not found. Please provide an API key." [], s1)
              else select providerName k model (Js.or_else model (VStr "default")) s1
          | _ =>
              (Failure "API key not found. Please provide an API key." [], s1)
          end
      end
  end.

(** [ai:set-model] *)
Definition set_model (modelId : value) (s : Settings)
    : Answer (string * value) * Settings :=
  match AgentProviders.getProviderFromModel modelId with
  | None => (Failure "Unknown model" [], s)
  | Some providerName =>
      match APIKeyManager.getAPIKey providerName (apiKeyManager s) with
      | Some key =>
          if String.eqb key "" || String.eqb (Text.trim key) "" then
            (Failure "API key required"
               [("needsKey", VBool true); ("provider", VStr providerName)], s)
          else select providerName key modelId modelId s
      | None =>
          (Failure "API key required"
             [("needsKey", VBool true); ("provider", VStr providerName)], s)
      end
  end.

End Sdk.

End Ipc.

(** ** The Claude adapter ([claudeProvider.js]): the request it builds *)

Module ClaudeProvider.

(** A content block of the Messages API. *)
Inductive Block :=
| TextBlock (text : value)
| ToolUse (id : string) (name : value) (input : value)
| ToolResultBlock (tool_use_id : string) (content : ToolResult).

Inductive Content :=
| Plain (text : value)
| Blocks (blocks : list Block).

Inductive Role := user | assistant.

Record ConversationMessage := mkMessage {
  role : Role;
  content : Content }.

Section Json.
(** The [input] of a tool call of an assistant message: [JSON.parse] of
    its arguments text, and [{}] when that fails. *)
Variable input_of : value -> value.

(** [tc.function?.name || tc.name] *)
Definition name_of (tc : ToolCall) : value :=
  if String.eqb (tc_name tc) "" then VUndefined else VStr (tc_name tc).

(** One pass of the [for] loop of [chat] over the messages: what it adds
    to [systemMessage] and to [conversationMessages]. *)
Definition convert (msg : Message) : list Prompt * list ConversationMessage :=
  match msg with
  | SystemMessage prompt => ([prompt], [])
  | ToolMessage tool_call_id _ result =>
      ([], [mkMessage user (Blocks [ToolResultBlock tool_call_id result])])
  | AssistantMessage text tool_calls =>
      ([], [mkMessage assistant
              match tool_calls with
              | [] => Plain (Js.or_else text (VStr ""))
              | _ =>
                  Blocks
                    ((if Js.truthy text then [TextBlock text] else []) ++
                     map (fun tc =>
                            ToolUse (tc_id tc) (name_of tc)
                                    (input_of (tc_arguments tc)))
                         tool_calls)
              end])
  | UserMessage text => ([], [mkMessage user (Plain (VStr text))])
  end.

(** [createOptions.messages] *)
Definition conversationMessages (messages : list Message)
    : list ConversationMessage :=
  flat_map (fun msg => snd (convert msg)) messages.

(** The prompts that make up [createOptions.system]. *)
Definition systemMessage (messages : list Message) : list Prompt :=
  flat_map (fun msg => fst (convert msg)) messages.

End Json.

End ClaudeProvider.

(** The tool uses of an assistant turn, by id. *)
Definition tool_use_ids (blocks : list ClaudeProvider.Block) : list string :=
  flat_map (fun b =>
              match b with
              | ClaudeProvider.ToolUse id _ _ => [id]
              | _ => []
              end) blocks.

(** Reading a conversation from the start, with the ids of the tool uses
    that are still to be answered: an assistant turn may use tools only when
    nothing is pending; a tool result answers the first pending tool use;
    anything else comes only when nothing is pending.  [None]: the
    conversation breaks this. *)
Fixpoint pairing (pending : list string)
    (l : list ClaudeProvider.ConversationMessage) : option (list string) :=
  match l with
  | [] => Some pending
  | m :: rest =>
      match ClaudeProvider.content m, ClaudeProvider.role m, pending with
      | ClaudeProvider.Plain _, _, [] => pairing [] rest
      | ClaudeProvider.Blocks blocks, ClaudeProvider.assistant, [] =>
          pairing (tool_use_ids blocks) rest
      | ClaudeProvider.Blocks [ClaudeProvider.ToolResultBlock id _],
        ClaudeProvider.user, p :: ps =>
          if String.eqb id p then pairing ps rest else None
      | _, _, _ => None
      end
  end.

(** Every tool use is answered by the tool result that follows it, one for
    one and in order, and nothing is left pending. *)
Definition paired (l : list ClaudeProvider.ConversationMessage) : bool :=
  match pairing [] l with
  | Some [] => true
  | _ => false
  end.

(** A message of the conversation history proper: a user message, or an
    assistant message without tool calls. *)
Definition plain_message (m : Message) : bool :=
  match m with
  | UserMessage _ | AssistantMessage _ [] => true
  | _ => false
  end.

(** The requests in a stretch of the trace, as the Claude adapter sends
    them, are all paired. *)
Definition requests_paired (input_of : value -> value) (added : list Event)
    : Prop :=
  Forall (fun ev =>
            match ev with
            | Chatted messages _ =>
                paired (ClaudeProvider.conversationMessages input_of messages)
                  = true
            | Invoked _ => True
            end) added.

(** ** Serial data on its way to the buffer

    [executeConnectSerial] registers a listener for the ['data'] events of
    the serial monitor at every call, and no code removes one.  The monitor
    emits one event per chunk that the port reads ([serialMonitor.js]), and
    an [EventEmitter] runs the listeners of an event one after the other:
    each of them is [addToBuffer]. *)

Fixpoint run_listeners (listeners : nat) (data : value) : M unit :=
  match listeners with
  | O => ret tt
  | S n => ToolExecutor.addToBuffer data ;;; run_listeners n data
  end.

(** [this.emit('data', {timestamp, data: text, baudRate})], as far as the
    executor takes part in it. *)
Definition emit_data (timestamp text baudRate : value) : M unit :=
  listeners <- gets dataListeners ;;
  run_listeners listeners
    (VObj [("timestamp", timestamp); ("data", text); ("baudRate", baudRate)]).

(** A computation that leaves the listeners as they were. *)
Definition keeps_listeners {A} (c : M A) : Prop :=
  forall env w, dataListeners (snd (c env w)) = dataListeners w.

(** * Properties *)

#[local] Arguments generateSignature : simpl never.
#[local] Arguments normalize : simpl never.
#[local] Arguments Sha256.sha256_hex : simpl never.

(** ** Signatures *)

Lemma chars_append (a b : string) :
  list_ascii_of_string (a ++ b) =
  list_ascii_of_string a ++ list_ascii_of_string b.
Proof.
  induction a as [|c a IH]; simpl; [reflexivity | now rewrite IH].
Qed.

Lemma chars_take (n : nat) (s : string) :
  list_ascii_of_string (Text.take n s) = firstn n (list_ascii_of_string s).
Proof.
  revert s; induction n as [|n IH]; intros [|c s]; simpl; try reflexivity.
  now rewrite IH.
Qed.

Lemma length_chars (s : string) :
  String.length s = List.length (list_ascii_of_string s).
Proof.
  induction s as [|c s IH]; simpl; [reflexivity | now rewrite IH].
Qed.

Lemma code_chr (z : Z) : 0 <= z < 256 -> Text.code (Text.chr z) = z.
Proof.
  intros H. unfold Text.code, Text.chr.
  rewrite nat_ascii_embedding by lia. lia.
Qed.

Lemma hex_digit_is_hex (d : Z) : 0 <= d < 16 -> is_hex (Sha256.hex_digit d) = true.
Proof.
  intros H. unfold is_hex, Sha256.hex_digit.
  destruct (Z.ltb_spec d 10); rewrite code_chr by lia;
    apply orb_true_iff; [left | right]; apply andb_true_iff; split;
    apply Z.leb_le; lia.
Qed.

Lemma hex_word_chars (x : Z) :
  List.length (list_ascii_of_string (Sha256.hex_word x)) = 8%nat /\
  forallb is_hex (list_ascii_of_string (Sha256.hex_word x)) = true.
Proof.
  unfold Sha256.hex_word. rewrite list_ascii_of_string_of_list_ascii. split.
  - now rewrite length_map, length_rev, length_seq.
  - apply forallb_forall. intros c Hc. apply in_map_iff in Hc.
    destruct Hc as [i [<- _]]. apply hex_digit_is_hex.
    apply Z.mod_pos_bound. lia.
Qed.

Lemma sha256_hex_chars (s : string) :
  List.length (list_ascii_of_string (Sha256.sha256_hex s)) = 64%nat /\
  forallb is_hex (list_ascii_of_string (Sha256.sha256_hex s)) = true.
Proof.
  unfold Sha256.sha256_hex, Sha256.hex.
  repeat rewrite chars_append. repeat rewrite length_app.
  repeat rewrite forallb_app.
  generalize (Sha256.digest (Sha256.bytes_of s)); intros d.
  repeat match goal with
  | |- context [Sha256.hex_word ?x] =>
      let H := fresh in
      destruct (hex_word_chars x) as [H ?]; rewrite H;
      generalize dependent (Sha256.hex_word x); intros
  end.
  split; [reflexivity |].
  repeat (apply andb_true_iff; split); assumption.
Qed.

Lemma signature_shape (text : string) :
  String.length (generateSignature text) = 16%nat /\
  all_hex (generateSignature text) = true.
Proof.
  unfold generateSignature, all_hex.
  rewrite length_chars, chars_take.
  destruct (sha256_hex_chars (normalize text)) as [Hlen Hhex].
  split.
  - rewrite length_firstn, Hlen. reflexivity.
  - apply forallb_forall. intros c Hc.
    rewrite forallb_forall in Hhex. apply Hhex.
    rewrite <- (firstn_skipn 16). apply in_or_app. now left.
Qed.

Lemma signature_of_normal_form (a b : string) :
  normalize a = normalize b -> generateSignature a = generateSignature b.
Proof. unfold generateSignature. now intros ->. Qed.

(** ** The JSON memory store *)

Lemma find_append {A} (f : A -> bool) (l1 l2 : list A) :
  find f (l1 ++ l2) =
  match find f l1 with Some x => Some x | None => find f l2 end.
Proof.
  induction l1 as [|x l1 IH]; simpl; [reflexivity |].
  destruct (f x); [reflexivity | exact IH].
Qed.

Lemma ensureLoaded_loaded (m : SimpleMemory.t) :
  SimpleMemory.loaded (SimpleMemory.ensureLoaded m) = true.
Proof.
  unfold SimpleMemory.ensureLoaded.
  destruct (SimpleMemory.loaded m) eqn:E; [exact E | reflexivity].
Qed.

Lemma ensureLoaded_idem (m : SimpleMemory.t) :
  SimpleMemory.loaded m = true -> SimpleMemory.ensureLoaded m = m.
Proof. unfold SimpleMemory.ensureLoaded. now intros ->. Qed.

Lemma save_memory (m : SimpleMemory.t) :
  SimpleMemory.memory (SimpleMemory.save m) = SimpleMemory.memory m /\
  SimpleMemory.loaded (SimpleMemory.save m) = SimpleMemory.loaded m.
Proof.
  unfold SimpleMemory.save. destruct (SimpleMemory.writable m); auto.
Qed.

Lemma find_split (sig : string) (l : list SimpleMemory.ErrorEntry)
    (e : SimpleMemory.ErrorEntry) :
  find (SimpleMemory.has_signature sig) l = Some e ->
  exists before after,
    l = before ++ e :: after /\
    SimpleMemory.signature e = sig /\
    Forall (fun x => SimpleMemory.signature x <> sig) before.
Proof.
  induction l as [|x l IH]; simpl; [discriminate |].
  destruct (SimpleMemory.has_signature sig x) eqn:Hx.
  - intros [= ->]. exists [], l. repeat split; [| constructor].
    now apply String.eqb_eq.
  - intros H. destruct (IH H) as (before & after & -> & Hs & Hb).
    exists (x :: before), after. repeat split; [assumption |].
    constructor; [| assumption]. now apply String.eqb_neq.
Qed.

Lemma bump_bumped (sig : string) (now : Z) (l : list SimpleMemory.ErrorEntry)
    (e : SimpleMemory.ErrorEntry) :
  find (SimpleMemory.has_signature sig) l = Some e ->
  bumped sig now l (SimpleMemory.bump sig now l).
Proof.
  intros H. destruct (find_split _ _ _ H) as (before & after & -> & Hs & Hb).
  exists before, e, after. repeat split; try assumption.
  clear H. induction Hb as [|x before Hx Hb IH]; simpl.
  - unfold SimpleMemory.has_signature. rewrite Hs, String.eqb_refl. reflexivity.
  - unfold SimpleMemory.has_signature at 1.
    apply String.eqb_neq in Hx. rewrite Hx. now rewrite IH.
Qed.

Lemma bumped_length sig now l l' :
  bumped sig now l l' -> List.length l' = List.length l.
Proof.
  intros (before & e & after & -> & _ & _ & ->).
  rewrite !length_app. reflexivity.
Qed.

(** After [recordError], the store is loaded and holds the signature. *)
Lemma recordError_records (E : string) (ty c : value) (t : Z)
    (m0 : SimpleMemory.t) :
  let m1 := snd (SimpleMemory.recordError E ty c t m0) in
  fst (SimpleMemory.recordError E ty c t m0) = generateSignature E /\
  SimpleMemory.loaded m1 = true /\
  exists e,
    find (SimpleMemory.has_signature (generateSignature E))
         (SimpleMemory.errors (SimpleMemory.memory m1)) = Some e.
Proof.
  unfold SimpleMemory.recordError. cbv zeta. cbn [fst snd].
  generalize (generateSignature E) as sig; intro sig.
  pose proof (ensureLoaded_loaded m0) as Hl0.
  generalize dependent (SimpleMemory.ensureLoaded m0); intros m Hl0.
  match goal with
  | |- context [SimpleMemory.save ?x] => destruct (save_memory x) as [Hm Hl]
  end.
  split; [reflexivity |]. split.
  - rewrite Hl. exact Hl0.
  - rewrite Hm. cbn [SimpleMemory.with_memory SimpleMemory.memory
                     SimpleMemory.errors].
    destruct (find (SimpleMemory.has_signature sig)
                   (SimpleMemory.errors (SimpleMemory.memory m))) as [e|] eqn:F.
    + destruct (bump_bumped _ t _ _ F) as (before & e0 & after & E1 & Hs & Hb & ->).
      eexists. rewrite find_append.
      replace (find (SimpleMemory.has_signature sig) before)
        with (@None SimpleMemory.ErrorEntry).
      * cbn [find]. unfold SimpleMemory.has_signature at 1.
        cbn [SimpleMemory.signature].
        rewrite Hs, String.eqb_refl. reflexivity.
      * symmetry. clear -Hb.
        induction Hb as [|x l Hx _ IH]; cbn [find]; [reflexivity |].
        unfold SimpleMemory.has_signature at 1.
        apply String.eqb_neq in Hx. now rewrite Hx.
    + eexists. rewrite find_append, F. cbn [find].
      unfold SimpleMemory.has_signature at 1. cbn [SimpleMemory.signature].
      rewrite String.eqb_refl. reflexivity.
Qed.

(** A second observation of a signature that the loaded store holds. *)
Lemma recordError_existing (E : string) (ty c : value) (t : Z)
    (m : SimpleMemory.t) (e : SimpleMemory.ErrorEntry) :
  SimpleMemory.loaded m = true ->
  find (SimpleMemory.has_signature (generateSignature E))
       (SimpleMemory.errors (SimpleMemory.memory m)) = Some e ->
  fst (SimpleMemory.recordError E ty c t m) = generateSignature E /\
  SimpleMemory.errors (SimpleMemory.memory (snd (SimpleMemory.recordError E ty c t m))) =
  SimpleMemory.bump (generateSignature E) t
    (SimpleMemory.errors (SimpleMemory.memory m)).
Proof.
  intros Hl F. unfold SimpleMemory.recordError. cbv zeta. cbn [fst snd].
  rewrite (ensureLoaded_idem m Hl).
  generalize dependent (generateSignature E); intros sig F.
  rewrite F.
  match goal with
  | |- context [SimpleMemory.save ?x] => destruct (save_memory x) as [Hm _]
  end.
  split; [reflexivity |]. rewrite Hm. reflexivity.
Qed.

(** C6. For any error text [E], recording it twice gives the same signature
    both times, a string of 16 hexadecimal digits; the second call adds no
    entry: it increments the occurrence counter of the existing entry and
    sets its [lastSeen] to the time of the call.  A text [E'] that normalizes
    (lower case, white space collapsed, trimmed) to the same string as [E]
    gets the same signature and lands on the same entry. *)
Theorem recordError_twice_same_signature
    (E E' : string) (ty1 c1 ty2 c2 ty3 c3 : value) (t1 t2 : Z)
    (m0 : SimpleMemory.t) :
  normalize E' = normalize E ->
  let '(s1, m1) := SimpleMemory.recordError E ty1 c1 t1 m0 in
  let '(s2, m2) := SimpleMemory.recordError E ty2 c2 t2 m1 in
  let '(s3, m3) := SimpleMemory.recordError E' ty3 c3 t2 m1 in
  s2 = s1 /\
  String.length s1 = 16%nat /\ all_hex s1 = true /\
  bumped s1 t2 (SimpleMemory.errors (SimpleMemory.memory m1))
               (SimpleMemory.errors (SimpleMemory.memory m2)) /\
  List.length (SimpleMemory.errors (SimpleMemory.memory m2)) =
  List.length (SimpleMemory.errors (SimpleMemory.memory m1)) /\
  s3 = s1 /\
  SimpleMemory.errors (SimpleMemory.memory m3) =
  SimpleMemory.errors (SimpleMemory.memory m2).
Proof.
  intros Hn.
  pose proof (recordError_records E ty1 c1 t1 m0) as H1.
  destruct (SimpleMemory.recordError E ty1 c1 t1 m0) as [s1 m1].
  cbn [fst snd] in H1. destruct H1 as (-> & Hl & e & F).
  pose proof (recordError_existing E ty2 c2 t2 m1 e Hl F) as H2.
  destruct (SimpleMemory.recordError E ty2 c2 t2 m1) as [s2 m2].
  cbn [fst snd] in H2. destruct H2 as (-> & H2).
  pose proof (signature_of_normal_form _ _ Hn) as Hs.
  rewrite <- Hs in F.
  pose proof (recordError_existing E' ty3 c3 t2 m1 e Hl F) as H3.
  destruct (SimpleMemory.recordError E' ty3 c3 t2 m1) as [s3 m3].
  cbn [fst snd] in H3. destruct H3 as (-> & H3).
  rewrite Hs in *.
  destruct (signature_shape E) as [Hlen Hhex].
  pose proof (bump_bumped _ t2 _ _ F) as Hb.
  repeat split; try assumption; try reflexivity.
  - rewrite H2. exact Hb.
  - rewrite H2. eapply bumped_length. exact Hb.
  - rewrite H2, H3. reflexivity.
Qed.

Lemma recordError_twice_witness :
  normalize "foo bar" = normalize "  Foo   BAR " /\
  let '(s1, m1) := SimpleMemory.recordError "  Foo   BAR " VNull VNull 1
                     (SimpleMemory.create None true) in
  let '(s2, m2) := SimpleMemory.recordError "  Foo   BAR " VNull VNull 2 m1 in
  let '(s3, m3) := SimpleMemory.recordError "foo bar" VNull VNull 2 m1 in
  s2 = s1 /\
  String.length s1 = 16%nat /\ all_hex s1 = true /\
  bumped s1 2 (SimpleMemory.errors (SimpleMemory.memory m1))
              (SimpleMemory.errors (SimpleMemory.memory m2)) /\
  List.length (SimpleMemory.errors (SimpleMemory.memory m2)) =
  List.length (SimpleMemory.errors (SimpleMemory.memory m1)) /\
  s3 = s1 /\
  SimpleMemory.errors (SimpleMemory.memory m3) =
  SimpleMemory.errors (SimpleMemory.memory m2).
Proof.
  split.
  - vm_compute. reflexivity.
  - apply (recordError_twice_same_signature "  Foo   BAR " "foo bar").
    vm_compute. reflexivity.
Defined.

Example sha256_of_abc :
  Sha256.sha256_hex "abc" =
  "ba7816bf8f01cfea414140de5dae2223b00361a396177a9cb410ff61f20015ad".
Proof. vm_compute. reflexivity. Qed.

Example signature_of_not_in_sync :
  generateSignature "avrdude: stk500_getsync(): not in sync" = "c1606c5def25282c".
Proof. vm_compute. reflexivity. Qed.

(** ** The SQLite memory store *)




(** ** Recording a fix twice *)

Lemma recordFix_appends (sig d c : value) (t : Z) (m : SimpleMemory.t) :
  let '(f, m') := SimpleMemory.recordFix sig d c t m in
  f = SimpleMemory.mkFix t sig d c t /\
  SimpleMemory.loaded m' = true /\
  SimpleMemory.errors (SimpleMemory.memory m') =
    SimpleMemory.errors (SimpleMemory.memory (SimpleMemory.ensureLoaded m)) /\
  SimpleMemory.fixes (SimpleMemory.memory m') =
    SimpleMemory.fixes (SimpleMemory.memory (SimpleMemory.ensureLoaded m)) ++ [f].
Proof.
  unfold SimpleMemory.recordFix. cbv zeta.
  pose proof (ensureLoaded_loaded m) as Hl0.
  generalize dependent (SimpleMemory.ensureLoaded m); intros m1 Hl0.
  match goal with
  | |- context [SimpleMemory.save ?x] => destruct (save_memory x) as [Hm Hl]
  end.
  rewrite Hm, Hl. repeat split. exact Hl0.
Qed.



(** ** Searching *)

Section OrderByFacts.
Context {A : Type} (before : A -> A -> bool).
Hypothesis before_total : forall x y, before x y = false -> before y x = true.






End OrderByFacts.







Lemma search_exact (q : string) (limit : Z) (m : SimpleMemory.t)
    (e : SimpleMemory.ErrorEntry) :
  SimpleMemory.loaded m = true ->
  find (SimpleMemory.has_signature (generateSignature q))
       (SimpleMemory.errors (SimpleMemory.memory m)) = Some e ->
  SimpleMemory.searchSimilarErrors q limit m =
    (SimpleMemory.Exact e
       (SimpleMemory.fixes_for (generateSignature q) (SimpleMemory.memory m))
       1%Q, m).
Proof.
  intros Hl F. unfold SimpleMemory.searchSimilarErrors. cbv zeta.
  rewrite (ensureLoaded_idem m Hl).
  generalize dependent (generateSignature q); intros sig F.
  rewrite F. reflexivity.
Qed.







Example spec_scenario_exact_match :
  let m1 := Fixtures.one_error in
  let sig := generateSignature "avrdude: stk500_getsync(): not in sync" in
  let m2 := snd (SimpleMemory.recordFix (VStr sig) (VStr "lower the upload speed")
                   VNull 2 m1) in
  (exists e, fst (SimpleMemory.searchSimilarErrors
                    "avrdude: stk500_getsync(): not in sync" 10 m1) =
             SimpleMemory.Exact e [] 1%Q) /\
  (exists e f rest,
      fst (SimpleMemory.searchSimilarErrors
             "avrdude: stk500_getsync(): not in sync" 10 m2) =
      SimpleMemory.Exact e (f :: rest) 1%Q /\
      SimpleMemory.description f = VStr "lower the upload speed").
Proof.
  vm_compute. split; [eexists; reflexivity |].
  do 3 eexists. split; reflexivity.
Qed.

(** ** The validation gate *)

Lemma check_required_object (params : list string) (fields : list (string * value)) :
  exists v, check_required params (VObj fields) = Returned v.
Proof.
  induction params as [|p params IH]; simpl; [eexists; reflexivity |].
  destruct (Js.has_key p fields); [exact IH | eexists; reflexivity].
Qed.

Lemma check_required_missing (params : list string)
    (fields : list (string * value)) (param : string) :
  In param params -> Js.has_key param fields = false ->
  exists msg, check_required params (VObj fields) = Returned (Invalid msg).
Proof.
  intros Hin Hk. induction params as [|p params IH]; simpl; [destruct Hin |].
  destruct (Js.has_key p fields) eqn:Hp; [| eexists; reflexivity].
  destruct Hin as [-> | Hin]; [congruence | exact (IH Hin)].
Qed.

Lemma validate_object (tc : ToolCall) :
  is_object (tc_arguments tc) = true ->
  exists v, validateToolCall tc = Returned v.
Proof.
  unfold validateToolCall. intros H.
  destruct (String.eqb (tc_name tc) ""); [eexists; reflexivity |].
  destruct (ToolSchema.getTool (tc_name tc)) as [tool|]; [| eexists; reflexivity].
  destruct (ToolSchema.required tool) as [params|]; [| eexists; reflexivity].
  destruct (tc_arguments tc); try discriminate. apply check_required_object.
Qed.

(** Whatever the handlers and the collaborators do, [execute] returns a
    result for a tool call whose arguments are an object. *)
Lemma execute_resolves (tc : ToolCall) (env : Env) (w : World) :
  is_object (tc_arguments tc) = true ->
  exists r w', ToolExecutor.execute tc env w = (Returned r, w').
Proof.
  intros H. destruct (validate_object tc H) as [v Hv].
  unfold ToolExecutor.execute, bind, lift. rewrite Hv.
  destruct v as [|msg]; [| do 2 eexists; reflexivity].
  unfold try_catch.
  match goal with
  | |- context [match ?c env w with _ => _ end] =>
      destruct (c env w) as [[r|e] w']
  end; do 2 eexists; reflexivity.
Qed.

(** C5. A tool call whose name is not in the catalog, or whose arguments
    object lacks a key that the tool's required parameters list, is answered
    with [success: false]; the world is left as it was: no collaborator is
    called, no handler runs, nothing is written to the memory store. *)
Theorem invalid_call_is_rejected_without_effect (tc : ToolCall) (env : Env)
    (w : World) :
  unknown_tool tc \/ missing_required tc ->
  exists msg,
    ToolExecutor.execute tc env w =
      (Returned (mkToolResult false (tc_name tc) None (Some msg) None None), w).
Proof.
  intros H.
  assert (exists msg, validateToolCall tc = Returned (Invalid msg)) as [msg Hv].
  { unfold validateToolCall. destruct H as [H | H].
    - unfold unknown_tool in H. rewrite H.
      destruct (String.eqb (tc_name tc) ""); eexists; reflexivity.
    - destruct H as (tool & params & fields & param & Ht & Hr & Ha & Hin & Hk).
      destruct (String.eqb (tc_name tc) ""); [eexists; reflexivity |].
      rewrite Ht, Hr, Ha. eapply check_required_missing; eassumption. }
  exists msg. unfold ToolExecutor.execute, bind, lift. rewrite Hv. reflexivity.
Qed.

Lemma invalid_call_witness :
  missing_required (mkToolCall "call-7" "connect_serial" (VObj [("baudRate", VNum 9600)])) /\
  exists msg,
    ToolExecutor.execute
      (mkToolCall "call-7" "connect_serial" (VObj [("baudRate", VNum 9600)]))
      Fixtures.quiet (Fixtures.started true 10) =
    (Returned (mkToolResult false "connect_serial" None (Some msg) None None),
     Fixtures.started true 10).
Proof.
  assert (missing_required
            (mkToolCall "call-7" "connect_serial" (VObj [("baudRate", VNum 9600)])))
    as H.
  { exists (ToolSchema.mkTool "connect_serial"
              [("port", "string"); ("baudRate", "number")] (Some ["port"])),
           ["port"], [("baudRate", VNum 9600)], "port".
    repeat split; try reflexivity. now left. }
  split; [exact H |].
  apply (invalid_call_is_rejected_without_effect
           (mkToolCall "call-7" "connect_serial" (VObj [("baudRate", VNum 9600)]))).
  right. exact H.
Defined.

(** Once validation has passed, the [default] branch of the [switch] is
    out of reach: every tool of the catalog has its [case]. *)
Lemma catalog_is_dispatched :
  forallb (fun t => match ToolExecutor.dispatch (ToolSchema.name t) with
                    | Some _ => true
                    | None => false
                    end) ToolSchema.TOOL_SCHEMA = true.
Proof. vm_compute. reflexivity. Qed.

(** C3 fails where the arguments of a tool call are missing: for a tool
    with a required parameter, [validateToolCall] applies [in] to
    [undefined] outside the [try] block, and [execute] rejects.  This is the
    only way: [execute] rejects exactly when [validateToolCall] throws, with
    that error and before anything has happened. *)
Theorem execute_rejects_missing_arguments :
  (forall (id : string) (env : Env) (w : World),
     ToolExecutor.execute (mkToolCall id "connect_serial" VUndefined) env w =
       (Threw (TypeError
                 "Cannot use 'in' operator to search for 'port' in undefined"),
        w)) /\
  (forall (tc : ToolCall) (env : Env) (w w' : World) (e : JsError),
     ToolExecutor.execute tc env w = (Threw e, w') <->
     validateToolCall tc = Threw e /\ w' = w).
Proof.
  split; [reflexivity |].
  intros tc env w w' e. unfold ToolExecutor.execute, bind, lift.
  destruct (validateToolCall tc) as [[|msg]|e0].
  - unfold try_catch.
    match goal with
    | |- context [match ?c env w with _ => _ end] =>
        destruct (c env w) as [[r|e1] w1]
    end; split; intros H; try discriminate; destruct H; discriminate.
  - split; intros H; try discriminate. destruct H; discriminate.
  - split.
    + intros [= -> ->]. split; reflexivity.
    + intros [[= ->] ->]. reflexivity.
Qed.

(** ** Logging of executions *)

Lemma execute_valid (tc : ToolCall) (handler : value -> M value) (env : Env)
    (w : World) :
  validateToolCall tc = Returned Valid ->
  ToolExecutor.dispatch (tc_name tc) = Some handler ->
  ToolExecutor.execute tc env w =
  try_catch
    (result <- handler (tc_arguments tc) ;;
     ToolExecutor.record_execution tc result ;;;
     ret (mkToolResult true (tc_name tc) (Some result) None None None))
    (fun error =>
       ret (mkToolResult false (tc_name tc) None (Some (message error))
              (Some (err_prop error "stack")) None)) env w.
Proof.
  intros Hv Hd. unfold ToolExecutor.execute, bind at 1, lift.
  rewrite Hv, Hd. reflexivity.
Qed.

(** A handler that returns is logged: the outcome carries the tool, the
    arguments, whether the result says [success: false], its [error], and
    the time of the log entry. *)
Lemma returned_handler_is_logged (tc : ToolCall) (handler : value -> M value)
    (env : Env) (w w1 : World) (result : value) (m : SimpleMemory.t) :
  validateToolCall tc = Returned Valid ->
  ToolExecutor.dispatch (tc_name tc) = Some handler ->
  handler (tc_arguments tc) env w = (Returned result, w1) ->
  Js.nullish result = false ->
  aiMemory w1 = Some m ->
  ToolExecutor.execute tc env w =
    (Returned (mkToolResult true (tc_name tc) (Some result) None None None),
     set_aiMemory w1
       (Some (SimpleMemory.recordExecution (tc_name tc) (tc_arguments tc)
                (Js.not_false (Js.read result "success"))
                (Js.default VNull (Js.read result "error")) (clock w1) m))).
Proof.
  intros Hv Hd Hh Hn Hm. rewrite (execute_valid tc handler env w Hv Hd).
  unfold try_catch, bind at 1. rewrite Hh.
  unfold ToolExecutor.record_execution, bind, gets, get, modify, ret.
  rewrite Hm, Hn. reflexivity.
Qed.




(** ** Missing context *)

(** The lookup of a value that the arguments left out: the callback is
    asked when it is there. *)
Lemma resolve_returns (name : string) (has : bool) (env : Env) (w : World) :
  ui_getters_answer env ->
  exists v w',
    (if negb (Js.truthy (VStr "")) && has
     then p <- callback name [] ;; ret (Js.or_else p (VStr ""))
     else ret (VStr "")) env w = (Returned v, w') /\
    (forall p, outcome (collaborator env (trace w)
                          (mkCall UICallbacks name [])) = Returned p ->
               Js.truthy p = false -> v = VStr "").
Proof.
  intros H. cbn [Js.truthy String.eqb negb andb].
  destruct has.
  - destruct (H (trace w) name) as [v Hv].
    unfold callback, invoke, bind, ret. rewrite Hv.
    do 2 eexists. split; [reflexivity |].
    intros p [= <-] Hp. unfold Js.or_else. rewrite Hp. reflexivity.
  - do 2 eexists. split; [reflexivity |]. reflexivity.
Qed.

Lemma bind_returned {A B} (c : M A) (k : A -> M B) (env : Env) (w w' : World)
    (a : A) :
  c env w = (Returned a, w') -> bind c k env w = k a env w'.
Proof. unfold bind. now intros ->. Qed.

Lemma bind_threw {A B} (c : M A) (k : A -> M B) (env : Env) (w w' : World)
    (e : JsError) :
  c env w = (Threw e, w') -> bind c k env w = (Threw e, w').
Proof. unfold bind. now intros ->. Qed.

Lemma call_trim_empty :
  call_trim (Js.or_else VUndefined (VStr "")) = ret (VStr "").
Proof. reflexivity. Qed.

Ltac mstep :=
  unfold bind at 1;
  cbn [ret gets asks get Js.nullish Js.read Js.lookup];
  rewrite ?call_trim_empty; cbn [ret].

Lemma upload_without_sketch (env : Env) (w : World) :
  ui_getters_answer env -> no_sketch_open env ->
  exists w',
    ToolExecutor.executeUpload (VObj []) env w =
      (Returned (obj_false no_sketch_message), w').
Proof.
  intros Hu Hn. unfold ToolExecutor.executeUpload. cbn [Js.default].
  do 7 mstep.
  destruct (resolve_returns "getCurrentSketchPath"
              (has_callback "getCurrentSketchPath" w) env w Hu)
    as (v1 & w1 & R1 & T1).
  rewrite (bind_returned _ _ _ _ _ _ R1).
  assert (v1 = VStr "") as ->.
  { destruct (Hn (trace w)) as (p & Hp & Ht). exact (T1 p Hp Ht). }
  mstep.
  destruct (resolve_returns "getSelectedBoard"
              (has_callback "getSelectedBoard" w1) env w1 Hu)
    as (v2 & w2 & R2 & _).
  rewrite (bind_returned _ _ _ _ _ _ R2).
  mstep.
  destruct (resolve_returns "getSelectedPort"
              (has_callback "getSelectedPort" w2) env w2 Hu)
    as (v3 & w3 & R3 & _).
  rewrite (bind_returned _ _ _ _ _ _ R3).
  cbn [Js.truthy String.eqb negb].
  eexists. reflexivity.
Qed.

Lemma compile_without_sketch (env : Env) (w : World) :
  ui_getters_answer env -> no_sketch_open env ->
  exists w',
    ToolExecutor.executeCompile (VObj []) env w =
      (Returned (obj_false no_sketch_message), w').
Proof.
  intros Hu Hn. unfold ToolExecutor.executeCompile. cbn [Js.default].
  do 5 mstep.
  destruct (resolve_returns "getCurrentSketchPath"
              (has_callback "getCurrentSketchPath" w) env w Hu)
    as (v1 & w1 & R1 & T1).
  rewrite (bind_returned _ _ _ _ _ _ R1).
  assert (v1 = VStr "") as ->.
  { destruct (Hn (trace w)) as (p & Hp & Ht). exact (T1 p Hp Ht). }
  mstep.
  destruct (resolve_returns "getSelectedBoard"
              (has_callback "getSelectedBoard" w1) env w1 Hu)
    as (v2 & w2 & R2 & _).
  rewrite (bind_returned _ _ _ _ _ _ R2).
  cbn [Js.truthy String.eqb negb].
  eexists. reflexivity.
Qed.

(** A handler that returns an object makes [execute] answer
    [success: true], whatever the object says. *)
Lemma returned_handler_succeeds (tc : ToolCall) (handler : value -> M value)
    (env : Env) (w w1 : World) (result : value) :
  validateToolCall tc = Returned Valid ->
  ToolExecutor.dispatch (tc_name tc) = Some handler ->
  handler (tc_arguments tc) env w = (Returned result, w1) ->
  Js.nullish result = false ->
  exists w',
    ToolExecutor.execute tc env w =
      (Returned (mkToolResult true (tc_name tc) (Some result) None None None),
       w').
Proof.
  intros Hv Hd Hh Hn. rewrite (execute_valid tc handler env w Hv Hd).
  unfold try_catch, bind at 1. rewrite Hh.
  unfold ToolExecutor.record_execution, bind, gets, get, modify, ret.
  rewrite Hn. destruct (aiMemory w1); eexists; reflexivity.
Qed.

(** C1 fails on the [success] flag.  For [upload_sketch] or
    [compile_sketch] with empty arguments, when no file is open and the
    callbacks supply no path, the handler returns [success: false] with the
    message that no sketch is open, and [execute] wraps it: the ToolResult
    says [success: true], has no [error], and carries the handler's object as
    [result]. *)
Theorem missing_sketch_is_wrapped_as_success (id name : string) (env : Env)
    (w : World) :
  name = "upload_sketch" \/ name = "compile_sketch" ->
  ui_getters_answer env ->
  no_sketch_open env ->
  exists w',
    ToolExecutor.execute (mkToolCall id name (VObj [])) env w =
      (Returned (mkToolResult true name
                   (Some (VObj [("success", VBool false);
                                ("error", VStr no_sketch_message)]))
                   None None None), w').
Proof.
  intros [-> | ->] Hu Hn.
  - destruct (upload_without_sketch env w Hu Hn) as [w1 H1].
    apply (returned_handler_succeeds (mkToolCall id "upload_sketch" (VObj []))
             ToolExecutor.executeUpload env w w1); try reflexivity. exact H1.
  - destruct (compile_without_sketch env w Hu Hn) as [w1 H1].
    apply (returned_handler_succeeds (mkToolCall id "compile_sketch" (VObj []))
             ToolExecutor.executeCompile env w w1); try reflexivity. exact H1.
Qed.

Lemma missing_sketch_witness :
  ("upload_sketch" = "upload_sketch" \/ "upload_sketch" = "compile_sketch") /\
  ui_getters_answer Fixtures.quiet /\
  no_sketch_open Fixtures.quiet /\
  exists w',
    ToolExecutor.execute Fixtures.upload_call Fixtures.quiet
                         (Fixtures.started true 10) =
      (Returned (mkToolResult true "upload_sketch"
                   (Some (VObj [("success", VBool false);
                                ("error", VStr no_sketch_message)]))
                   None None None), w').
Proof.
  assert (ui_getters_answer Fixtures.quiet) as Hu
    by (intros t name; eexists; reflexivity).
  assert (no_sketch_open Fixtures.quiet) as Hn
    by (intros t; eexists; split; reflexivity).
  split; [now left |]. split; [exact Hu |]. split; [exact Hn |].
  apply (missing_sketch_is_wrapped_as_success "call-1" "upload_sketch"
           Fixtures.quiet (Fixtures.started true 10));
    [now left | exact Hu | exact Hn].
Defined.

(** ** What the handlers add to the trace *)

Section OnlyInvokes.
Context {A B : Type}.

Lemma oi_same (c : M A) :
  (forall env w, trace (snd (c env w)) = trace w) -> only_invokes c.
Proof.
  intros H env w o w' E. exists []. specialize (H env w). rewrite E in H.
  cbn in *. now rewrite app_nil_r.
Qed.

Lemma oi_ret (a : A) : only_invokes (ret a).
Proof. apply oi_same. reflexivity. Qed.

Lemma oi_throw (e : JsError) : only_invokes (@throw A e).
Proof. apply oi_same. reflexivity. Qed.

Lemma oi_gets (f : World -> A) : only_invokes (gets f).
Proof. apply oi_same. reflexivity. Qed.

Lemma oi_asks (f : Env -> World -> A) : only_invokes (asks f).
Proof. apply oi_same. reflexivity. Qed.

Lemma oi_lift (o : Outcome A) : only_invokes (lift o).
Proof. apply oi_same. reflexivity. Qed.

Lemma oi_bind (c : M A) (k : A -> M B) :
  only_invokes c -> (forall a, only_invokes (k a)) -> only_invokes (bind c k).
Proof.
  intros Hc Hk env w o w'. unfold bind.
  destruct (c env w) as [[a|e] w1] eqn:E; intros H.
  - destruct (Hc _ _ _ _ E) as [l1 H1]. destruct (Hk a _ _ _ _ H) as [l2 H2].
    exists (l1 ++ l2). rewrite H2, H1, map_app, app_assoc. reflexivity.
  - injection H as <- <-. exact (Hc _ _ _ _ E).
Qed.

Lemma oi_try_catch (c : M A) (h : JsError -> M A) :
  only_invokes c -> (forall e, only_invokes (h e)) -> only_invokes (try_catch c h).
Proof.
  intros Hc Hh env w o w'. unfold try_catch.
  destruct (c env w) as [[a|e] w1] eqn:E; intros H.
  - injection H as <- <-. exact (Hc _ _ _ _ E).
  - destruct (Hc _ _ _ _ E) as [l1 H1]. destruct (Hh e _ _ _ _ H) as [l2 H2].
    exists (l1 ++ l2). rewrite H2, H1, map_app, app_assoc. reflexivity.
Qed.
End OnlyInvokes.

Lemma oi_modify (f : World -> World) :
  (forall w, trace (f w) = trace w) -> only_invokes (modify f).
Proof. intros H. apply oi_same. intros env w. apply H. Qed.

Lemma oi_invoke t m args : only_invokes (invoke t m args).
Proof.
  intros env w o w' [= <- <-]. exists [mkCall t m args]. reflexivity.
Qed.

Lemma oi_eval n args : only_invokes (eval n args).
Proof. apply oi_same. reflexivity. Qed.

Ltac oi_step :=
  first
    [ apply oi_bind; [| intros ?]
    | apply oi_try_catch; [| intros ?]
    | apply oi_ret | apply oi_throw | apply oi_gets | apply oi_asks
    | apply oi_lift | apply oi_eval | apply oi_invoke
    | apply oi_modify; intros ?; reflexivity
    | match goal with
      | |- only_invokes (if ?b then _ else _) => destruct b
      | |- only_invokes (match ?x with _ => _ end) => destruct x
      | |- only_invokes (let (_, _) := ?x in _) => destruct x
      end ].

Ltac oi :=
  unfold callback, invoke_on, peek_on, get, call_trim, text_of, to_integer,
         ToolExecutor.memory_search;
  repeat oi_step.

Lemma oi_upload args : only_invokes (ToolExecutor.executeUpload args).
Proof. unfold ToolExecutor.executeUpload. oi. Qed.

Lemma oi_state : only_invokes (ToolExecutor.executeGetCurrentState).
Proof. unfold ToolExecutor.executeGetCurrentState. oi. Qed.

Lemma oi_dispatch name handler args :
  ToolExecutor.dispatch name = Some handler -> only_invokes (handler args).
Proof.
  unfold ToolExecutor.dispatch, Js.lookup_by.
  repeat match goal with
  | |- (if ?b then _ else _) = _ -> _ =>
      destruct b; [intros [= <-] |]
  end; try discriminate.
  all: unfold ToolExecutor.executeCompile, ToolExecutor.executeUpload,
    ToolExecutor.executeListBoards, ToolExecutor.executeListPorts,
    ToolExecutor.executeConnectSerial, ToolExecutor.executeDisconnectSerial,
    ToolExecutor.executeSendSerial, ToolExecutor.executeReadSerial,
    ToolExecutor.executeAutoDetectBaud, ToolExecutor.executeGetBaudRate,
    ToolExecutor.executeSetBaudRate, ToolExecutor.executeGetAvailableBaudRates,
    ToolExecutor.executeGetEditorCode, ToolExecutor.executeSetEditorCode,
    ToolExecutor.executeEditCode, ToolExecutor.executeSearchCode,
    ToolExecutor.executeReplaceInCode, ToolExecutor.executeGetCurrentSketchPath,
    ToolExecutor.executeSaveSketch, ToolExecutor.executeAnalyzeError,
    ToolExecutor.executeSearchMemory, ToolExecutor.executeRecordFix,
    ToolExecutor.executeGetCurrentState; oi.
Qed.

(** ** The agent loop *)

Lemma oi_execute tc : only_invokes (ToolExecutor.execute tc).
Proof.
  unfold ToolExecutor.execute. apply oi_bind; [apply oi_lift |].
  intros [|msg]; [| apply oi_ret].
  apply oi_try_catch; [| intros; apply oi_ret].
  destruct (ToolExecutor.dispatch (tc_name tc)) as [h|] eqn:D; [| apply oi_ret].
  apply oi_bind; [exact (oi_dispatch _ _ _ D) |].
  intros result. unfold ToolExecutor.record_execution. oi.
Qed.

Lemma chat_rounds_invoked t calls :
  chat_rounds (t ++ map Invoked calls) = chat_rounds t.
Proof.
  unfold chat_rounds. rewrite filter_app, length_app.
  replace (filter is_chat (map Invoked calls)) with (@nil Event); [cbn; lia |].
  induction calls; cbn; auto.
Qed.

(** The [for] loop over the tool calls of one response. *)
Lemma run_tool_calls_in_order calls : forall messages toolResults env w,
  well_formed calls ->
  exists rs w',
    AIAgent.run_tool_calls calls messages toolResults env w =
      (Returned (messages ++ tool_messages calls rs, toolResults ++ rs), w') /\
    executed_in_order env calls w rs w' /\
    List.length rs = List.length calls /\
    chat_rounds (trace w') = chat_rounds (trace w).
Proof.
  induction calls as [|tc calls IH]; intros messages toolResults env w Hwf.
  - exists [], w. cbn. rewrite !app_nil_r. repeat split. constructor.
  - inversion Hwf as [|? ? Htc Hrest]; subst.
    destruct (execute_resolves tc env w Htc) as (r & w1 & Hr).
    destruct (IH (messages ++ [ToolMessage (tc_id tc) (tc_name tc)
                                 (AIAgent.with_executionTime r (clock w1 - clock w))])
                 (toolResults ++ [AIAgent.with_executionTime r (clock w1 - clock w)])
                 env w1 Hrest) as (rs & w' & Hrun & Hord & Hlen & Hch).
    exists (AIAgent.with_executionTime r (clock w1 - clock w) :: rs), w'.
    split; [| split; [| split]].
    + cbn [AIAgent.run_tool_calls]. unfold bind at 1. cbn [gets].
      rewrite (bind_returned _ _ _ _ _ _ Hr).
      unfold bind at 1. cbn [gets].
      rewrite Hrun. unfold tool_messages. cbn [combine map fst snd].
      rewrite <- !app_assoc. reflexivity.
    + econstructor; eassumption.
    + cbn. now rewrite Hlen.
    + rewrite Hch. destruct (oi_execute tc _ _ _ _ Hr) as [l ->].
      apply chat_rounds_invoked.
Qed.



Lemma tool_loop_unfold tools maxIter iteration messages toolResults env w :
  AIAgent.tool_loop tools maxIter iteration messages toolResults env w =
  if iteration <? maxIter then
    match AIAgent.round tools messages toolResults env w with
    | (Threw e, w') => (Threw e, w')
    | (Returned (AIAgent.Done r), w') => (Returned r, w')
    | (Returned (AIAgent.Again messages' toolResults'), w') =>
        AIAgent.tool_loop tools maxIter (iteration + 1) messages' toolResults'
                          env w'
    end
  else (Returned (AIAgent.limit_reached toolResults), w).
Proof.
  simp tool_loop.
  destruct (Z_lt_dec iteration maxIter) as [H|H]; cbn.
  - destruct (Z.ltb_spec iteration maxIter); [| lia].
    destruct (AIAgent.round tools messages toolResults env w) as [[[r|m t]|e] w'];
      reflexivity.
  - destruct (Z.ltb_spec iteration maxIter); [lia | reflexivity].
Qed.





Lemma userContent_returns (userQuery : string) (context : value) (env : Env)
    (w : World) :
  Js.nullish context = false ->
  exists text, AIAgent.userContent userQuery context env w = (Returned text, w).
Proof.
  intros H. unfold AIAgent.userContent, get. rewrite H.
  eexists. reflexivity.
Qed.

(** [processQuery], once a provider is selected and the context is not
    [null]: the user message is pushed, and the turn is the single round trip
    of the ask mode or the tool loop. *)
Lemma processQuery_selected (userQuery : string) (context : value)
    (mode : string) (env : Env) (w : World) :
  currentProvider w = true ->
  context <> VNull ->
  exists text,
    let w1 := set_conversationHistory w
                (conversationHistory w ++ [UserMessage text]) in
    let messages :=
      SystemMessage (AIAgent.getSystemPrompt mode) :: conversationHistory w1 in
    AIAgent.processQuery userQuery context mode env w =
    match AIAgent._getToolsForMode mode with
    | [] =>
        (r <- AIAgent.chat messages [] ;;
         (if Js.truthy (content r)
          then AIAgent.push_history (AssistantMessage (content r) [])
          else ret tt) ;;;
         ret (AIAgent.mkQueryResult (content r) [] (usage r) (model r) None))
          env w1
    | tools => AIAgent.tool_loop tools (maxIterations w) 0 messages [] env w1
    end.
Proof.
  intros Hs Hc.
  assert (Js.nullish (Js.default (VObj []) context) = false) as Hn
    by (destruct context; try reflexivity; congruence).
  destruct (userContent_returns userQuery _ env w Hn) as [text Ht].
  exists text. cbv zeta.
  unfold AIAgent.processQuery. unfold bind at 1. cbn [gets]. rewrite Hs.
  cbn [negb]. rewrite (bind_returned _ _ _ _ _ _ Ht).
  unfold AIAgent.push_history. unfold bind at 1. cbn [modify].
  unfold bind at 1. cbn [gets].
  destruct (AIAgent._getToolsForMode mode); reflexivity.
Qed.

(** C9. When a provider response carries tool calls, the round runs them
    through the executor one after the other in the order of the response
    (each call starts in the world the previous one left), and appends one
    tool-result message per call to the message list, after the assistant
    message and in the same order, each with the [tool_call_id] of its call
    and the result of that call. *)
Theorem tool_calls_run_in_proposed_order
    (tools : list ToolSchema.ToolDefinition) (messages : list Message)
    (toolResults : list ToolResult) (env : Env) (w : World) (r : Response)
    (dt : Z) :
  provider env (trace w) messages (map ToolSchema.name tools) = (Returned r, dt) ->
  toolCalls r <> [] ->
  well_formed (toolCalls r) ->
  exists rs w',
    AIAgent.round tools messages toolResults env w =
      (Returned
         (AIAgent.Again
            (messages ++
             AssistantMessage (Js.or_else (content r) VNull)
                              (map AIAgent.wire_call (toolCalls r)) ::
             tool_messages (toolCalls r) rs)
            (toolResults ++ rs)), w') /\
    executed_in_order env (toolCalls r)
      (set_trace w (trace w ++ [Chatted messages (map ToolSchema.name tools)])
                 (clock w + dt))
      rs w' /\
    List.length rs = List.length (toolCalls r) /\
    map tool_call_id_of (tool_messages (toolCalls r) rs) =
      map (fun tc => Some (tc_id tc)) (toolCalls r).
Proof.
  intros Hp Hne Hwf.
  destruct (run_tool_calls_in_order (toolCalls r)
              (messages ++
               [AssistantMessage (Js.or_else (content r) VNull)
                  (map AIAgent.wire_call (toolCalls r))])
              toolResults env
              (set_trace w (trace w ++ [Chatted messages (map ToolSchema.name tools)])
                         (clock w + dt)) Hwf)
    as (rs & w' & Hrun & Hord & Hlen & _).
  exists rs, w'. split; [| split; [exact Hord | split; [exact Hlen |]]].
  - unfold AIAgent.round, bind at 1, AIAgent.chat. rewrite Hp.
    destruct (toolCalls r) as [|tc calls] eqn:E; [congruence |].
    unfold bind at 1. rewrite Hrun. cbn [fst snd ret].
    rewrite <- app_assoc. reflexivity.
  - unfold tool_messages. clear -Hlen. revert rs Hlen.
    induction (toolCalls r) as [|tc calls IH]; intros [|x rs] Hlen;
      try discriminate; cbn; [reflexivity |].
    f_equal. apply IH. now injection Hlen.
Qed.








Lemma tool_calls_run_in_proposed_order_witness :
  let r := mkResponse VNull Fixtures.three_calls VUndefined VUndefined in
  let w := Fixtures.started true 3 in
  let tools := ToolSchema.getAllTools in
  provider Fixtures.eager (trace w) [UserMessage "list everything"]
           (map ToolSchema.name tools) = (Returned r, 5) /\
  toolCalls r <> [] /\
  well_formed (toolCalls r) /\
  exists rs w',
    AIAgent.round tools [UserMessage "list everything"] [] Fixtures.eager w =
      (Returned
         (AIAgent.Again
            ([UserMessage "list everything"] ++
             AssistantMessage (Js.or_else (content r) VNull)
                              (map AIAgent.wire_call (toolCalls r)) ::
             tool_messages (toolCalls r) rs)
            ([] ++ rs)), w') /\
    executed_in_order Fixtures.eager (toolCalls r)
      (set_trace w
         (trace w ++ [Chatted [UserMessage "list everything"]
                              (map ToolSchema.name tools)])
         (clock w + 5))
      rs w' /\
    List.length rs = List.length (toolCalls r) /\
    map tool_call_id_of (tool_messages (toolCalls r) rs) =
      map (fun tc => Some (tc_id tc)) (toolCalls r).
Proof.
  cbv zeta.
  split; [reflexivity |]. split; [discriminate |].
  split; [repeat constructor |].
  apply (tool_calls_run_in_proposed_order ToolSchema.getAllTools
           [UserMessage "list everything"] [] Fixtures.eager
           (Fixtures.started true 3)
           (mkResponse VNull Fixtures.three_calls VUndefined VUndefined) 5);
    [reflexivity | discriminate | repeat constructor].
Defined.

(** The three calls of the fixture: the executor's calls to the Arduino
    service appear in the trace in the order of the response, and the three
    tool messages carry the three ids in that order. *)
Example three_calls_in_order :
  match AIAgent.round ToolSchema.getAllTools [UserMessage "list everything"] []
                      Fixtures.eager (Fixtures.started true 3) with
  | (Returned (AIAgent.Again messages results), w') =>
      map tool_call_id_of messages =
        [None; None; Some "call-a"; Some "call-b"; Some "call-c"] /\
      map tool results =
        ["list_boards"; "list_ports"; "get_available_baud_rates"] /\
      map (fun ev => match ev with
                     | Invoked c => method c
                     | Chatted _ _ => "chat"
                     end) (trace w') =
        ["chat"; "listBoards"; "listPorts"]
  | _ => False
  end.
Proof. vm_compute. repeat split. Qed.

(** * More properties *)

(** ** The execution log *)

Lemma slice_from_last {A} (k : Z) (l : list A) :
  k < 0 ->
  Js.slice_from k l = skipn (Z.to_nat (Z.of_nat (List.length l) + k)) l /\
  Z.of_nat (List.length (Js.slice_from k l)) = Z.min (- k) (Z.of_nat (List.length l)).
Proof.
  intros Hk. unfold Js.slice_from.
  destruct (Z.ltb_spec k 0) as [_|]; [| lia].
  replace (Z.to_nat (Z.max (Z.of_nat (List.length l) + k) 0))
    with (Z.to_nat (Z.of_nat (List.length l) + k)) by lia.
  split; [reflexivity |].
  rewrite length_skipn. lia.
Qed.

(** X1. [recordExecution] keeps the log at 100 entries: the new entry is the
    last one, entries are dropped from the front only, and none is dropped
    while there is room.  Errors and fixes are not touched. *)
Theorem recordExecution_keeps_the_last_hundred
    (toolName : string) (args : value) (ok : bool) (err : value) (now : Z)
    (m : SimpleMemory.t) :
  let entry := SimpleMemory.mkExecution toolName args ok err now in
  let before := SimpleMemory.memory (SimpleMemory.ensureLoaded m) in
  let after :=
    SimpleMemory.memory
      (SimpleMemory.recordExecution toolName args ok err now m) in
  (List.length (SimpleMemory.executions after) <= 100)%nat /\
  (exists dropped kept,
     SimpleMemory.executions before ++ [entry] =
       dropped ++ SimpleMemory.executions after /\
     SimpleMemory.executions after = kept ++ [entry] /\
     ((List.length (SimpleMemory.executions before) < 100)%nat ->
      dropped = [])) /\
  SimpleMemory.errors after = SimpleMemory.errors before /\
  SimpleMemory.fixes after = SimpleMemory.fixes before.
Proof.
  intros entry before after. subst after. unfold SimpleMemory.recordExecution.
  cbv zeta. fold before. fold entry.
  match goal with
  | |- context [SimpleMemory.save ?x] =>
      destruct (save_memory x) as [-> _]
  end.
  cbn [SimpleMemory.with_memory SimpleMemory.memory SimpleMemory.executions
       SimpleMemory.errors SimpleMemory.fixes].
  set (pushed := SimpleMemory.executions before ++ [entry]).
  assert (List.length pushed = S (List.length (SimpleMemory.executions before)))
    as Hlen by (subst pushed; rewrite length_app; cbn; lia).
  destruct (Z.ltb_spec 100 (Z.of_nat (List.length pushed))) as [Hfull|Hroom].
  - destruct (slice_from_last (-100) pushed ltac:(lia)) as [Hslice Hl].
    split; [lia |]. split; [| split; reflexivity].
    exists (firstn (Z.to_nat (Z.of_nat (List.length pushed) + -100)) pushed).
    exists (skipn (Z.to_nat (Z.of_nat (List.length pushed) + -100))
                  (SimpleMemory.executions before)).
    rewrite Hslice. split; [now rewrite firstn_skipn |]. split; [| lia].
    subst pushed. rewrite skipn_app.
    match goal with
    | |- _ ++ skipn ?n _ = _ => replace n with 0%nat by lia
    end.
    reflexivity.
  - split; [lia |]. split; [| split; reflexivity].
    exists [], (SimpleMemory.executions before). repeat split; reflexivity.
Qed.

(** X2. The success rate that [getStats] reports lies between 0 and 1, and is
    0 for an empty log; the other numbers count the entries of the store. *)
Theorem getStats_success_rate_is_a_fraction (m : SimpleMemory.t) :
  let '(errorSignatures, fixes, executions, successRate) :=
    fst (SimpleMemory.getStats m) in
  let d := SimpleMemory.memory (SimpleMemory.ensureLoaded m) in
  (0 <= successRate)%Q /\ (successRate <= 1)%Q /\
  (executions = 0 -> successRate = 0%Q) /\
  errorSignatures = Z.of_nat (List.length (SimpleMemory.errors d)) /\
  fixes = Z.of_nat (List.length (SimpleMemory.fixes d)) /\
  executions = Z.of_nat (List.length (SimpleMemory.executions d)).
Proof.
  unfold SimpleMemory.getStats. cbv zeta. cbn [fst].
  set (d := SimpleMemory.memory (SimpleMemory.ensureLoaded m)).
  pose proof (filter_length_le SimpleMemory.success (SimpleMemory.executions d)) as Hle.
  set (n := Z.of_nat (List.length (SimpleMemory.executions d))) in *.
  destruct (Z.ltb_spec 0 n) as [Hpos|Hzero].
  - repeat split; try lia.
    + unfold Qle. cbn. lia.
    + unfold Qle. cbn. rewrite Z2Pos.id by lia. subst n. lia.
  - repeat split; try reflexivity; unfold Qle; cbn; lia.
Qed.

(** ** The validation gate, as a whole *)

Lemma check_required_valid (params : list string)
    (fields : list (string * value)) :
  check_required params (VObj fields) = Returned Valid <->
  (forall p, In p params -> Js.has_key p fields = true).
Proof.
  induction params as [|q params IH]; simpl.
  - split; [intros _ p [] | reflexivity].
  - destruct (Js.has_key q fields) eqn:Hq.
    + rewrite IH. split.
      * intros H p [<- | Hp]; [exact Hq | exact (H p Hp)].
      * intros H p Hp. apply H. now right.
    + split; [discriminate |]. intros H.
      rewrite (H q (or_introl eq_refl)) in Hq. discriminate.
Qed.

Lemma getTool_named (n : string) (tool : ToolSchema.ToolDefinition) :
  ToolSchema.getTool n = Some tool ->
  ToolSchema.name tool = n /\ In tool ToolSchema.TOOL_SCHEMA.
Proof.
  unfold ToolSchema.getTool. intros H. apply find_some in H.
  destruct H as [Hin Heq]. split; [now apply String.eqb_eq | exact Hin].
Qed.

(** X3. For a tool call whose arguments are an object, [validateToolCall]
    answers valid exactly when the name is that of a catalog tool and the
    object has every key of the tool's [required] list.  Only the presence
    of the keys is looked at: neither their values nor keys that the tool
    does not declare make a call invalid. *)
Theorem validateToolCall_accepts_iff (tc : ToolCall)
    (fields : list (string * value)) :
  tc_arguments tc = VObj fields ->
  (validateToolCall tc = Returned Valid <->
   exists tool,
     ToolSchema.getTool (tc_name tc) = Some tool /\
     forall p params,
       ToolSchema.required tool = Some params -> In p params ->
       Js.has_key p fields = true).
Proof.
  intros Ha. unfold validateToolCall. rewrite Ha.
  destruct (String.eqb_spec (tc_name tc) "") as [E|_].
  - rewrite E. split; [discriminate |]. intros (tool & H & _). discriminate.
  - destruct (ToolSchema.getTool (tc_name tc)) as [tool|].
    + destruct (ToolSchema.required tool) as [params|] eqn:R.
      * rewrite check_required_valid. split.
        -- intros H. exists tool. split; [reflexivity |].
           intros p ps E Hp. apply H.
           assert (ps = params) as -> by congruence. exact Hp.
        -- intros (t & [= <-] & H) p Hp. exact (H p params R Hp).
      * split; [| reflexivity]. intros _. exists tool.
        split; [reflexivity |]. intros p ps Hps. congruence.
    + split; [discriminate |]. intros (tool & H & _). discriminate.
Qed.

Lemma validateToolCall_accepts_witness :
  let tc := mkToolCall "call-9" "connect_serial"
              (VObj [("port", VNull); ("colour", VStr "red")]) in
  validateToolCall tc = Returned Valid <->
  exists tool,
    ToolSchema.getTool (tc_name tc) = Some tool /\
    forall p params,
      ToolSchema.required tool = Some params -> In p params ->
      Js.has_key p [("port", VNull); ("colour", VStr "red")] = true.
Proof.
  apply (validateToolCall_accepts_iff
           (mkToolCall "call-9" "connect_serial"
              (VObj [("port", VNull); ("colour", VStr "red")]))).
  reflexivity.
Defined.

(** X4. The [switch] of [execute] and the catalog name the same tools: a
    name has a [case] exactly when [getTool] finds it.  So the [default]
    branch of the [switch] is never reached by a validated call, and no
    catalog tool is left without a handler. *)
Theorem switch_covers_exactly_the_catalog (n : string) :
  ToolExecutor.dispatch n = None <-> ToolSchema.getTool n = None.
Proof.
  unfold ToolExecutor.dispatch, ToolSchema.getTool, ToolSchema.TOOL_SCHEMA,
    Js.lookup_by, find, ToolSchema.name.
  repeat match goal with
  | |- context [String.eqb ?k n] => rewrite (String.eqb_sym k n)
  end.
  repeat match goal with
  | |- context [String.eqb n ?k] =>
      destruct (String.eqb n k); [split; discriminate |]
  end.
  split; reflexivity.
Qed.

(** ** The serial buffer *)

(** X5. [addToBuffer] keeps the serial buffer within [maxBufferSize]: the new
    entry goes to the end, and when the buffer is full the oldest entry is
    dropped.  The entry carries [data.data], or the datum itself when it has
    no such field (a plain string).  Nothing else of the world changes. *)
Theorem addToBuffer_bounds_the_buffer (data : value) (env : Env) (w : World) :
  Js.nullish data = false ->
  Z.of_nat (List.length (serialBuffer w)) <= ToolExecutor.maxBufferSize ->
  exists entry w',
    ToolExecutor.addToBuffer data env w = (Returned tt, w') /\
    w' = set_serialBuffer w (serialBuffer w') /\
    Z.of_nat (List.length (serialBuffer w')) <= ToolExecutor.maxBufferSize /\
    Js.read entry "data" = Js.or_else (Js.read data "data") data /\
    (if Z.of_nat (List.length (serialBuffer w)) <? ToolExecutor.maxBufferSize
     then serialBuffer w' = serialBuffer w ++ [entry]
     else serialBuffer w' = tl (serialBuffer w) ++ [entry]).
Proof.
  intros Hd Hlen. unfold ToolExecutor.addToBuffer, get. rewrite Hd.
  unfold bind, ret, gets, modify. cbv beta iota.
  exists (VObj [("timestamp",
                 Js.or_else (Js.read data "timestamp") (VNum (clock w)));
                ("data", Js.or_else (Js.read data "data") data);
                ("baudRate", Js.read data "baudRate")]).
  eexists. split; [reflexivity |].
  cbn [serialBuffer set_serialBuffer].
  rewrite length_app. cbn [List.length].
  unfold ToolExecutor.maxBufferSize in *.
  destruct (Z.ltb_spec 1000 (Z.of_nat (List.length (serialBuffer w) + 1)))
    as [Hfull|Hroom];
    destruct (Z.ltb_spec (Z.of_nat (List.length (serialBuffer w))) 1000)
      as [Hlt|Hge]; try lia.
  - split; [reflexivity |]. split.
    + destruct (serialBuffer w) as [|x b]; cbn [tl List.length app] in *;
        [lia | rewrite length_app; cbn [List.length]; lia].
    + split; [reflexivity |].
      destruct (serialBuffer w) as [|x b]; [cbn in *; lia | reflexivity].
  - split; [reflexivity |]. split; [rewrite length_app; cbn; lia |].
    split; reflexivity.
Qed.

Lemma addToBuffer_witness :
  exists entry w',
    ToolExecutor.addToBuffer (VStr "tick") Fixtures.quiet
      (Fixtures.started false 3) = (Returned tt, w') /\
    w' = set_serialBuffer (Fixtures.started false 3) (serialBuffer w') /\
    Z.of_nat (List.length (serialBuffer w')) <= ToolExecutor.maxBufferSize /\
    Js.read entry "data" = Js.or_else (Js.read (VStr "tick") "data") (VStr "tick") /\
    (if Z.of_nat (List.length (serialBuffer (Fixtures.started false 3))) <?
        ToolExecutor.maxBufferSize
     then serialBuffer w' = serialBuffer (Fixtures.started false 3) ++ [entry]
     else serialBuffer w' = tl (serialBuffer (Fixtures.started false 3)) ++ [entry]).
Proof.
  apply (addToBuffer_bounds_the_buffer (VStr "tick") Fixtures.quiet
           (Fixtures.started false 3)).
  - reflexivity.
  - vm_compute. discriminate.
Defined.

(** X6. [executeReadSerial] hands out the tail of the buffer and changes
    nothing: for a positive number of lines, the last that many entries (all
    of them when the buffer is shorter); without [lines], the last 50.  For
    [lines: 0] it hands out the whole buffer, since [slice(-0)] is
    [slice(0)]. *)
Theorem read_serial_returns_the_tail (args : value) (n : Z) (env : Env)
    (w : World) :
  Js.nullish args = false ->
  Js.default (VNum 50) (Js.read args "lines") = VNum n ->
  exists lines,
    ToolExecutor.executeReadSerial args env w =
      (Returned
         (VObj [("lines", VArr lines);
                ("totalBuffered",
                 VNum (Z.of_nat (List.length (serialBuffer w))))]), w) /\
    (0 < n ->
     exists older, serialBuffer w = older ++ lines /\
       Z.of_nat (List.length lines) =
         Z.min n (Z.of_nat (List.length (serialBuffer w)))) /\
    (n = 0 -> lines = serialBuffer w).
Proof.
  intros Ha Hn. unfold ToolExecutor.executeReadSerial, get. rewrite Ha.
  unfold bind at 1. cbn [ret]. rewrite Hn.
  unfold bind, to_integer, asks, gets, ret.
  eexists. split; [reflexivity |]. split.
  - intros Hpos.
    destruct (slice_from_last (- n) (serialBuffer w) ltac:(lia)) as [Hs Hl].
    exists (firstn (Z.to_nat (Z.of_nat (List.length (serialBuffer w)) + - n))
                   (serialBuffer w)).
    split; [rewrite Hs; now rewrite firstn_skipn | lia].
  - intros ->. unfold Js.slice_from. cbn [Z.opp Z.ltb Z.compare].
    rewrite Z.min_l by lia. reflexivity.
Qed.

Lemma read_serial_witness :
  exists lines,
    ToolExecutor.executeReadSerial (VObj [("lines", VNum 0)]) Fixtures.quiet
      (set_serialBuffer (Fixtures.started false 3) [VStr "a"; VStr "b"]) =
      (Returned
         (VObj [("lines", VArr lines);
                ("totalBuffered",
                 VNum (Z.of_nat
                         (List.length
                            (serialBuffer
                               (set_serialBuffer (Fixtures.started false 3)
                                  [VStr "a"; VStr "b"])))))]),
       set_serialBuffer (Fixtures.started false 3) [VStr "a"; VStr "b"]) /\
    (0 < 0 ->
     exists older,
       serialBuffer (set_serialBuffer (Fixtures.started false 3)
                       [VStr "a"; VStr "b"]) = older ++ lines /\
       Z.of_nat (List.length lines) =
         Z.min 0 (Z.of_nat
                    (List.length
                       (serialBuffer
                          (set_serialBuffer (Fixtures.started false 3)
                             [VStr "a"; VStr "b"]))))) /\
    (0 = 0 ->
     lines = serialBuffer (set_serialBuffer (Fixtures.started false 3)
                             [VStr "a"; VStr "b"])).
Proof.
  apply (read_serial_returns_the_tail (VObj [("lines", VNum 0)]) 0
           Fixtures.quiet
           (set_serialBuffer (Fixtures.started false 3) [VStr "a"; VStr "b"]));
    reflexivity.
Defined.

(** ** Baud rates and the editor *)

(** X7. [executeSetBaudRate] accepts only the numbers of [availableBaudRates]:
    for anything else (an unlisted number, or a listed rate given as a
    string) it answers [success: false] with the list of rates, and calls
    nothing.  For a listed rate, with the UI callbacks set, it calls the
    [setBaudRate] callback once, with that rate, and nothing else. *)
Theorem set_baud_rate_accepts_only_listed_rates (args : value) (env : Env)
    (w : World) :
  Js.nullish args = false ->
  ((forall n, Js.read args "baudRate" = VNum n ->
              ~ In n ToolExecutor.availableBaudRates) ->
   exists shown,
     ToolExecutor.executeSetBaudRate args env w =
       (Returned
          (obj_false ("Invalid baud rate: " ++ shown ++ ". Available rates: " ++
                      "300, 1200, 2400, 4800, 9600, 19200, 38400, 57600, " ++
                      "74880, 115200, 230400, 250000, 500000, 1000000, 2000000")),
        w)) /\
  (forall n, Js.read args "baudRate" = VNum n ->
             In n ToolExecutor.availableBaudRates ->
             has_callback "setBaudRate" w = true ->
   trace (snd (ToolExecutor.executeSetBaudRate args env w)) =
     trace w ++ [Invoked (mkCall UICallbacks "setBaudRate" [VNum n])]).
Proof.
  intros Ha. unfold ToolExecutor.executeSetBaudRate, get. rewrite Ha. split.
  - intros Hn. unfold bind at 1. cbn [ret].
    assert (match Js.read args "baudRate" with
            | VNum n => existsb (Z.eqb n) ToolExecutor.availableBaudRates
            | _ => false
            end = false) as ->.
    { destruct (Js.read args "baudRate") as [| |b|n|q|s|l|o]; try reflexivity.
      destruct (existsb (Z.eqb n) ToolExecutor.availableBaudRates) eqn:E;
        [| reflexivity].
      apply existsb_exists in E. destruct E as (x & Hx & Heq).
      apply Z.eqb_eq in Heq. subst x. destruct (Hn n eq_refl Hx). }
    cbn [negb]. unfold bind, text_of, asks, ret.
    eexists. reflexivity.
  - intros n Hn Hin Hcb. unfold bind at 1. cbn [ret]. rewrite Hn.
    assert (existsb (Z.eqb n) ToolExecutor.availableBaudRates = true) as ->.
    { apply existsb_exists. exists n. split; [exact Hin | apply Z.eqb_refl]. }
    cbn [negb]. unfold bind at 1, gets. rewrite Hcb.
    unfold bind, callback, invoke, ret.
    destruct (outcome (collaborator env (trace w)
                         (mkCall UICallbacks "setBaudRate" [VNum n])));
      reflexivity.
Qed.

Lemma set_baud_rate_witness :
  ((forall n, Js.read (VObj [("baudRate", VStr "9600")]) "baudRate" = VNum n ->
              ~ In n ToolExecutor.availableBaudRates) ->
   exists shown,
     ToolExecutor.executeSetBaudRate (VObj [("baudRate", VStr "9600")])
       Fixtures.quiet (Fixtures.started false 3) =
       (Returned
          (obj_false ("Invalid baud rate: " ++ shown ++ ". Available rates: " ++
                      "300, 1200, 2400, 4800, 9600, 19200, 38400, 57600, " ++
                      "74880, 115200, 230400, 250000, 500000, 1000000, 2000000")),
        Fixtures.started false 3)) /\
  (forall n, Js.read (VObj [("baudRate", VStr "9600")]) "baudRate" = VNum n ->
             In n ToolExecutor.availableBaudRates ->
             has_callback "setBaudRate" (Fixtures.started false 3) = true ->
   trace (snd (ToolExecutor.executeSetBaudRate
                 (VObj [("baudRate", VStr "9600")]) Fixtures.quiet
                 (Fixtures.started false 3))) =
     trace (Fixtures.started false 3) ++
     [Invoked (mkCall UICallbacks "setBaudRate" [VNum n])]).
Proof.
  apply (set_baud_rate_accepts_only_listed_rates
           (VObj [("baudRate", VStr "9600")]) Fixtures.quiet
           (Fixtures.started false 3)).
  reflexivity.
Defined.

(** X8. Without UI callbacks the tools that write to the editor or the sketch
    do nothing: each answers [success: false] with its own message and
    leaves the world as it was. *)
Theorem editor_tools_need_the_ui_callbacks (name : string) (args : value)
    (env : Env) (w : World) :
  uiCallbacks w = None ->
  Js.nullish args = false ->
  In name ["set_editor_code"; "edit_code"; "search_code"; "replace_in_code";
           "save_sketch"] ->
  exists handler msg,
    ToolExecutor.dispatch name = Some handler /\
    handler args env w = (Returned (obj_false msg), w) /\
    Text.starts_with "Unable to " msg = true.
Proof.
  intros Hu Ha Hin.
  assert (forall cb, has_callback cb w = false) as Hcb
    by (intros cb; unfold has_callback; now rewrite Hu).
  cbn [In] in Hin.
  repeat (destruct Hin as [<- | Hin]); try destruct Hin;
    eexists; eexists; (split; [reflexivity |]);
    unfold ToolExecutor.executeSetEditorCode, ToolExecutor.executeEditCode,
      ToolExecutor.executeSearchCode, ToolExecutor.executeReplaceInCode,
      ToolExecutor.executeSaveSketch, get, bind, gets, ret;
    rewrite Ha, ?Hcb; cbn [andb negb]; split; reflexivity.
Qed.

Lemma editor_tools_witness :
  exists handler msg,
    ToolExecutor.dispatch "edit_code" = Some handler /\
    handler (VObj [("operation", VStr "delete"); ("startLine", VNum 1)])
      Fixtures.quiet (set_uiCallbacks (Fixtures.started false 3) None) =
      (Returned (obj_false msg),
       set_uiCallbacks (Fixtures.started false 3) None) /\
    Text.starts_with "Unable to " msg = true.
Proof.
  apply (editor_tools_need_the_ui_callbacks "edit_code"
           (VObj [("operation", VStr "delete"); ("startLine", VNum 1)])
           Fixtures.quiet (set_uiCallbacks (Fixtures.started false 3) None)).
  - reflexivity.
  - reflexivity.
  - cbn. tauto.
Defined.

(** ** What the tools leave alone *)

Section Keeps.
Context {A B : Type}.

Lemma keeps_ret (a : A) : keeps (ret a).
Proof. intros env w. reflexivity. Qed.

Lemma keeps_throw (e : JsError) : keeps (@throw A e).
Proof. intros env w. reflexivity. Qed.

Lemma keeps_gets (f : World -> A) : keeps (gets f).
Proof. intros env w. reflexivity. Qed.

Lemma keeps_asks (f : Env -> World -> A) : keeps (asks f).
Proof. intros env w. reflexivity. Qed.

Lemma keeps_lift (o : Outcome A) : keeps (lift o).
Proof. intros env w. reflexivity. Qed.

Lemma keeps_bind (c : M A) (k : A -> M B) :
  keeps c -> (forall a, keeps (k a)) -> keeps (bind c k).
Proof.
  intros Hc Hk env w. unfold bind. specialize (Hc env w).
  destruct (c env w) as [[a|e] w1]; cbn [snd] in *.
  - rewrite (Hk a env w1). exact Hc.
  - exact Hc.
Qed.

Lemma keeps_try_catch (c : M A) (h : JsError -> M A) :
  keeps c -> (forall e, keeps (h e)) -> keeps (try_catch c h).
Proof.
  intros Hc Hh env w. unfold try_catch. specialize (Hc env w).
  destruct (c env w) as [[a|e] w1]; cbn [snd] in *.
  - exact Hc.
  - rewrite (Hh e env w1). exact Hc.
Qed.
End Keeps.

Lemma keeps_modify (f : World -> World) :
  (forall w, fixed_part (f w) = fixed_part w) -> keeps (modify f).
Proof. intros H env w. apply H. Qed.

Lemma keeps_invoke t m args : keeps (invoke t m args).
Proof. intros env w. reflexivity. Qed.

Lemma keeps_eval n args : keeps (eval n args).
Proof. intros env w. reflexivity. Qed.

Ltac keeps_step :=
  first
    [ apply keeps_bind; [| intros ?]
    | apply keeps_try_catch; [| intros ?]
    | apply keeps_ret | apply keeps_throw | apply keeps_gets | apply keeps_asks
    | apply keeps_lift | apply keeps_eval | apply keeps_invoke
    | apply keeps_modify; intros ?; reflexivity
    | match goal with
      | |- keeps (if ?b then _ else _) => destruct b
      | |- keeps (match ?x with _ => _ end) => destruct x
      | |- keeps (let (_, _) := ?x in _) => destruct x
      end ].

Ltac keeps_all :=
  unfold callback, invoke_on, peek_on, get, call_trim, text_of, to_integer,
         ToolExecutor.memory_search;
  repeat keeps_step.

Lemma keeps_dispatch name handler args :
  ToolExecutor.dispatch name = Some handler -> keeps (handler args).
Proof.
  unfold ToolExecutor.dispatch, Js.lookup_by.
  repeat match goal with
  | |- (if ?b then _ else _) = _ -> _ =>
      destruct b; [intros [= <-] |]
  end; try discriminate.
  all: unfold ToolExecutor.executeCompile, ToolExecutor.executeUpload,
    ToolExecutor.executeListBoards, ToolExecutor.executeListPorts,
    ToolExecutor.executeConnectSerial, ToolExecutor.executeDisconnectSerial,
    ToolExecutor.executeSendSerial, ToolExecutor.executeReadSerial,
    ToolExecutor.executeAutoDetectBaud, ToolExecutor.executeGetBaudRate,
    ToolExecutor.executeSetBaudRate, ToolExecutor.executeGetAvailableBaudRates,
    ToolExecutor.executeGetEditorCode, ToolExecutor.executeSetEditorCode,
    ToolExecutor.executeEditCode, ToolExecutor.executeSearchCode,
    ToolExecutor.executeReplaceInCode, ToolExecutor.executeGetCurrentSketchPath,
    ToolExecutor.executeSaveSketch, ToolExecutor.executeAnalyzeError,
    ToolExecutor.executeSearchMemory, ToolExecutor.executeRecordFix,
    ToolExecutor.executeGetCurrentState; keeps_all.
Qed.

Lemma keeps_execute tc : keeps (ToolExecutor.execute tc).
Proof.
  unfold ToolExecutor.execute. apply keeps_bind; [apply keeps_lift |].
  intros [|msg]; [| apply keeps_ret].
  apply keeps_try_catch; [| intros; apply keeps_ret].
  destruct (ToolExecutor.dispatch (tc_name tc)) as [h|] eqn:D;
    [| apply keeps_ret].
  apply keeps_bind; [exact (keeps_dispatch _ _ _ D) |].
  intros result. unfold ToolExecutor.record_execution. keeps_all.
Qed.

(** X9. Whatever tool is called, with whatever arguments, and whatever the
    collaborators answer, [execute] stays within its remit: it never talks
    to the provider, and it leaves the conversation, the selected provider,
    the iteration limit, the UI callbacks and the serial buffer as they
    were.  All it adds to the trace are calls of collaborators. *)
Theorem execute_stays_within_its_remit (tc : ToolCall) (env : Env)
    (w : World) :
  let w' := snd (ToolExecutor.execute tc env w) in
  conversationHistory w' = conversationHistory w /\
  currentProvider w' = currentProvider w /\
  maxIterations w' = maxIterations w /\
  uiCallbacks w' = uiCallbacks w /\
  serialBuffer w' = serialBuffer w /\
  (exists calls, trace w' = trace w ++ map Invoked calls) /\
  chat_rounds (trace w') = chat_rounds (trace w).
Proof.
  intros w'. pose proof (keeps_execute tc env w) as K. fold w' in K.
  unfold fixed_part in K. injection K as _ _ _ Hb Hu Hp Hm Hh.
  destruct (oi_execute tc env w (fst (ToolExecutor.execute tc env w)) w')
    as [calls Hc]; [subst w'; now destruct (ToolExecutor.execute tc env w) |].
  repeat split; try assumption.
  - exists calls. exact Hc.
  - rewrite Hc. apply chat_rounds_invoked.
Qed.

(** ** The conversation *)

Lemma keeps_run_tool_calls calls : forall messages toolResults,
  keeps (AIAgent.run_tool_calls calls messages toolResults).
Proof.
  induction calls as [|tc calls IH]; intros messages toolResults;
    cbn [AIAgent.run_tool_calls].
  - apply keeps_ret.
  - apply keeps_bind; [apply keeps_gets | intros startTime].
    apply keeps_bind; [apply keeps_execute | intros result].
    apply keeps_bind; [apply keeps_gets | intros now]. apply IH.
Qed.

Lemma fixed_part_history (w w' : World) :
  fixed_part w' = fixed_part w ->
  conversationHistory w' = conversationHistory w.
Proof. unfold fixed_part. now intros [= _ _ _ _ _ _ _ H]. Qed.

(** One pass of the loop: only a final answer reaches the conversation. *)
Lemma round_history tools messages toolResults env w :
  let o := fst (AIAgent.round tools messages toolResults env w) in
  let w' := snd (AIAgent.round tools messages toolResults env w) in
  conversationHistory w' =
    conversationHistory w ++
    match o with
    | Returned (AIAgent.Done r) => reply_of r
    | _ => []
    end.
Proof.
  cbv zeta.
  destruct (AIAgent.round tools messages toolResults env w) as [o w'] eqn:E.
  cbn [fst snd]. revert E. unfold AIAgent.round, bind at 1, AIAgent.chat.
  destruct (provider env (trace w) messages (map ToolSchema.name tools))
    as [[r|e] dt].
  - destruct (toolCalls r) as [|tc calls].
    + unfold AIAgent.finish, AIAgent.push_history, bind, modify, ret, reply_of.
      destruct (Js.truthy (content r)) eqn:Ht; intros [= <- <-];
        cbn [AIAgent.warning AIAgent.response conversationHistory
             set_conversationHistory set_trace]; rewrite ?Ht, ?app_nil_r;
        reflexivity.
    + unfold bind.
      match goal with
      | |- context [AIAgent.run_tool_calls ?c ?m ?t env ?x] =>
          pose proof (keeps_run_tool_calls c m t env x) as K;
          destruct (AIAgent.run_tool_calls c m t env x) as [[s|e] w1]
      end; cbn [fst snd ret] in *; intros [= <- <-];
        rewrite (fixed_part_history _ _ K); cbn [conversationHistory set_trace];
        now rewrite app_nil_r.
  - intros [= <- <-]. cbn [conversationHistory set_trace].
    now rewrite app_nil_r.
Qed.

Lemma loop_history tools maxIter env : forall (n : nat) iteration messages
    toolResults w,
  Z.to_nat (maxIter - iteration) = n ->
  let o := fst (AIAgent.tool_loop tools maxIter iteration messages toolResults
                  env w) in
  let w' := snd (AIAgent.tool_loop tools maxIter iteration messages
                   toolResults env w) in
  conversationHistory w' =
    conversationHistory w ++
    match o with Returned r => reply_of r | Threw _ => [] end.
Proof.
  induction n as [|n IH]; intros iteration messages toolResults w Hn;
    cbv zeta; rewrite tool_loop_unfold.
  - destruct (Z.ltb_spec iteration maxIter); [lia |].
    cbn. now rewrite app_nil_r.
  - destruct (Z.ltb_spec iteration maxIter); [| lia].
    pose proof (round_history tools messages toolResults env w) as R.
    cbv zeta in R.
    destruct (AIAgent.round tools messages toolResults env w)
      as [[[r|m t]|e] w1]; cbn [fst snd] in *.
    + exact R.
    + rewrite (IH (iteration + 1) m t w1 ltac:(lia)).
      rewrite R, app_nil_r. reflexivity.
    + exact R.
Qed.

Lemma append_assoc (a b c : string) :
  ((a ++ b) ++ c = a ++ (b ++ c))%string.
Proof. induction a as [|x a IH]; cbn; [reflexivity | now rewrite IH]. Qed.

Lemma userContent_prefixes (userQuery : string) (context : value) (env : Env)
    (w : World) :
  Js.nullish context = false ->
  exists prefix,
    AIAgent.userContent userQuery context env w =
      (Returned (prefix ++ userQuery)%string, w).
Proof.
  intros H. unfold AIAgent.userContent, get. rewrite H.
  unfold bind, ret, text_of, asks.
  match goal with
  | |- context [match ?l with [] => userQuery | _ => _ end] => destruct l
  end.
  - exists "". reflexivity.
  - match goal with
    | |- context [String.concat ", " ?l] =>
        exists ("[IDE: " ++ String.concat ", " l ++ "]" ++ Text.newline ++
                Text.newline)%string
    end.
    rewrite !append_assoc. reflexivity.
Qed.

(** X10. A turn of [processQuery] adds one exchange to the conversation
    history and nothing more: the user message, which ends with the query
    (after the IDE context, if any), and the final text of the provider when
    there is one.  The assistant messages that carry tool calls and the tool
    results stay out of the history, however many rounds the turn takes; a
    turn that fails or runs into the iteration limit leaves its user message
    behind. *)
Theorem processQuery_adds_one_exchange (userQuery : string) (context : value)
    (mode : string) (env : Env) (w : World) :
  currentProvider w = true ->
  context <> VNull ->
  exists prefix,
    let o := fst (AIAgent.processQuery userQuery context mode env w) in
    let w' := snd (AIAgent.processQuery userQuery context mode env w) in
    conversationHistory w' =
      conversationHistory w ++
      UserMessage (prefix ++ userQuery) ::
      match o with Returned r => reply_of r | Threw _ => [] end.
Proof.
  intros Hsel Hctx.
  assert (Js.nullish (Js.default (VObj []) context) = false) as Hn
    by (destruct context; try reflexivity; congruence).
  destruct (userContent_prefixes userQuery _ env w Hn) as [prefix Hu].
  exists prefix. cbv zeta.
  destruct (AIAgent.processQuery userQuery context mode env w) as [o w'] eqn:E.
  cbn [fst snd]. revert E.
  unfold AIAgent.processQuery, bind at 1, gets. rewrite Hsel. cbn [negb].
  rewrite (bind_returned _ _ _ _ _ _ Hu).
  unfold bind at 1, AIAgent.push_history at 1, modify.
  unfold bind at 1, gets. cbn [conversationHistory set_conversationHistory].
  set (w1 := set_conversationHistory w
               (conversationHistory w ++ [UserMessage (prefix ++ userQuery)])).
  assert (conversationHistory w1 =
          conversationHistory w ++ [UserMessage (prefix ++ userQuery)]) as H1
    by reflexivity.
  destruct (AIAgent._getToolsForMode mode) as [|tool tools] eqn:T.
  - unfold bind at 1, AIAgent.chat.
    destruct (provider env (trace w1) _ _) as [[r|e] dt].
    + unfold AIAgent.push_history, bind, modify, ret, reply_of.
      destruct (Js.truthy (content r)) eqn:Ht; intros [= <- <-];
        subst w1;
        cbn [AIAgent.warning AIAgent.response conversationHistory
             set_conversationHistory set_trace]; rewrite ?Ht, <- ?app_assoc;
        reflexivity.
    + intros [= <- <-]. reflexivity.
  - unfold bind at 1, gets. intros E.
    pose proof (loop_history (tool :: tools) (maxIterations w1) env
                  (Z.to_nat (maxIterations w1 - 0)) 0
                  (SystemMessage (AIAgent.getSystemPrompt mode) ::
                   conversationHistory w ++ [UserMessage (prefix ++ userQuery)])
                  [] w1 eq_refl) as L.
    cbv zeta in L. rewrite E in L. cbn [fst snd] in L.
    rewrite L, H1, <- app_assoc. reflexivity.
Qed.

Lemma processQuery_adds_one_exchange_witness :
  exists prefix,
    let o := fst (AIAgent.processQuery "blink the LED" (VObj []) "agent"
                    Fixtures.eager (Fixtures.started true 2)) in
    let w' := snd (AIAgent.processQuery "blink the LED" (VObj []) "agent"
                     Fixtures.eager (Fixtures.started true 2)) in
    conversationHistory w' =
      conversationHistory (Fixtures.started true 2) ++
      UserMessage (prefix ++ "blink the LED") ::
      match o with Returned r => reply_of r | Threw _ => [] end.
Proof.
  apply (processQuery_adds_one_exchange "blink the LED" (VObj []) "agent"
           Fixtures.eager (Fixtures.started true 2)).
  - reflexivity.
  - discriminate.
Defined.

(** X11. In ask mode a turn is a single round trip with no tools offered, and
    no tool is run: the tool calls that the provider's answer may carry are
    ignored, and the result has no tool results. *)
Theorem ask_mode_runs_no_tool (userQuery : string) (context : value)
    (env : Env) (w : World) (r : Response) (dt : Z) :
  currentProvider w = true ->
  context <> VNull ->
  (forall t msgs names, provider env t msgs names = (Returned r, dt)) ->
  exists text,
    let w' := snd (AIAgent.processQuery userQuery context "ask" env w) in
    fst (AIAgent.processQuery userQuery context "ask" env w) =
      Returned (AIAgent.mkQueryResult (content r) [] (usage r) (model r) None) /\
    trace w' =
      trace w ++
      [Chatted (SystemMessage ASK_PROMPT ::
                conversationHistory w ++ [UserMessage text]) []] /\
    aiMemory w' = aiMemory w /\
    clock w' = clock w + dt.
Proof.
  intros Hsel Hctx Hp.
  destruct (processQuery_selected userQuery context "ask" env w Hsel Hctx)
    as [text H]. cbv zeta in H. rewrite H. clear H.
  cbn [AIAgent._getToolsForMode AIAgent.getSystemPrompt String.eqb Ascii.eqb
       Bool.eqb].
  exists text. cbv zeta. unfold bind, AIAgent.chat. rewrite Hp.
  unfold AIAgent.push_history, bind, modify, ret.
  destruct (Js.truthy (content r)); cbn; repeat split; reflexivity.
Qed.

Lemma ask_mode_witness :
  exists text,
    let w' := snd (AIAgent.processQuery "what is a baud rate?" (VObj []) "ask"
                     Fixtures.eager (Fixtures.started true 3)) in
    fst (AIAgent.processQuery "what is a baud rate?" (VObj []) "ask"
           Fixtures.eager (Fixtures.started true 3)) =
      Returned (AIAgent.mkQueryResult
                  (content (mkResponse VNull Fixtures.three_calls VUndefined
                                       VUndefined))
                  []
                  (usage (mkResponse VNull Fixtures.three_calls VUndefined
                                     VUndefined))
                  (model (mkResponse VNull Fixtures.three_calls VUndefined
                                     VUndefined)) None) /\
    trace w' =
      trace (Fixtures.started true 3) ++
      [Chatted (SystemMessage ASK_PROMPT ::
                conversationHistory (Fixtures.started true 3) ++
                [UserMessage text]) []] /\
    aiMemory w' = aiMemory (Fixtures.started true 3) /\
    clock w' = clock (Fixtures.started true 3) + 5.
Proof.
  apply (ask_mode_runs_no_tool "what is a baud rate?" (VObj []) Fixtures.eager
           (Fixtures.started true 3)
           (mkResponse VNull Fixtures.three_calls VUndefined VUndefined) 5).
  - reflexivity.
  - discriminate.
  - reflexivity.
Defined.

(** ** Error analysis by the agent *)

Lemma set_aiMemory_same (w : World) (m : SimpleMemory.t) :
  aiMemory w = Some m -> set_aiMemory w (Some m) = w.
Proof. destruct w; cbn. now intros ->. Qed.

(** X12. Memory first: once an error text has been recorded and a fix recorded
    against its signature, [analyzeError] on that text answers from memory,
    with that fix, at confidence 1.0.  It does so without a provider call
    and without any other effect, whether or not a provider is selected. *)
Theorem analyzeError_answers_from_memory_first
    (E : string) (ty c d fctx ctx : value) (t1 t2 : Z) (m0 : SimpleMemory.t)
    (env : Env) (w : World) :
  let '(sig, m1) := SimpleMemory.recordError E ty c t1 m0 in
  let '(F, m2) := SimpleMemory.recordFix (VStr sig) d fctx t2 m1 in
  aiMemory w = Some m2 ->
  exists e fixes,
    AIAgent.analyzeError (VStr E) ctx env w =
      (Returned (AIAgent.FromMemory e fixes 1%Q), w) /\
    SimpleMemory.signature e = sig /\
    In F fixes /\
    SimpleMemory.description F = d.
Proof.
  pose proof (recordError_records E ty c t1 m0) as H1.
  destruct (SimpleMemory.recordError E ty c t1 m0) as [sig m1].
  cbn [fst snd] in H1. destruct H1 as (-> & Hl1 & e & F).
  pose proof (recordFix_appends (VStr (generateSignature E)) d fctx t2 m1) as H2.
  destruct (SimpleMemory.recordFix (VStr (generateSignature E)) d fctx t2 m1)
    as [fx m2].
  destruct H2 as (-> & Hl2 & He & Hf).
  rewrite (ensureLoaded_idem m1 Hl1) in He, Hf.
  rewrite <- He in F. intros Hw.
  pose proof (search_exact E 5 m2 e Hl2 F) as S.
  assert (In (SimpleMemory.mkFix t2 (VStr (generateSignature E)) d fctx t2)
             (SimpleMemory.fixes_for (generateSignature E)
                (SimpleMemory.memory m2))) as Hin.
  { unfold SimpleMemory.fixes_for. apply filter_In. split.
    - rewrite Hf. apply in_or_app. right. now left.
    - cbn. apply String.eqb_refl. }
  exists e, (SimpleMemory.fixes_for (generateSignature E)
               (SimpleMemory.memory m2)).
  split; [| split; [| split; [exact Hin | reflexivity]]].
  - unfold AIAgent.analyzeError, bind at 1, gets. rewrite Hw, S.
    unfold bind, modify, ret.
    destruct (SimpleMemory.fixes_for (generateSignature E)
                (SimpleMemory.memory m2)) as [|f fixes]; [destruct Hin |].
    rewrite (set_aiMemory_same w m2 Hw). reflexivity.
  - apply find_some in F. destruct F as [_ F]. now apply String.eqb_eq.
Qed.

Lemma analyzeError_from_memory_witness :
  let '(sig, m1) :=
    SimpleMemory.recordError "avrdude: stk500_getsync(): not in sync"
      VNull VNull 1 (SimpleMemory.create None true) in
  let '(F, m2) :=
    SimpleMemory.recordFix (VStr sig) (VStr "select the right board") VNull 2
      m1 in
  aiMemory (set_aiMemory (Fixtures.started false 3) (Some m2)) = Some m2 /\
  exists e fixes,
    AIAgent.analyzeError (VStr "avrdude: stk500_getsync(): not in sync")
      VUndefined Fixtures.quiet
      (set_aiMemory (Fixtures.started false 3) (Some m2)) =
      (Returned (AIAgent.FromMemory e fixes 1%Q),
       set_aiMemory (Fixtures.started false 3) (Some m2)) /\
    SimpleMemory.signature e = sig /\
    In F fixes /\
    SimpleMemory.description F = VStr "select the right board".
Proof.
  pose proof (analyzeError_answers_from_memory_first
                "avrdude: stk500_getsync(): not in sync" VNull VNull
                (VStr "select the right board") VNull VUndefined 1 2
                (SimpleMemory.create None true) Fixtures.quiet) as H.
  destruct (SimpleMemory.recordError "avrdude: stk500_getsync(): not in sync"
              VNull VNull 1 (SimpleMemory.create None true)) as [sig m1].
  destruct (SimpleMemory.recordFix (VStr sig) (VStr "select the right board")
              VNull 2 m1) as [F m2].
  split; [reflexivity |].
  apply (H (set_aiMemory (Fixtures.started false 3) (Some m2))). reflexivity.
Defined.

(** X13. With a provider selected, [analyzeError] fails on an error text that
    the memory does not hold exactly but holds similar entries for: the
    statement that appends them to the query assigns to a [const], which
    throws a [TypeError] before the provider is called.  The conversation is
    as it was. *)
Theorem analyzeError_with_similar_matches_throws
    (E : string) (ctx : value) (env : Env) (w : World) (m : SimpleMemory.t)
    (x : SimpleMemory.ErrorEntry * list SimpleMemory.Fix * Q)
    (matches : list (SimpleMemory.ErrorEntry * list SimpleMemory.Fix * Q))
    (n : Z) :
  aiMemory w = Some m ->
  currentProvider w = true ->
  fst (SimpleMemory.searchSimilarErrors E 5 m) =
    SimpleMemory.Similar (x :: matches) n ->
  exists w',
    AIAgent.analyzeError (VStr E) ctx env w =
      (Threw (TypeError "Assignment to constant variable."), w') /\
    trace w' = trace w /\
    conversationHistory w' = conversationHistory w.
Proof.
  intros Hw Hsel Hs.
  unfold AIAgent.analyzeError, bind at 1, gets. rewrite Hw.
  destruct (SimpleMemory.searchSimilarErrors E 5 m) as [r m'].
  cbn [fst] in Hs. subst r.
  unfold bind, modify, gets, asks, throw, ret.
  cbn [currentProvider set_aiMemory]. rewrite Hsel. cbn [negb AIAgent.matches_of].
  eexists. split; [reflexivity |]. split; reflexivity.
Qed.

Lemma analyzeError_throws_witness :
  exists w',
    AIAgent.analyzeError (VStr "not in sync") VUndefined Fixtures.quiet
      (set_aiMemory (Fixtures.started true 3) (Some Fixtures.one_error)) =
      (Threw (TypeError "Assignment to constant variable."), w') /\
    trace w' =
      trace (set_aiMemory (Fixtures.started true 3) (Some Fixtures.one_error)) /\
    conversationHistory w' =
      conversationHistory
        (set_aiMemory (Fixtures.started true 3) (Some Fixtures.one_error)).
Proof.
  eapply (analyzeError_with_similar_matches_throws "not in sync" VUndefined
            Fixtures.quiet
            (set_aiMemory (Fixtures.started true 3) (Some Fixtures.one_error))
            Fixtures.one_error).
  - reflexivity.
  - reflexivity.
  - vm_compute. reflexivity.
Defined.

(** ** Uploading *)

Lemma truthy_text (s : string) : s <> "" -> Js.truthy (VStr s) = true.
Proof.
  intros H. cbn. destruct (String.eqb_spec s ""); [contradiction | reflexivity].
Qed.

Lemma bind_ret {A B} (a : A) (k : A -> M B) : bind (ret a) k = k a.
Proof. reflexivity. Qed.

Lemma bind_gets {A B} (f : World -> A) (k : A -> M B) (env : Env) (w : World) :
  bind (gets f) k env w = k (f w) env w.
Proof. reflexivity. Qed.

Lemma bind_asks {A B} (f : Env -> World -> A) (k : A -> M B) (env : Env)
    (w : World) :
  bind (asks f) k env w = k (f env w) env w.
Proof. reflexivity. Qed.

Lemma bind_invoke {B} (t : Collaborator) (m : string) (args : list value)
    (k : value -> M B) (env : Env) (w : World) (v : value) :
  outcome (collaborator env (trace w) (mkCall t m args)) = Returned v ->
  bind (invoke t m args) k env w =
  k v env (set_trace w (trace w ++ [Invoked (mkCall t m args)])
                     (clock w + elapsed (collaborator env (trace w)
                                           (mkCall t m args)))).
Proof. unfold bind, invoke. now intros ->. Qed.

Lemma call_trim_text (s : string) :
  call_trim (Js.or_else (VStr s) (VStr "")) = ret (VStr (Text.trim s)).
Proof.
  unfold Js.or_else. cbn [Js.truthy].
  destruct (String.eqb_spec s "") as [->|]; reflexivity.
Qed.

(** X14. An upload with sketch, board and port given frees the port first:
    when the serial monitor is connected, [executeUpload] disconnects it,
    then saves the editor content, then calls the upload of the Arduino
    service, in that order and with the trimmed arguments.  The UI is not
    asked for the values that the arguments give. *)
Theorem upload_frees_the_port_first (fields : list (string * value))
    (s b p : string) (env : Env) (w : World) :
  Js.lookup "sketchPath" fields = Some (VStr s) ->
  Js.lookup "boardFQBN" fields = Some (VStr b) ->
  Js.lookup "port" fields = Some (VStr p) ->
  Text.trim s <> "" -> Text.trim b <> "" -> Text.trim p <> "" ->
  arduinoService w = true ->
  serialMonitor w = true ->
  has_callback "saveSketch" w = true ->
  Js.truthy (property env (trace w) SerialMonitor "isConnected") = true ->
  (forall t c, target c <> ArduinoService ->
               exists v, outcome (collaborator env t c) = Returned v) ->
  trace (snd (ToolExecutor.executeUpload (VObj fields) env w)) =
    trace w ++
    [Invoked (mkCall SerialMonitor "disconnect" []);
     Invoked (mkCall UICallbacks "saveSketch" [VStr (Text.trim s)]);
     Invoked (mkCall ArduinoService "upload"
                [VStr (Text.trim s); VStr (Text.trim b); VStr (Text.trim p)])].
Proof.
  intros Hs Hb Hp Ts Tb Tp Ha Hm Hsave Hconn Hok.
  unfold ToolExecutor.executeUpload, get.
  cbn [Js.default Js.nullish Js.read]. rewrite Hs, Hb, Hp.
  repeat (rewrite bind_ret || rewrite call_trim_text).
  rewrite bind_gets, (truthy_text _ Ts). cbn [negb andb]. rewrite bind_ret.
  rewrite bind_gets, (truthy_text _ Tb). cbn [negb andb]. rewrite bind_ret.
  rewrite bind_gets, (truthy_text _ Tp). cbn [negb andb]. rewrite bind_ret.
  rewrite ?(truthy_text _ Ts), ?(truthy_text _ Tb), ?(truthy_text _ Tp).
  cbn [negb].
  rewrite bind_gets, Hm, bind_asks, Hconn.
  destruct (Hok (trace w) (mkCall SerialMonitor "disconnect" []))
    as [v1 H1]; [discriminate |].
  rewrite (bind_invoke _ _ _ _ _ _ _ H1).
  set (w1 := set_trace w _ _).
  rewrite bind_gets.
  replace (has_callback "saveSketch" w1) with true by (symmetry; exact Hsave).
  destruct (Hok (trace w1)
              (mkCall UICallbacks "saveSketch" [VStr (Text.trim s)]))
    as [v2 H2]; [discriminate |].
  unfold callback. rewrite (bind_invoke _ _ _ _ _ _ _ H2).
  set (w2 := set_trace w1 _ _).
  unfold try_catch, invoke_on. unfold bind at 1. rewrite bind_gets.
  replace (arduinoService w2) with true by (symmetry; exact Ha).
  unfold invoke.
  assert (trace w2 =
          trace w ++
          [Invoked (mkCall SerialMonitor "disconnect" []);
           Invoked (mkCall UICallbacks "saveSketch" [VStr (Text.trim s)])])
    as Ht by (subst w2 w1; cbn [trace set_trace]; now rewrite <- app_assoc).
  destruct (outcome (collaborator env (trace w2) _)) as [r|e].
  - unfold get, bind, throw, ret.
    destruct (Js.nullish r); cbn [snd trace set_trace]; rewrite Ht, <- app_assoc;
      reflexivity.
  - cbn [snd trace set_trace ret]. rewrite Ht, <- app_assoc. reflexivity.
Qed.

Lemma upload_frees_the_port_witness :
  trace (snd (ToolExecutor.executeUpload
                (VObj [("sketchPath", VStr " blink.ino ");
                       ("boardFQBN", VStr "arduino:avr:uno");
                       ("port", VStr "COM3")])
                monitoring (Fixtures.started false 3))) =
    trace (Fixtures.started false 3) ++
    [Invoked (mkCall SerialMonitor "disconnect" []);
     Invoked (mkCall UICallbacks "saveSketch"
                [VStr (Text.trim " blink.ino ")]);
     Invoked (mkCall ArduinoService "upload"
                [VStr (Text.trim " blink.ino ");
                 VStr (Text.trim "arduino:avr:uno");
                 VStr (Text.trim "COM3")])].
Proof.
  apply (upload_frees_the_port_first
           [("sketchPath", VStr " blink.ino ");
            ("boardFQBN", VStr "arduino:avr:uno");
            ("port", VStr "COM3")]
           " blink.ino " "arduino:avr:uno" "COM3" monitoring
           (Fixtures.started false 3));
    try reflexivity; try (vm_compute; discriminate).
  intros t c _. eexists. reflexivity.
Defined.

(** ** The SQLite store: signatures *)


(** ** Normal forms of error texts *)

Lemma lower_char_space (c : ascii) :
  Text.is_space (Text.lower_char c) = Text.is_space c.
Proof.
  destruct c as [[] [] [] [] [] [] [] []]; vm_compute; reflexivity.
Qed.

Lemma lower_char_idem (c : ascii) :
  Text.lower_char (Text.lower_char c) = Text.lower_char c.
Proof.
  destruct c as [[] [] [] [] [] [] [] []]; vm_compute; reflexivity.
Qed.

Lemma toLowerCase_idem (s : string) :
  Text.toLowerCase (Text.toLowerCase s) = Text.toLowerCase s.
Proof.
  induction s as [|c s IH]; cbn; [reflexivity |].
  now rewrite lower_char_idem, IH.
Qed.

Lemma all_space_lower (s : string) :
  all_space (Text.toLowerCase s) = all_space s.
Proof.
  unfold all_space. induction s as [|c s IH]; cbn; [reflexivity |].
  now rewrite lower_char_space, IH.
Qed.

(** *** [trimEnd], by recursion from the front *)

Lemma rev_string_cons (c : ascii) (s : string) :
  Text.rev_string (String c s) = (Text.rev_string s ++ String c "")%string.
Proof.
  unfold Text.rev_string. cbn [list_ascii_of_string rev].
  generalize (rev (list_ascii_of_string s)) as l. intros l.
  induction l as [|x l IH]; cbn; [reflexivity | now rewrite IH].
Qed.

Lemma rev_string_snoc (s : string) (c : ascii) :
  Text.rev_string (s ++ String c "") = String c (Text.rev_string s).
Proof.
  unfold Text.rev_string. rewrite chars_append. cbn [list_ascii_of_string].
  rewrite rev_app_distr. reflexivity.
Qed.

Lemma all_space_append (a b : string) :
  all_space (a ++ b) = all_space a && all_space b.
Proof. unfold all_space. now rewrite chars_append, forallb_app. Qed.

Lemma all_space_rev (s : string) : all_space (Text.rev_string s) = all_space s.
Proof.
  induction s as [|c s IH]; [reflexivity |].
  rewrite rev_string_cons, all_space_append, IH.
  unfold all_space at 2 3. cbn. now rewrite andb_true_r, andb_comm.
Qed.

Lemma trimStart_all_space (s : string) :
  all_space s = true -> Text.trimStart s = "".
Proof.
  unfold all_space. induction s as [|c s IH]; cbn; [reflexivity |].
  intros H. apply andb_true_iff in H. destruct H as [-> H]. exact (IH H).
Qed.

Lemma trimStart_snoc (a : string) (c : ascii) :
  Text.trimStart (a ++ String c "") =
  if all_space a then Text.trimStart (String c "")
  else (Text.trimStart a ++ String c "")%string.
Proof.
  unfold all_space. induction a as [|d a IH]; [reflexivity |].
  cbn [append Text.trimStart list_ascii_of_string forallb].
  destruct (Text.is_space d); [exact IH | reflexivity].
Qed.

Lemma trimEnd_cons (c : ascii) (s : string) :
  Text.trimEnd (String c s) =
  if all_space (String c s) then "" else String c (Text.trimEnd s).
Proof.
  unfold Text.trimEnd. rewrite rev_string_cons, trimStart_snoc, all_space_rev.
  change (all_space (String c s)) with (Text.is_space c && all_space s).
  destruct (all_space s) eqn:Hs.
  - rewrite andb_true_r. cbn [Text.trimStart].
    rewrite (trimStart_all_space (Text.rev_string s))
      by (now rewrite all_space_rev).
    destruct (Text.is_space c); reflexivity.
  - rewrite andb_false_r. apply rev_string_snoc.
Qed.

Lemma trimEnd_all_space (s : string) :
  all_space s = true -> Text.trimEnd s = "".
Proof.
  destruct s as [|c s]; [reflexivity |]. intros H.
  now rewrite trimEnd_cons, H.
Qed.

(** *** Lower case commutes with trimming and collapsing *)

Lemma lower_trimStart (s : string) :
  Text.toLowerCase (Text.trimStart s) = Text.trimStart (Text.toLowerCase s).
Proof.
  induction s as [|c s IH]; [reflexivity |].
  cbn [Text.trimStart Text.toLowerCase]. rewrite lower_char_space.
  destruct (Text.is_space c); [exact IH | reflexivity].
Qed.

Lemma lower_trimEnd (s : string) :
  Text.toLowerCase (Text.trimEnd s) = Text.trimEnd (Text.toLowerCase s).
Proof.
  induction s as [|c s IH]; [reflexivity |].
  cbn [Text.toLowerCase]. rewrite !trimEnd_cons.
  change (String (Text.lower_char c) (Text.toLowerCase s))
    with (Text.toLowerCase (String c s)).
  rewrite all_space_lower.
  destruct (all_space (String c s)); [reflexivity |].
  cbn [Text.toLowerCase]. now rewrite IH.
Qed.

Lemma lower_collapse (b : bool) (s : string) :
  Text.toLowerCase (Text.collapse_from b s) =
  Text.collapse_from b (Text.toLowerCase s).
Proof.
  revert b. induction s as [|c s IH]; intros b; [reflexivity |].
  cbn [Text.collapse_from Text.toLowerCase]. rewrite lower_char_space.
  destruct (Text.is_space c); [destruct b |]; cbn [Text.toLowerCase];
    rewrite ?IH; reflexivity.
Qed.

(** *** Collapsing commutes with trimming, and both are idempotent *)

Lemma collapse_idem (s : string) :
  (forall b, Text.collapse_from false (Text.collapse_from b s) =
             Text.collapse_from b s) /\
  Text.collapse_from true (Text.collapse_from true s) =
  Text.collapse_from true s.
Proof.
  induction s as [|c s [IHa IHb]]; [split; [intros []|]; reflexivity |].
  split; [intros b |]; cbn [Text.collapse_from];
    destruct (Text.is_space c) eqn:Hc; try destruct b;
    cbn [Text.collapse_from]; rewrite ?Hc;
    change (Text.is_space " ") with true; cbv iota;
    rewrite ?IHa, ?IHb; reflexivity.
Qed.

Lemma collapse_true_trimStart (s : string) :
  Text.collapse_from true s = Text.collapse_from false (Text.trimStart s).
Proof.
  induction s as [|c s IH]; [reflexivity |].
  cbn [Text.collapse_from Text.trimStart].
  destruct (Text.is_space c) eqn:Hc; [exact IH |].
  cbn [Text.collapse_from]. now rewrite Hc.
Qed.

Lemma trimStart_collapse_true (s : string) :
  Text.trimStart (Text.collapse_from true s) = Text.collapse_from true s.
Proof.
  induction s as [|c s IH]; [reflexivity |].
  cbn [Text.collapse_from].
  destruct (Text.is_space c) eqn:Hc; [exact IH |].
  cbn [Text.trimStart]. now rewrite Hc.
Qed.

Lemma trimStart_collapse (s : string) :
  Text.trimStart (Text.collapse_spaces s) =
  Text.collapse_spaces (Text.trimStart s).
Proof.
  unfold Text.collapse_spaces. rewrite <- collapse_true_trimStart.
  destruct s as [|c s]; [reflexivity |]. cbn [Text.collapse_from].
  destruct (Text.is_space c) eqn:Hc.
  - change (Text.trimStart (String " " ?x)) with (Text.trimStart x).
    cbn [Text.trimStart]. change (Text.is_space " ") with true. cbv iota.
    apply trimStart_collapse_true.
  - cbn [Text.trimStart]. now rewrite Hc.
Qed.

Lemma all_space_collapse (b : bool) (s : string) :
  all_space (Text.collapse_from b s) = all_space s.
Proof.
  unfold all_space. revert b. induction s as [|c s IH]; intros b;
    [reflexivity |].
  cbn [Text.collapse_from list_ascii_of_string forallb].
  destruct (Text.is_space c) eqn:Hc; [destruct b |];
    cbn [list_ascii_of_string forallb]; rewrite ?Hc, ?IH; reflexivity.
Qed.

Lemma collapse_all_space (b : bool) (s : string) :
  all_space s = true ->
  Text.collapse_from b s =
  if b then "" else match s with EmptyString => "" | _ => " " end.
Proof.
  unfold all_space. revert b. induction s as [|c s IH]; intros b H;
    [destruct b; reflexivity |].
  cbn in H. apply andb_true_iff in H. destruct H as [Hc H].
  cbn [Text.collapse_from]. rewrite Hc.
  destruct b; rewrite (IH true H); reflexivity.
Qed.

Lemma trimEnd_collapse (b : bool) (s : string) :
  Text.trimEnd (Text.collapse_from b s) =
  Text.collapse_from b (Text.trimEnd s).
Proof.
  revert b. induction s as [|c s IH]; intros b; [reflexivity |].
  rewrite (trimEnd_cons c s).
  destruct (all_space (String c s)) eqn:Ha.
  - rewrite (collapse_all_space b _ Ha). destruct b; reflexivity.
  - cbn [Text.collapse_from]. destruct (Text.is_space c) eqn:Hc.
    + assert (all_space s = false) as Hs
        by (unfold all_space in *; cbn in Ha; now rewrite Hc in Ha).
      destruct b; [apply IH |].
      rewrite trimEnd_cons.
      change (all_space (String " " ?x)) with (Text.is_space " " && all_space x).
      rewrite all_space_collapse, Hs. cbn [andb]. now rewrite IH.
    + rewrite trimEnd_cons.
      change (all_space (String c ?x)) with (Text.is_space c && all_space x).
      rewrite Hc. cbn [andb]. now rewrite IH.
Qed.

Lemma trim_collapse (s : string) :
  Text.trim (Text.collapse_spaces s) = Text.collapse_spaces (Text.trim s).
Proof.
  unfold Text.trim. rewrite trimStart_collapse.
  unfold Text.collapse_spaces. apply trimEnd_collapse.
Qed.

Lemma trimStart_idem (s : string) :
  Text.trimStart (Text.trimStart s) = Text.trimStart s.
Proof.
  induction s as [|c s IH]; [reflexivity |]. cbn [Text.trimStart].
  destruct (Text.is_space c) eqn:Hc; [exact IH |].
  cbn [Text.trimStart]. now rewrite Hc.
Qed.

Lemma trimEnd_idem (s : string) :
  Text.trimEnd (Text.trimEnd s) = Text.trimEnd s.
Proof.
  induction s as [|c s IH]; [reflexivity |]. rewrite (trimEnd_cons c s).
  destruct (all_space (String c s)) eqn:Ha; [reflexivity |].
  rewrite trimEnd_cons.
  assert (all_space (String c (Text.trimEnd s)) = false) as ->; [| now rewrite IH].
  unfold all_space in *. cbn in *.
  destruct (Text.is_space c); [| reflexivity]. cbn in *.
  clear IH. induction s as [|d s IH]; [discriminate |].
  rewrite trimEnd_cons. unfold all_space. cbn in *.
  destruct (Text.is_space d) eqn:Hd; cbn in *; [| now rewrite Hd].
  rewrite Ha. cbn. rewrite Hd. cbn. exact (IH Ha).
Qed.

Lemma trimStart_trimEnd (s : string) :
  Text.trimStart (Text.trimEnd s) = Text.trimEnd (Text.trimStart s).
Proof.
  induction s as [|c s IH]; [reflexivity |]. rewrite (trimEnd_cons c s).
  cbn [Text.trimStart].
  destruct (all_space (String c s)) eqn:Ha.
  - unfold all_space in Ha. cbn in Ha. apply andb_true_iff in Ha.
    destruct Ha as [-> Hs]. rewrite (trimStart_all_space s Hs). reflexivity.
  - cbn [Text.trimStart]. destruct (Text.is_space c) eqn:Hc; [exact IH |].
    rewrite trimEnd_cons, Ha. reflexivity.
Qed.

Lemma trim_idem (s : string) : Text.trim (Text.trim s) = Text.trim s.
Proof.
  unfold Text.trim. rewrite trimStart_trimEnd, trimStart_idem.
  apply trimEnd_idem.
Qed.

Lemma lower_trim (s : string) :
  Text.toLowerCase (Text.trim s) = Text.trim (Text.toLowerCase s).
Proof. unfold Text.trim. now rewrite lower_trimEnd, lower_trimStart. Qed.

Lemma normalize_lower (s : string) :
  normalize (Text.toLowerCase s) = normalize s.
Proof. unfold normalize. now rewrite toLowerCase_idem. Qed.

Lemma normalize_collapse (s : string) :
  normalize (Text.collapse_spaces s) = normalize s.
Proof.
  unfold normalize, Text.collapse_spaces. rewrite lower_collapse.
  now rewrite (proj1 (collapse_idem (Text.toLowerCase s)) false).
Qed.

Lemma normalize_trim (s : string) : normalize (Text.trim s) = normalize s.
Proof.
  unfold normalize. rewrite lower_trim, <- trim_collapse. apply trim_idem.
Qed.

(** X16. The signature of an error text does not depend on letter case, on
    the amount of white space between words, or on white space around the
    text: lower-casing the text, collapsing its runs of white space, or
    trimming it, leaves the signature as it is.  Normalising is idempotent,
    so the normal form of a text has the signature of the text. *)
Theorem signature_ignores_case_and_spacing (text : string) :
  generateSignature (Text.toLowerCase text) = generateSignature text /\
  generateSignature (Text.collapse_spaces text) = generateSignature text /\
  generateSignature (Text.trim text) = generateSignature text /\
  normalize (normalize text) = normalize text /\
  generateSignature (normalize text) = generateSignature text.
Proof.
  assert (normalize (normalize text) = normalize text) as H.
  { unfold normalize at 2.
    now rewrite normalize_trim, normalize_collapse, normalize_lower. }
  repeat split; try apply signature_of_normal_form;
    auto using normalize_lower, normalize_collapse, normalize_trim.
Qed.

(** ** Editing by line numbers *)

Lemma split_not_nil (s : string) : EditCode.split s <> [].
Proof.
  induction s as [|c s IH]; cbn [EditCode.split]; [discriminate |].
  destruct (Ascii.eqb c (ascii_of_nat 10)); [discriminate |].
  destruct (EditCode.split s); discriminate.
Qed.

Lemma join_split (s : string) : EditCode.join (EditCode.split s) = s.
Proof.
  induction s as [|c s IH]; [reflexivity |]. cbn [EditCode.split].
  pose proof (split_not_nil s) as Hn.
  destruct (Ascii.eqb_spec c (ascii_of_nat 10)) as [->|Hc].
  - cbn [EditCode.join]. destruct (EditCode.split s) as [|l ls];
      [contradiction |]. now rewrite IH.
  - destruct (EditCode.split s) as [|l ls]; [contradiction |].
    cbn [EditCode.join] in *. destruct ls; cbn; now rewrite <- IH.
Qed.

Lemma one_line_cons (c : ascii) (l : string) :
  one_line (String c l) = negb (Ascii.eqb c (ascii_of_nat 10)) && one_line l.
Proof.
  unfold one_line. cbn [list_ascii_of_string existsb].
  now rewrite negb_orb, Ascii.eqb_sym.
Qed.

Lemma split_one_line (s : string) :
  Forall (fun l => one_line l = true) (EditCode.split s).
Proof.
  induction s as [|c s IH]; cbn [EditCode.split].
  - constructor; [reflexivity | constructor].
  - destruct (Ascii.eqb c (ascii_of_nat 10)) eqn:Hc.
    + constructor; [reflexivity | exact IH].
    + destruct (EditCode.split s) as [|l ls];
        [constructor; [| constructor] |].
      * rewrite one_line_cons, Hc. reflexivity.
      * inversion IH as [|? ? Hl Hls]; subst. constructor; [| exact Hls].
        rewrite one_line_cons, Hc. exact Hl.
Qed.

Lemma split_append_line (l : string) (rest : string) :
  one_line l = true ->
  EditCode.split (l ++ Text.newline ++ rest) = l :: EditCode.split rest.
Proof.
  induction l as [|c l IH]; intros H; [reflexivity |].
  rewrite one_line_cons in H. apply andb_true_iff in H. destruct H as [Hc H].
  apply negb_true_iff in Hc.
  cbn [append EditCode.split]. rewrite Hc.
  change ((l ++ Text.newline ++ rest)%string)
    with ((l ++ Text.newline ++ rest)%string).
  rewrite (IH H). reflexivity.
Qed.

Lemma split_single_line (l : string) :
  one_line l = true -> EditCode.split l = [l].
Proof.
  induction l as [|c l IH]; intros H; [reflexivity |].
  rewrite one_line_cons in H. apply andb_true_iff in H. destruct H as [Hc H].
  apply negb_true_iff in Hc.
  cbn [EditCode.split]. rewrite Hc, (IH H). reflexivity.
Qed.

Lemma split_join (lines : list string) :
  lines <> [] -> Forall (fun l => one_line l = true) lines ->
  EditCode.split (EditCode.join lines) = lines.
Proof.
  induction lines as [|l ls IH]; [contradiction |]. intros _ H.
  inversion H as [|? ? Hl Hls]; subst. cbn [EditCode.join].
  destruct ls as [|l' ls]; [now apply split_single_line |].
  rewrite split_append_line by exact Hl. f_equal. apply IH; [discriminate |].
  exact Hls.
Qed.

Lemma slice_to_firstn {A} (k : Z) (l : list A) :
  0 <= k -> Js.slice_to k l = firstn (Z.to_nat k) l.
Proof.
  intros Hk. unfold Js.slice_to. destruct (Z.ltb_spec k 0); [lia |].
  destruct (Z.le_ge_cases k (Z.of_nat (List.length l))).
  - now rewrite Z.min_l.
  - rewrite Z.min_r by lia. rewrite Nat2Z.id.
    rewrite firstn_all. rewrite firstn_all2 by lia. reflexivity.
Qed.

Lemma slice_from_skipn {A} (k : Z) (l : list A) :
  0 <= k -> Js.slice_from k l = skipn (Z.to_nat k) l.
Proof.
  intros Hk. unfold Js.slice_from. destruct (Z.ltb_spec k 0); [lia |].
  destruct (Z.le_ge_cases k (Z.of_nat (List.length l))).
  - now rewrite Z.min_l.
  - rewrite Z.min_r by lia. rewrite Nat2Z.id.
    rewrite skipn_all. rewrite skipn_all2 by lia. reflexivity.
Qed.

Lemma Forall_firstn_skipn {A} (P : A -> Prop) (n : nat) (l : list A) :
  Forall P l -> Forall P (firstn n l) /\ Forall P (skipn n l).
Proof.
  intros H. rewrite <- (firstn_skipn n l) in H. now apply Forall_app in H.
Qed.

Lemma codeLines_facts (newCode : string) :
  newCode <> "" ->
  EditCode.codeLines (Some newCode) = EditCode.split newCode /\
  EditCode.codeLines (Some newCode) <> [].
Proof.
  intros H. destruct newCode as [|c r]; [contradiction |].
  split; [reflexivity | apply split_not_nil].
Qed.

(** X17. Inserting code at a line and then deleting the inserted lines gives
    back the text of the editor, character for character.  The line may be
    any from 1 to one past the last; the inserted code is any text that is
    not empty; it takes as many lines as it has line breaks, plus one. *)
Theorem insert_then_delete_restores_the_code
    (currentCode newCode : string) (startLine : Z) :
  newCode <> "" ->
  1 <= startLine <= Z.of_nat (List.length (EditCode.split currentCode)) + 1 ->
  let k := Z.of_nat (List.length (EditCode.split newCode)) in
  exists inserted,
    EditCode.newCodeStr "insert" currentCode startLine None (Some newCode) =
      Some inserted /\
    EditCode.newCodeStr "delete" inserted startLine (Some (startLine + k - 1))
      None = Some currentCode.
Proof.
  intros Hne Hrange k. unfold EditCode.newCodeStr, EditCode.edit.
  cbn [String.eqb Ascii.eqb Bool.eqb andb].
  destruct (codeLines_facts newCode Hne) as [Hcl Hcn]. rewrite Hcl in *.
  set (lines := EditCode.split currentCode) in *.
  set (cl := EditCode.split newCode) in *.
  rewrite slice_to_firstn, slice_from_skipn by lia.
  set (start := Z.to_nat (startLine - 1)).
  eexists. split; [reflexivity |].
  assert (firstn start lines ++ cl ++ skipn start lines <> []) as Hnn.
  { destruct cl; [contradiction |]. destruct (firstn start lines); discriminate. }
  rewrite split_join; [| exact Hnn |].
  - assert (k <> 0) as Hk by (subst k; destruct cl; [contradiction | cbn; lia]).
    destruct (Z.eqb_spec (startLine + k - 1) 0) as [E|_]; [lia |].
    rewrite slice_to_firstn, slice_from_skipn by lia.
    assert (List.length (firstn start lines) = start) as Hf
      by (rewrite length_firstn; subst start; lia).
    replace (Z.to_nat (startLine - 1)) with start by reflexivity.
    replace (Z.to_nat (startLine + k - 1 - 1 + 1))
      with (start + List.length cl)%nat by (subst start k; lia).
    rewrite firstn_app, Hf, Nat.sub_diag, firstn_O, app_nil_r.
    rewrite firstn_all2 by lia.
    rewrite skipn_app, Hf.
    rewrite (skipn_all2 (firstn start lines)) by lia.
    replace (start + List.length cl - start)%nat with (List.length cl) by lia.
    rewrite skipn_app, skipn_all, Nat.sub_diag. cbn [app skipn].
    rewrite firstn_skipn. subst lines. now rewrite join_split.
  - destruct (Forall_firstn_skipn _ start lines (split_one_line currentCode)).
    repeat (apply Forall_app; split); try assumption. apply split_one_line.
Qed.

Lemma insert_then_delete_witness :
  let currentCode := ("void setup() {}" ++ Text.newline ++ "void loop() {}")%string in
  let newCode := ("int led = 13;" ++ Text.newline)%string in
  let k := Z.of_nat (List.length (EditCode.split newCode)) in
  exists inserted,
    EditCode.newCodeStr "insert" currentCode 2 None (Some newCode) =
      Some inserted /\
    EditCode.newCodeStr "delete" inserted 2 (Some (2 + k - 1)) None =
      Some currentCode.
Proof.
  apply (insert_then_delete_restores_the_code
           ("void setup() {}" ++ Text.newline ++ "void loop() {}")%string
           ("int led = 13;" ++ Text.newline)%string 2).
  - discriminate.
  - vm_compute. split; discriminate.
Defined.

(** X18. Within bounds, replacing lines [startLine..endLine] is deleting them
    and then inserting the new code at [startLine]: both give the same
    lines.  A replacement by no code or by the empty string is the plain
    deletion. *)
Theorem replace_is_delete_then_insert (lines : list string)
    (startLine endLine : Z) (newCode : option string) :
  1 <= startLine <= endLine ->
  endLine <= Z.of_nat (List.length lines) ->
  exists deleted replaced n m k,
    EditCode.edit "delete" lines startLine (Some endLine) None =
      Some (deleted, n) /\
    EditCode.edit "replace" lines startLine (Some endLine) newCode =
      Some (replaced, m) /\
    EditCode.edit "insert" deleted startLine None newCode =
      Some (replaced, k) /\
    n = endLine - startLine + 1 /\ m = n /\
    Z.of_nat (List.length deleted) = Z.of_nat (List.length lines) - n /\
    (newCode = None \/ newCode = Some "" -> replaced = deleted).
Proof.
  intros Hs He. unfold EditCode.edit.
  cbn [String.eqb Ascii.eqb Bool.eqb andb].
  destruct (Z.eqb_spec endLine 0) as [E|_]; [lia |].
  rewrite !slice_to_firstn, !slice_from_skipn by lia.
  replace (Z.to_nat (endLine - 1 + 1)) with (Z.to_nat endLine) by lia.
  set (start := Z.to_nat (startLine - 1)).
  set (stop := Z.to_nat endLine).
  assert (List.length (firstn start lines) = start) as Hf
    by (rewrite length_firstn; subst start; lia).
  do 5 eexists. split; [reflexivity |]. split; [reflexivity |].
  split; [| split; [lia | split; [reflexivity | split]]].
  - rewrite slice_to_firstn, slice_from_skipn by lia. fold start.
    f_equal. f_equal.
    rewrite firstn_app, Hf, Nat.sub_diag, firstn_O, app_nil_r.
    rewrite firstn_all2 by lia.
    rewrite skipn_app, Hf, Nat.sub_diag.
    rewrite (skipn_all2 (firstn start lines)) by lia. reflexivity.
  - rewrite length_app, Hf, length_skipn. subst start stop. lia.
  - intros [-> | ->]; reflexivity.
Qed.

Lemma replace_is_delete_then_insert_witness :
  exists deleted replaced n m k,
    EditCode.edit "delete" ["a"; "b"; "c"; "d"] 2 (Some 3) None =
      Some (deleted, n) /\
    EditCode.edit "replace" ["a"; "b"; "c"; "d"] 2 (Some 3) (Some "x") =
      Some (replaced, m) /\
    EditCode.edit "insert" deleted 2 None (Some "x") = Some (replaced, k) /\
    n = 3 - 2 + 1 /\ m = n /\
    Z.of_nat (List.length deleted) =
      Z.of_nat (List.length ["a"; "b"; "c"; "d"]) - n /\
    (Some "x" = None \/ Some "x" = Some "" -> replaced = deleted).
Proof.
  apply (replace_is_delete_then_insert ["a"; "b"; "c"; "d"] 2 3 (Some "x"));
    cbn; lia.
Defined.

(** X19. [executeEditCode] does not check its line numbers.  A deletion at
    line 0 deletes nothing: [start] is -1, so the lines before it are all
    but the last, and the lines after it are all of them; the editor gets
    its text nearly twice.  And when [endLine] is before [startLine], the
    lines between them are repeated instead of removed: the text grows by
    [startLine - 1 - endLine] lines, which is what a negative
    [linesAffected] reports. *)
Theorem edit_code_does_not_check_bounds (lines : list string) :
  (forall newCode,
     EditCode.edit "delete" lines 0 None newCode =
       Some (removelast lines ++ lines, 1)) /\
  (forall startLine endLine newCode,
     1 <= endLine < startLine ->
     startLine <= Z.of_nat (List.length lines) + 1 ->
     exists newLines,
       EditCode.edit "delete" lines startLine (Some endLine) newCode =
         Some (newLines, endLine - startLine + 1) /\
       Z.of_nat (List.length newLines) =
         Z.of_nat (List.length lines) + (startLine - 1 - endLine) /\
       Z.of_nat (List.length lines) <= Z.of_nat (List.length newLines)).
Proof.
  split.
  - intros newCode. unfold EditCode.edit.
    cbn [String.eqb Ascii.eqb Bool.eqb andb]. f_equal. f_equal. f_equal.
    + unfold Js.slice_to. cbn [Z.sub Z.add Z.opp Z.ltb Z.compare Z.pos_sub].
      replace (Z.to_nat (Z.max (Z.of_nat (List.length lines) + -1) 0))
        with (List.length lines - 1)%nat by lia.
      clear. induction lines as [|x l IH]; [reflexivity |].
      destruct l as [|y l]; [reflexivity |].
      cbn [List.length Nat.sub firstn removelast] in *.
      rewrite Nat.sub_0_r in IH. now rewrite IH.
    + unfold Js.slice_from. cbn. rewrite Z.min_l by lia. reflexivity.
  - intros startLine endLine newCode Hr Hs. unfold EditCode.edit.
    cbn [String.eqb Ascii.eqb Bool.eqb andb].
    destruct (Z.eqb_spec endLine 0) as [E|_]; [lia |].
    rewrite slice_to_firstn, slice_from_skipn by lia.
    replace (endLine - 1 - (startLine - 1) + 1) with (endLine - startLine + 1)
      by lia.
    eexists. split; [reflexivity |].
    rewrite length_app, length_firstn, length_skipn. lia.
Qed.

(** ** Searching and replacing *)

Lemma starts_with_split (p s : string) :
  Text.starts_with p s = true <-> exists rest, s = (p ++ rest)%string.
Proof.
  revert s. induction p as [|a p IH]; intros s; cbn [Text.starts_with].
  - split; [intros _; exists s; reflexivity | reflexivity].
  - destruct s as [|b s].
    + split; [discriminate | intros [rest H]; discriminate].
    + rewrite andb_true_iff, IH. split.
      * intros [Hab [rest ->]]. apply Ascii.eqb_eq in Hab. subst b.
        exists rest. reflexivity.
      * intros [rest [= -> ->]]. split; [apply Ascii.eqb_refl |].
        exists rest. reflexivity.
Qed.

Lemma indexOf_none (s p : string) :
  EditorText.indexOf s p = None <-> Text.includes s p = false.
Proof.
  induction s as [|c s IH]; cbn [EditorText.indexOf Text.includes].
  - destruct (Text.starts_with p ""); cbn; split; congruence.
  - destruct (Text.starts_with p (String c s)); cbn; [split; discriminate |].
    rewrite <- IH. destruct (EditorText.indexOf s p); split; congruence.
Qed.

Lemma length_append (a b : string) :
  String.length (a ++ b) = (String.length a + String.length b)%nat.
Proof. induction a as [|c a IH]; cbn; [reflexivity | now rewrite IH]. Qed.

Lemma drop_append (a b : string) :
  EditorText.drop (String.length a) (a ++ b) = b.
Proof. induction a as [|c a IH]; cbn; [reflexivity | exact IH]. Qed.

(** The first occurrence: the text splits there, and nowhere before. *)
Lemma indexOf_some (s p : string) (i : nat) :
  EditorText.indexOf s p = Some i ->
  exists after,
    s = (Text.take i s ++ p ++ after)%string /\
    String.length (Text.take i s) = i /\
    EditorText.drop (i + String.length p) s = after /\
    forall before' after',
      s = (before' ++ p ++ after')%string -> (i <= String.length before')%nat.
Proof.
  revert i. induction s as [|c s IH]; intros i;
    cbn [EditorText.indexOf].
  - destruct (Text.starts_with p "") eqn:Hp; [| discriminate].
    intros [= <-]. apply starts_with_split in Hp. destruct Hp as [rest Hr].
    exists rest. cbn [Text.take append String.length Nat.add].
    repeat split; [exact Hr | | intros; lia].
    rewrite Hr at 1. apply drop_append.
  - destruct (Text.starts_with p (String c s)) eqn:Hp.
    + intros [= <-]. apply starts_with_split in Hp. destruct Hp as [rest Hr].
      exists rest. cbn [Text.take append String.length Nat.add].
      repeat split; [exact Hr | | intros; lia].
      rewrite Hr at 1. apply drop_append.
    + destruct (EditorText.indexOf s p) as [j|] eqn:Hj; [| discriminate].
      intros [= <-]. destruct (IH j eq_refl) as (after & Hs & Hl & Hd & Hmin).
      exists after. cbn [Text.take append String.length Nat.add EditorText.drop].
      repeat split; [now rewrite <- Hs | now rewrite Hl | exact Hd |].
      intros before' after' H. destruct before' as [|b before'].
      * cbn [append] in H.
        assert (Text.starts_with p (String c s) = true) as Hc
          by (apply starts_with_split; exists after'; exact H).
        congruence.
      * cbn [append String.length] in *. injection H as _ H.
        specialize (Hmin _ _ H). lia.
Qed.

(** X20. Replacing without [replaceAll] touches the first occurrence only:
    the code splits into what comes before the first occurrence of the
    search text, the search text, and the rest, and the new code has the
    replacement between the same two parts, with a count of 1.  When the
    search text does not occur, the code is unchanged and the count is 0.
    An empty search text occurs at position 0: the replacement is put in
    front of the code. *)
Theorem replaceFirst_replaces_the_first_occurrence
    (code searchText replaceText : string) :
  (Text.includes code searchText = false ->
   EditorText.replaceFirst code searchText replaceText = (code, 0)) /\
  (Text.includes code searchText = true ->
   exists before after,
     code = (before ++ searchText ++ after)%string /\
     EditorText.replaceFirst code searchText replaceText =
       ((before ++ replaceText ++ after)%string, 1) /\
     forall before' after',
       code = (before' ++ searchText ++ after')%string ->
       (String.length before <= String.length before')%nat) /\
  EditorText.replaceFirst code "" replaceText =
    ((replaceText ++ code)%string, 1) /\
  (fst (EditorText.replaceFirst code searchText searchText) = code).
Proof.
  unfold EditorText.replaceFirst. split; [| split; [| split]].
  - intros H. apply indexOf_none in H. now rewrite H.
  - intros H. destruct (EditorText.indexOf code searchText) as [i|] eqn:Hi.
    + destruct (indexOf_some _ _ _ Hi) as (after & Hs & Hl & Hd & Hmin).
      exists (Text.take i code), after. rewrite Hd, Hl.
      repeat split; [exact Hs | exact Hmin].
    + apply indexOf_none in Hi. congruence.
  - destruct code; reflexivity.
  - destruct (EditorText.indexOf code searchText) as [i|] eqn:Hi;
      [| reflexivity].
    destruct (indexOf_some _ _ _ Hi) as (after & Hs & Hl & Hd & Hmin).
    cbn [fst]. rewrite Hd. symmetry. exact Hs.
Qed.

Lemma numbered_lines (lines : list string) : forall (start i : nat) (l : string),
  In (i, l) (combine (seq start (List.length lines)) lines) ->
  (start <= i < start + List.length lines)%nat /\
  nth_error lines (i - start) = Some l.
Proof.
  induction lines as [|x lines IH]; intros start i l; cbn [List.length seq combine];
    [intros [] |].
  intros [[= <- <-] | H].
  - split; [lia |]. now rewrite Nat.sub_diag.
  - destruct (IH _ _ _ H) as [Hr Hn]. split; [lia |].
    replace (i - start)%nat with (S (i - S start)) by lia. exact Hn.
Qed.

Lemma numbered_sorted (lines : list string) (f : nat * string -> bool) :
  forall start,
  StronglySorted Z.lt
    (map (fun x : nat * string => Z.of_nat (fst x))
         (filter f (combine (seq start (List.length lines)) lines))).
Proof.
  induction lines as [|x lines IH]; intros start;
    cbn [List.length seq combine filter map]; [constructor |].
  destruct (f (start, x)); [| apply IH].
  cbn [map fst]. constructor; [apply IH |].
  apply Forall_forall. intros z Hz. apply in_map_iff in Hz.
  destruct Hz as ([i l] & <- & Hin). apply filter_In in Hin.
  destruct Hin as [Hin _]. apply numbered_lines in Hin. cbn [fst]. lia.
Qed.

Lemma filter_numbered_length (lines : list string) (g : string -> bool) :
  forall start,
  List.length (filter (fun x : nat * string => g (snd x))
                 (combine (seq start (List.length lines)) lines)) =
  List.length (filter g lines).
Proof.
  induction lines as [|x lines IH]; intros start;
    cbn [List.length seq combine filter snd]; [reflexivity |].
  destruct (g x); cbn [List.length]; now rewrite IH.
Qed.

Lemma slice_to_prefix {A} (k : Z) (l : list A) :
  0 <= k -> exists rest, l = Js.slice_to k l ++ rest.
Proof.
  intros Hk. unfold Js.slice_to. destruct (Z.ltb_spec k 0); [lia |].
  eexists. symmetry. apply firstn_skipn.
Qed.

(** X21. The plain search of [executeSearchCode] reports lines of the editor
    that contain the search text, letter case aside: each match carries the
    1-based number of such a line and the line trimmed, the matches come in
    the order of the lines, and at most 50 are handed out, while
    [matchCount] counts every matching line. *)
Theorem searchPlain_reports_matching_lines (code searchText : string) :
  let lines := EditCode.split code in
  let contains (line : string) :=
    Text.includes (Text.toLowerCase line) (Text.toLowerCase searchText) in
  let '(matchCount, matches) := EditorText.searchPlain code searchText in
  matchCount = Z.of_nat (List.length (filter contains lines)) /\
  Z.of_nat (List.length matches) = Z.min 50 matchCount /\
  StronglySorted Z.lt (map fst matches) /\
  forall n content, In (n, content) matches ->
    exists line,
      1 <= n <= Z.of_nat (List.length lines) /\
      nth_error lines (Z.to_nat (n - 1)) = Some line /\
      contains line = true /\
      content = Text.trim line.
Proof.
  intros lines contains. unfold EditorText.searchPlain. cbv zeta. fold lines.
  set (numbered := combine (seq 1 (List.length lines)) lines).
  set (all := map (fun x : nat * string => (Z.of_nat (fst x), Text.trim (snd x)))
                  (filter (EditorText.found searchText) numbered)).
  destruct (slice_to_prefix 50 all ltac:(lia)) as [rest Hrest].
  split; [| split; [| split]].
  - subst all numbered. rewrite length_map.
    rewrite <- (filter_numbered_length lines contains 1). reflexivity.
  - unfold Js.slice_to. cbn [Z.ltb Z.compare]. rewrite length_firstn. lia.
  - pose proof (numbered_sorted lines (EditorText.found searchText) 1) as S.
    fold numbered in S.
    assert (map fst all =
            map (fun x : nat * string => Z.of_nat (fst x))
                (filter (EditorText.found searchText) numbered)) as E
      by (subst all; rewrite map_map; reflexivity).
    rewrite <- E, Hrest, map_app in S. clear E.
    revert S. generalize (map fst (Js.slice_to 50 all)) as l.
    induction l as [|z l IH]; intros S; [constructor |].
    cbn [app] in S. inversion S as [|? ? S1 S2]; subst.
    constructor; [exact (IH S1) |].
    apply Forall_app in S2. tauto.
  - intros n content Hin.
    assert (In (n, content) all) as Hall
      by (rewrite Hrest; apply in_or_app; now left).
    subst all. apply in_map_iff in Hall.
    destruct Hall as ([i l] & [= <- <-] & Hf). apply filter_In in Hf.
    destruct Hf as [Hnum Hfound]. subst numbered.
    apply numbered_lines in Hnum. destruct Hnum as [Hr Hn].
    exists l. cbn [fst snd]. split; [lia |]. split.
    + replace (Z.to_nat (Z.of_nat i - 1)) with (i - 1)%nat by lia. exact Hn.
    + split; [exact Hfound | reflexivity].
Qed.

(** ** Providers and models *)

(** X22. Every entry of the model list that the agent offers after
    [initializeProviders] is routed back to the provider that lists it:
    [getProviderFromModel] of its id is its provider, under which the
    provider's class is registered and has the model.  The list has the 15
    models of the three providers, each once, each with a display name of
    its own. *)
Theorem unified_models_route_to_their_provider
    (sdk : Providers.ProviderClass -> string -> option JsError) :
  (forall c, sdk c "temp-key" = None) ->
  exists list,
    AgentProviders.getUnifiedModelList sdk
      (AgentProviders.initializeProviders AgentProviders.create) =
      Returned list /\
    List.length list = 15%nat /\
    NoDup (map AgentProviders.id list) /\
    Forall (fun e =>
              AgentProviders.getProviderFromModel (VStr (AgentProviders.id e)) =
                Some (AgentProviders.provider e) /\
              (exists c,
                 Js.lookup_by (AgentProviders.provider e)
                   (AgentProviders.providers
                      (AgentProviders.initializeProviders
                         AgentProviders.create)) = Some c /\
                 In (AgentProviders.id e) (Providers.getAvailableModels c)) /\
              AgentProviders.displayName e <> AgentProviders.id e)
           list.
Proof.
  intros Hsdk. unfold AgentProviders.getUnifiedModelList.
  cbn [AgentProviders.initializeProviders AgentProviders.registerProvider
       AgentProviders.create AgentProviders.providers
       AgentProviders.map_set String.eqb Ascii.eqb Bool.eqb
       AgentProviders.currentProvider].
  cbn [AgentProviders.unified]. unfold Providers.new. rewrite !Hsdk.
  eexists. split; [reflexivity |]. split; [reflexivity |]. split.
  - cbn. repeat (constructor; [cbn; intuition discriminate |]). constructor.
  - repeat (constructor;
            [split; [reflexivity |];
             split; [eexists; split; [reflexivity | cbn; tauto] | discriminate]
            |]).
    constructor.
Qed.

Lemma unified_models_witness :
  exists list,
    AgentProviders.getUnifiedModelList (fun _ _ => None)
      (AgentProviders.initializeProviders AgentProviders.create) =
      Returned list /\
    List.length list = 15%nat /\
    NoDup (map AgentProviders.id list) /\
    Forall (fun e =>
              AgentProviders.getProviderFromModel (VStr (AgentProviders.id e)) =
                Some (AgentProviders.provider e) /\
              (exists c,
                 Js.lookup_by (AgentProviders.provider e)
                   (AgentProviders.providers
                      (AgentProviders.initializeProviders
                         AgentProviders.create)) = Some c /\
                 In (AgentProviders.id e) (Providers.getAvailableModels c)) /\
              AgentProviders.displayName e <> AgentProviders.id e)
           list.
Proof.
  apply (unified_models_route_to_their_provider (fun _ _ => None)).
  reflexivity.
Defined.

Lemma starts_with_trans (a b s : string) :
  Text.starts_with a b = true -> Text.starts_with b s = true ->
  Text.starts_with a s = true.
Proof.
  intros Hab Hbs. apply starts_with_split in Hab, Hbs.
  destruct Hab as [r1 ->]. destruct Hbs as [r2 ->].
  apply starts_with_split. exists (r1 ++ r2)%string. apply append_assoc.
Qed.

(** X23. [setProvider] selects a provider only under a registered name and
    with a key that passes the format check of its class; the provider then
    has that key, and the model given or else the default model of the
    class.  When it throws, the provider selected before stays selected.
    The checks are of the format only and do not tell the providers apart:
    every key that passes for Claude passes for OpenAI. *)
Theorem setProvider_selects_only_with_a_valid_key
    (sdk : Providers.ProviderClass -> string -> option JsError)
    (providerName apiKey : string) (model : value) (a : AgentProviders.t) :
  (let '(o, a') := AgentProviders.setProvider sdk providerName apiKey model a in
   AgentProviders.providers a' = AgentProviders.providers a /\
   match o with
   | Returned p =>
       Js.lookup_by providerName (AgentProviders.providers a) =
         Some (Providers.class p) /\
       Providers.validateApiKey (Providers.class p) apiKey = true /\
       Providers.apiKey p = apiKey /\
       Providers.model p =
         Js.or_else model (VStr (Providers.DEFAULT_MODEL (Providers.class p))) /\
       AgentProviders.currentProvider a' = Some p
   | Threw _ => a' = a
   end) /\
  (Providers.validateApiKey Providers.ClaudeProvider apiKey = true ->
   Providers.validateApiKey Providers.OpenAIProvider apiKey = true).
Proof.
  split.
  - unfold AgentProviders.setProvider, Providers.new.
    destruct (Js.lookup_by providerName (AgentProviders.providers a))
      as [c|]; [| split; reflexivity].
    destruct (sdk c apiKey); [split; reflexivity |].
    destruct (Providers.validateApiKey c apiKey) eqn:V; [| split; reflexivity].
    cbn. repeat split; try reflexivity. exact V.
  - unfold Providers.validateApiKey. intros H. apply andb_true_iff in H.
    destruct H as [-> H]. cbn [andb].
    exact (starts_with_trans "sk-" "sk-ant-" apiKey eq_refl H).
Qed.

(** ** The key store *)

Lemma lookup_map_set {V} (k k' : string) (v : V) (m : list (string * V)) :
  Js.lookup_by k' (AgentProviders.map_set k v m) =
  if String.eqb k' k then Some v else Js.lookup_by k' m.
Proof.
  induction m as [|[x y] m IH]; cbn [AgentProviders.map_set Js.lookup_by].
  - destruct (String.eqb k' k); reflexivity.
  - destruct (String.eqb_spec k x) as [->|Hkx]; cbn [Js.lookup_by].
    + destruct (String.eqb k' x); reflexivity.
    + rewrite IH. destruct (String.eqb_spec k' x) as [->|]; [| reflexivity].
      destruct (String.eqb_spec x k); [congruence | reflexivity].
Qed.

Lemma lookup_remove (k k' : string) (m : list (string * string)) :
  Js.lookup_by k' (APIKeyManager.remove k m) =
  if String.eqb k' k then None else Js.lookup_by k' m.
Proof.
  induction m as [|[x y] m IH]; cbn [APIKeyManager.remove Js.lookup_by].
  - destruct (String.eqb k' k); reflexivity.
  - destruct (String.eqb_spec k x) as [->|Hkx]; cbn [Js.lookup_by].
    + rewrite IH. destruct (String.eqb k' x); reflexivity.
    + rewrite IH. destruct (String.eqb_spec k' x) as [->|]; [| reflexivity].
      destruct (String.eqb_spec x k); [congruence | reflexivity].
Qed.

Lemma drop_length (n : nat) (s : string) :
  String.length (EditorText.drop n s) = (String.length s - n)%nat.
Proof.
  revert s. induction n as [|n IH]; intros [|c s]; cbn; try reflexivity.
  apply IH.
Qed.

Lemma take_drop (n : nat) (s : string) :
  (Text.take n s ++ EditorText.drop n s)%string = s.
Proof.
  revert s. induction n as [|n IH]; intros [|c s]; cbn; try reflexivity.
  now rewrite IH.
Qed.

Lemma take_length (n : nat) (s : string) :
  (n <= String.length s)%nat -> String.length (Text.take n s) = n.
Proof.
  revert s. induction n as [|n IH]; intros [|c s] H; cbn in *; try lia.
  now rewrite IH by lia.
Qed.

(** X24. The key store keeps what [setAPIKey] accepts and shows it only
    masked.  A key with at least 10 characters after trimming is stored
    trimmed: [getAPIKey] returns it, the keys of the other providers are as
    before, and [getProviderConfig] shows three stars and the last four
    characters, never the key.  A shorter key is refused and the store is
    unchanged.  Removing the key makes [hasAPIKey] false again. *)
Theorem key_store_keeps_and_masks_the_key (provider key : string)
    (s : APIKeyManager.t) :
  APIKeyManager.write_error s = None ->
  ((String.length (Text.trim key) < 10)%nat ->
   exists e, APIKeyManager.setAPIKey provider (VStr key) s = (Threw e, s)) /\
  ((10 <= String.length (Text.trim key))%nat ->
   exists s',
     APIKeyManager.setAPIKey provider (VStr key) s = (Returned true, s') /\
     APIKeyManager.getAPIKey provider s' = Some (Text.trim key) /\
     (forall other, other <> provider ->
        APIKeyManager.getAPIKey other s' = APIKeyManager.getAPIKey other s) /\
     (exists shown,
        APIKeyManager.getProviderConfig provider s' =
          (true, Some ("***" ++ shown)%string) /\
        String.length shown = 4%nat /\
        exists hidden, Text.trim key = (hidden ++ shown)%string /\
                       (6 <= String.length hidden)%nat) /\
     APIKeyManager.hasAPIKey provider
       (snd (APIKeyManager.removeAPIKey provider s')) = false).
Proof.
  intros Hw. unfold APIKeyManager.setAPIKey. rewrite Hw. split.
  - intros Hshort. destruct (String.eqb (Text.trim key) ""); [eexists; reflexivity |].
    destruct (Nat.ltb_spec (String.length (Text.trim key)) 10); [| lia].
    eexists; reflexivity.
  - intros Hlong.
    destruct (String.eqb_spec (Text.trim key) "") as [E|_];
      [rewrite E in Hlong; cbn in Hlong; lia |].
    destruct (Nat.ltb_spec (String.length (Text.trim key)) 10); [lia |].
    eexists. split; [reflexivity |].
    unfold APIKeyManager.getProviderConfig, APIKeyManager.hasAPIKey,
      APIKeyManager.getAPIKey, APIKeyManager.removeAPIKey.
    cbn [APIKeyManager.keys APIKeyManager.write_error]. rewrite ?Hw.
    cbn [snd APIKeyManager.keys].
    rewrite lookup_map_set, String.eqb_refl.
    split; [reflexivity |]. split; [| split].
    + intros other Ho. rewrite lookup_map_set.
      destruct (String.eqb_spec other provider); [contradiction | reflexivity].
    + exists (APIKeyManager.last4 (Text.trim key)). split; [reflexivity |].
      unfold APIKeyManager.last4. rewrite drop_length. split; [lia |].
      exists (Text.take (String.length (Text.trim key) - 4) (Text.trim key)).
      split; [symmetry; apply take_drop | rewrite take_length by lia; lia].
    + rewrite lookup_remove, String.eqb_refl. reflexivity.
Qed.

Lemma key_store_witness :
  ((String.length (Text.trim "  sk-ant-api03-abcdef  ") < 10)%nat ->
   exists e,
     APIKeyManager.setAPIKey "claude" (VStr "  sk-ant-api03-abcdef  ")
       (APIKeyManager.mk [] None) = (Threw e, APIKeyManager.mk [] None)) /\
  ((10 <= String.length (Text.trim "  sk-ant-api03-abcdef  "))%nat ->
   exists s',
     APIKeyManager.setAPIKey "claude" (VStr "  sk-ant-api03-abcdef  ")
       (APIKeyManager.mk [] None) = (Returned true, s') /\
     APIKeyManager.getAPIKey "claude" s' =
       Some (Text.trim "  sk-ant-api03-abcdef  ") /\
     (forall other, other <> "claude" ->
        APIKeyManager.getAPIKey other s' =
        APIKeyManager.getAPIKey other (APIKeyManager.mk [] None)) /\
     (exists shown,
        APIKeyManager.getProviderConfig "claude" s' =
          (true, Some ("***" ++ shown)%string) /\
        String.length shown = 4%nat /\
        exists hidden,
          Text.trim "  sk-ant-api03-abcdef  " = (hidden ++ shown)%string /\
          (6 <= String.length hidden)%nat) /\
     APIKeyManager.hasAPIKey "claude"
       (snd (APIKeyManager.removeAPIKey "claude" s')) = false).
Proof.
  apply (key_store_keeps_and_masks_the_key "claude" "  sk-ant-api03-abcdef  "
           (APIKeyManager.mk [] None)).
  reflexivity.
Defined.

(** ** The IPC handlers *)

(** [execute] throws only out of the validation. *)
Lemma execute_threw (tc : ToolCall) (env : Env) (w w' : World) (e : JsError) :
  ToolExecutor.execute tc env w = (Threw e, w') ->
  validateToolCall tc = Threw e /\ w' = w.
Proof.
  unfold ToolExecutor.execute, bind, lift.
  destruct (validateToolCall tc) as [[|msg]|e0].
  - unfold try_catch.
    match goal with
    | |- context [match ?c env w with _ => _ end] =>
        destruct (c env w) as [[r|e1] w1]
    end; discriminate.
  - discriminate.
  - intros [= -> ->]. split; reflexivity.
Qed.

(** X25. The handler of [ai:execute-tool] never rejects.  It answers
    [success: true] with whatever [execute] returns, which may itself be a
    failed tool result; and it answers [success: false] exactly when the
    validation throws, on arguments that are not an object, with the
    message of that error and the world untouched. *)
Theorem execute_tool_never_rejects (toolName : string) (args : value)
    (env : Env) (w : World) :
  exists answer w',
    Ipc.execute_tool toolName args env w = (Returned answer, w') /\
    match answer with
    | Ipc.Success result =>
        ToolExecutor.execute (mkToolCall "" toolName args) env w =
          (Returned result, w')
    | Ipc.Failure error more =>
        more = [] /\ w' = w /\ is_object args = false /\
        exists e,
          validateToolCall (mkToolCall "" toolName args) = Threw e /\
          error = message e
    end.
Proof.
  unfold Ipc.execute_tool, try_catch, bind at 1.
  destruct (ToolExecutor.execute (mkToolCall "" toolName args) env w)
    as [[r|e] w1] eqn:E.
  - exists (Ipc.Success r), w1. split; reflexivity.
  - destruct (execute_threw _ _ _ _ _ E) as [V ->].
    exists (Ipc.Failure (message e) []), w. split; [reflexivity |].
    repeat split.
    + destruct args; try reflexivity.
      destruct (validate_object (mkToolCall "" toolName (VObj fields)) eq_refl)
        as [v Hv]. congruence.
    + exists e. split; [exact V | reflexivity].
Qed.

(** X26. The handler of [ai:process-query] never rejects: what
    [processQuery] throws comes back as [success: false] with the message.
    Without a selected provider that is the 'No provider selected' message,
    and without a context it is the [TypeError] of reading [hasFileOpen];
    in both cases nothing has happened.  A mode other than [ask] and
    [debug] is run as [agent]. *)
Theorem process_query_answers_failures_as_data (uiState : value)
    (query : string) (context : value) (mode : string) (env : Env)
    (w : World) :
  (exists answer w',
     Ipc.process_query uiState query context mode env w =
       (Returned answer, w')) /\
  (Js.nullish context = false -> currentProvider w = false ->
   Ipc.process_query uiState query context mode env w =
     (Returned (Ipc.Failure
                  "No provider selected. Please set a provider first." []),
      w)) /\
  (Js.nullish context = true ->
   exists msg,
     Ipc.process_query uiState query context mode env w =
       (Returned (Ipc.Failure msg []), w) /\
     Text.starts_with "Cannot read properties of " msg = true) /\
  (mode <> "ask" -> mode <> "debug" ->
   Ipc.process_query uiState query context mode env w =
   Ipc.process_query uiState query context "agent" env w).
Proof.
  split; [| split; [| split]].
  - unfold Ipc.process_query, try_catch.
    match goal with
    | |- context [match ?c env w with _ => _ end] =>
        destruct (c env w) as [[r|e] w1]
    end; do 2 eexists; reflexivity.
  - intros Hc Hp. unfold Ipc.process_query, try_catch, Ipc.enrichedContext, get.
    rewrite Hc. unfold bind at 1. unfold bind at 1. cbn [ret].
    unfold bind at 1. unfold AIAgent.processQuery, bind at 1, gets.
    rewrite Hp. reflexivity.
  - intros Hc. unfold Ipc.process_query, try_catch, Ipc.enrichedContext, get.
    rewrite Hc. unfold bind, throw.
    eexists. split; [reflexivity |]. destruct context; reflexivity.
  - intros Ha Hd. unfold Ipc.process_query, Ipc.effectiveMode.
    destruct (String.eqb_spec mode "ask"); [contradiction |].
    destruct (String.eqb_spec mode "debug"); [contradiction |]. reflexivity.
Qed.

(** X27. The handler of [ai:set-provider] saves a key before the provider has
    checked it.  For a key of at least 10 characters after trimming, and a
    store that can be written, the trimmed key is in the store afterwards
    whatever the answer.  When the answer is a failure (the name is not
    registered, or the key does not pass the check of the class) the
    provider selected before stays selected; on success the new provider
    holds the key as it was given, not trimmed. *)
Theorem set_provider_saves_the_key_first
    (sdk : Providers.ProviderClass -> string -> option JsError)
    (providerName key : string) (model : value) (s : Ipc.Settings) :
  APIKeyManager.write_error (Ipc.apiKeyManager s) = None ->
  (10 <= String.length (Text.trim key))%nat ->
  let '(answer, s') := Ipc.set_provider sdk providerName (VStr key) model s in
  APIKeyManager.getAPIKey providerName (Ipc.apiKeyManager s') =
    Some (Text.trim key) /\
  match answer with
  | Ipc.Failure _ _ => Ipc.agent s' = Ipc.agent s
  | Ipc.Success (name, shown) =>
      name = providerName /\
      shown = Js.or_else model (VStr "default") /\
      exists p,
        AgentProviders.currentProvider (Ipc.agent s') = Some p /\
        Providers.apiKey p = key /\
        Providers.validateApiKey (Providers.class p) key = true
  end.
Proof.
  intros Hw Hlen.
  assert (Text.trim key <> "") as Ht
    by (intros E; rewrite E in Hlen; cbn in Hlen; lia).
  assert (key <> "") as Hk by (intros ->; apply Ht; reflexivity).
  unfold Ipc.set_provider. cbn [Js.truthy].
  apply String.eqb_neq in Ht, Hk. rewrite Hk, Ht. cbn [negb andb orb].
  unfold APIKeyManager.setAPIKey. rewrite Hw, Ht.
  destruct (Nat.ltb_spec (String.length (Text.trim key)) 10); [lia |].
  unfold Ipc.select, AgentProviders.setProvider, Providers.new.
  cbn [Ipc.agent Ipc.apiKeyManager]. rewrite ?Hk. cbn [orb].
  assert (APIKeyManager.getAPIKey providerName
            (APIKeyManager.mk
               (AgentProviders.map_set providerName (Text.trim key)
                  (APIKeyManager.keys (Ipc.apiKeyManager s))) None) =
          Some (Text.trim key)) as Hstored.
  { unfold APIKeyManager.getAPIKey. cbn [APIKeyManager.keys].
    now rewrite lookup_map_set, String.eqb_refl. }
  destruct (Js.lookup_by providerName (AgentProviders.providers (Ipc.agent s)))
    as [c|]; [| split; [exact Hstored | reflexivity]].
  destruct (sdk c key); [split; [exact Hstored | reflexivity] |].
  destruct (Providers.validateApiKey c key) eqn:V;
    [| split; [exact Hstored | reflexivity]].
  split; [exact Hstored |]. cbn [Ipc.agent].
  split; [reflexivity | split; [reflexivity |]].
  eexists. split; [reflexivity |]. split; [reflexivity | exact V].
Qed.

Lemma set_provider_saves_the_key_first_witness :
  let s := Ipc.mkSettings
             (AgentProviders.initializeProviders AgentProviders.create)
             (APIKeyManager.mk [] None) in
  let '(answer, s') :=
    Ipc.set_provider (fun _ _ => None) "claude" (VStr "sk-wrong-key-000")
      VUndefined s in
  APIKeyManager.getAPIKey "claude" (Ipc.apiKeyManager s') =
    Some (Text.trim "sk-wrong-key-000") /\
  match answer with
  | Ipc.Failure _ _ => Ipc.agent s' = Ipc.agent s
  | Ipc.Success (name, shown) =>
      name = "claude" /\
      shown = Js.or_else VUndefined (VStr "default") /\
      exists p,
        AgentProviders.currentProvider (Ipc.agent s') = Some p /\
        Providers.apiKey p = "sk-wrong-key-000" /\
        Providers.validateApiKey (Providers.class p) "sk-wrong-key-000" = true
  end.
Proof.
  apply (set_provider_saves_the_key_first (fun _ _ => None) "claude"
           "sk-wrong-key-000" VUndefined
           (Ipc.mkSettings
              (AgentProviders.initializeProviders AgentProviders.create)
              (APIKeyManager.mk [] None))).
  - reflexivity.
  - vm_compute. lia.
Defined.

(** ** What the Claude adapter is sent *)

Lemma conversation_app input_of (a b : list Message) :
  ClaudeProvider.conversationMessages input_of (a ++ b) =
  ClaudeProvider.conversationMessages input_of a ++
  ClaudeProvider.conversationMessages input_of b.
Proof. unfold ClaudeProvider.conversationMessages. apply flat_map_app. Qed.

Lemma pairing_app (a b : list ClaudeProvider.ConversationMessage) :
  forall pending,
  pairing pending (a ++ b) =
  match pairing pending a with
  | Some q => pairing q b
  | None => None
  end.
Proof.
  induction a as [|m a IH]; intros pending; [reflexivity |].
  cbn [app pairing].
  destruct (ClaudeProvider.content m) as [t|[|[t|i n x|i r] [|b' bs]]];
    destruct (ClaudeProvider.role m); destruct pending as [|p ps];
    try reflexivity; try apply IH.
  destruct (String.eqb i p); [apply IH | reflexivity].
Qed.

Lemma pairing_plain input_of (l : list Message) :
  forallb plain_message l = true ->
  pairing [] (ClaudeProvider.conversationMessages input_of l) = Some [].
Proof.
  induction l as [|m l IH]; [reflexivity |]. cbn [forallb].
  intros H. apply andb_true_iff in H. destruct H as [Hm Hl].
  destruct m as [p|c|c [|tc calls]|i n r]; try discriminate; cbn; exact (IH Hl).
Qed.

Lemma tool_use_ids_calls input_of (text : list ClaudeProvider.Block)
    (calls : list ToolCall) :
  tool_use_ids text = [] ->
  tool_use_ids
    (text ++
     map (fun tc => ClaudeProvider.ToolUse (tc_id tc)
                      (ClaudeProvider.name_of tc) (input_of (tc_arguments tc)))
         calls) = map tc_id calls.
Proof.
  intros Ht. unfold tool_use_ids in *. rewrite flat_map_app, Ht. cbn [app].
  induction calls as [|tc calls IH]; [reflexivity |]. cbn. now rewrite IH.
Qed.

Lemma pairing_results input_of (calls : list ToolCall) : forall rs,
  List.length rs = List.length calls ->
  pairing (map tc_id calls)
    (ClaudeProvider.conversationMessages input_of (tool_messages calls rs)) =
  Some [].
Proof.
  unfold tool_messages.
  induction calls as [|tc calls IH]; intros [|r rs] H; try discriminate;
    [reflexivity |].
  cbn. rewrite String.eqb_refl. apply IH. now injection H.
Qed.

Lemma pairing_assistant_blocks (blocks : list ClaudeProvider.Block)
    (rest : list ClaudeProvider.ConversationMessage) :
  pairing [] (ClaudeProvider.mkMessage ClaudeProvider.assistant
                (ClaudeProvider.Blocks blocks) :: rest) =
  pairing (tool_use_ids blocks) rest.
Proof.
  cbn [pairing ClaudeProvider.content ClaudeProvider.role].
  destruct blocks as [|[t|i n x|i r] [|b bs]]; reflexivity.
Qed.

Lemma pairing_assistant input_of (text : value) (calls : list ToolCall) :
  calls <> [] ->
  pairing []
    (ClaudeProvider.conversationMessages input_of
       [AssistantMessage text (map AIAgent.wire_call calls)]) =
  Some (map tc_id calls).
Proof.
  intros Hne. destruct calls as [|tc calls]; [contradiction |].
  cbn [ClaudeProvider.conversationMessages flat_map ClaudeProvider.convert snd
       map app].
  rewrite pairing_assistant_blocks. cbn [pairing]. f_equal.
  change (ClaudeProvider.ToolUse (tc_id (AIAgent.wire_call tc))
            (ClaudeProvider.name_of (AIAgent.wire_call tc))
            (input_of (tc_arguments (AIAgent.wire_call tc))) ::
          map (fun tc0 => ClaudeProvider.ToolUse (tc_id tc0)
                 (ClaudeProvider.name_of tc0) (input_of (tc_arguments tc0)))
              (map AIAgent.wire_call calls))
    with (map (fun tc0 => ClaudeProvider.ToolUse (tc_id tc0)
                 (ClaudeProvider.name_of tc0) (input_of (tc_arguments tc0)))
              (map AIAgent.wire_call (tc :: calls))).
  rewrite (tool_use_ids_calls input_of)
    by (destruct (Js.truthy text); reflexivity).
  rewrite map_map. reflexivity.
Qed.

(** A tool round keeps the conversation paired. *)
Lemma round_keeps_paired input_of (messages : list Message) (text : value)
    (calls : list ToolCall) (rs : list ToolResult) :
  calls <> [] ->
  List.length rs = List.length calls ->
  paired (ClaudeProvider.conversationMessages input_of messages) = true ->
  paired (ClaudeProvider.conversationMessages input_of
            ((messages ++ [AssistantMessage text (map AIAgent.wire_call calls)])
             ++ tool_messages calls rs)) = true.
Proof.
  intros Hne Hlen. unfold paired. rewrite !conversation_app, !pairing_app.
  destruct (pairing [] (ClaudeProvider.conversationMessages input_of messages))
    as [[|p ps]|]; try discriminate. intros _.
  rewrite (pairing_assistant input_of text calls Hne).
  now rewrite (pairing_results input_of calls rs Hlen).
Qed.

Lemma requests_paired_invoked input_of (calls : list Call) :
  requests_paired input_of (map Invoked calls).
Proof.
  apply Forall_forall. intros ev H. apply in_map_iff in H.
  destruct H as (c & <- & _). exact I.
Qed.

Lemma oi_run_tool_calls calls : forall messages toolResults,
  only_invokes (AIAgent.run_tool_calls calls messages toolResults).
Proof.
  induction calls as [|tc calls IH]; intros messages toolResults;
    cbn [AIAgent.run_tool_calls].
  - apply oi_ret.
  - apply oi_bind; [apply oi_gets | intros startTime].
    apply oi_bind; [apply oi_execute | intros result].
    apply oi_bind; [apply oi_gets | intros now]. apply IH.
Qed.

(** What the [for] loop hands on, whenever it gets to the end. *)
Lemma run_tool_calls_messages calls : forall messages toolResults env w m' t' w',
  AIAgent.run_tool_calls calls messages toolResults env w =
    (Returned (m', t'), w') ->
  exists rs,
    m' = messages ++ tool_messages calls rs /\
    List.length rs = List.length calls.
Proof.
  induction calls as [|tc calls IH]; intros messages toolResults env w m' t' w';
    cbn [AIAgent.run_tool_calls].
  - intros [= <- <- <-]. exists []. split; [now rewrite app_nil_r | reflexivity].
  - unfold bind at 1, gets. unfold bind at 1.
    destruct (ToolExecutor.execute tc env w) as [[r|e] w1]; [| discriminate].
    unfold bind at 1, gets. intros H. apply IH in H.
    destruct H as (rs & -> & Hlen).
    eexists (_ :: rs). split; [| cbn; now rewrite Hlen].
    unfold tool_messages. cbn [combine map fst snd].
    now rewrite <- app_assoc.
Qed.

Lemma round_requests input_of tools messages toolResults env w :
  paired (ClaudeProvider.conversationMessages input_of messages) = true ->
  exists added,
    trace (snd (AIAgent.round tools messages toolResults env w)) =
      trace w ++ added /\
    requests_paired input_of added /\
    match fst (AIAgent.round tools messages toolResults env w) with
    | Returned (AIAgent.Again messages' _) =>
        paired (ClaudeProvider.conversationMessages input_of messages') = true
    | _ => True
    end.
Proof.
  intros Hp.
  destruct (AIAgent.round tools messages toolResults env w) as [o w'] eqn:E.
  cbn [fst snd]. revert E. unfold AIAgent.round, bind at 1, AIAgent.chat.
  destruct (provider env (trace w) messages (map ToolSchema.name tools))
    as [[r|e] dt].
  - destruct (toolCalls r) as [|tc calls] eqn:Hc.
    + unfold AIAgent.finish, AIAgent.push_history, bind, modify, ret.
      destruct (Js.truthy (content r)); intros [= <- <-];
        (eexists; split; [reflexivity |]); split; try exact I;
        constructor; [exact Hp | constructor | exact Hp | constructor].
    + unfold bind.
      match goal with
      | |- context [AIAgent.run_tool_calls ?c ?m ?t env ?x] =>
          pose proof (oi_run_tool_calls c m t env x) as O;
          pose proof (run_tool_calls_messages c m t env x) as R;
          destruct (AIAgent.run_tool_calls c m t env x) as [[[m' t']|e] w1]
      end; cbn [fst snd ret]; intros [= <- <-];
        destruct (O _ _ eq_refl) as [invoked Ht]; cbn [trace set_trace] in Ht.
      * exists (Chatted messages (map ToolSchema.name tools) ::
                map Invoked invoked).
        split; [rewrite Ht, <- app_assoc; reflexivity |]. split.
        -- constructor; [exact Hp | apply requests_paired_invoked].
        -- destruct (R _ _ _ eq_refl) as (rs & -> & Hlen).
           change (tc :: map AIAgent.wire_call calls)
             with (map AIAgent.wire_call (tc :: calls)).
           apply round_keeps_paired; [discriminate | exact Hlen | exact Hp].
      * exists (Chatted messages (map ToolSchema.name tools) ::
                map Invoked invoked).
        split; [rewrite Ht, <- app_assoc; reflexivity |]. split; [| exact I].
        constructor; [exact Hp | apply requests_paired_invoked].
  - intros [= <- <-]. eexists. split; [reflexivity |]. split; [| exact I].
    constructor; [exact Hp | constructor].
Qed.

Lemma loop_requests input_of tools maxIter env : forall (n : nat) iteration
    messages toolResults w,
  Z.to_nat (maxIter - iteration) = n ->
  paired (ClaudeProvider.conversationMessages input_of messages) = true ->
  exists added,
    trace (snd (AIAgent.tool_loop tools maxIter iteration messages toolResults
                  env w)) = trace w ++ added /\
    requests_paired input_of added.
Proof.
  induction n as [|n IH]; intros iteration messages toolResults w Hn Hp;
    rewrite tool_loop_unfold.
  - destruct (Z.ltb_spec iteration maxIter); [lia |].
    exists []. split; [now rewrite app_nil_r | constructor].
  - destruct (Z.ltb_spec iteration maxIter); [| lia].
    destruct (round_requests input_of tools messages toolResults env w Hp)
      as (added & Ht & Hr & Hnext).
    destruct (AIAgent.round tools messages toolResults env w)
      as [[[r|m t]|e] w1]; cbn [fst snd] in *;
      try (exists added; split; assumption).
    destruct (IH (iteration + 1) m t w1 ltac:(lia) Hnext)
      as (added' & Ht' & Hr').
    exists (added ++ added'). split.
    + rewrite Ht', Ht, app_assoc. reflexivity.
    + apply Forall_app. split; assumption.
Qed.

(** X28. Whatever the provider and the tools answer, every request of a turn
    reaches the Claude adapter with its tool results in place: in the
    conversation that the adapter builds from the agent's messages, each
    assistant turn that uses tools is followed by one tool result per tool
    use, with the ids of the tool uses, in their order, before anything
    else; no tool use is left unanswered and no tool result comes
    unasked.  This holds from a history without tool traffic, which is all
    that [processQuery] ever stores. *)
Theorem claude_requests_answer_every_tool_use
    (input_of : value -> value) (userQuery : string) (context : value)
    (mode : string) (env : Env) (w : World) :
  currentProvider w = true ->
  context <> VNull ->
  forallb plain_message (conversationHistory w) = true ->
  exists added,
    trace (snd (AIAgent.processQuery userQuery context mode env w)) =
      trace w ++ added /\
    requests_paired input_of added.
Proof.
  intros Hsel Hctx Hplain.
  destruct (processQuery_selected userQuery context mode env w Hsel Hctx)
    as [text H]. cbv zeta in H. rewrite H. clear H.
  set (w1 := set_conversationHistory w
               (conversationHistory w ++ [UserMessage text])).
  assert (paired (ClaudeProvider.conversationMessages input_of
                    (SystemMessage (AIAgent.getSystemPrompt mode) ::
                     conversationHistory w1)) = true) as Hp.
  { unfold paired.
    change (ClaudeProvider.conversationMessages input_of
              (SystemMessage (AIAgent.getSystemPrompt mode) ::
               conversationHistory w1))
      with (ClaudeProvider.conversationMessages input_of
              (conversationHistory w ++ [UserMessage text])).
    rewrite pairing_plain; [reflexivity |].
    rewrite forallb_app, Hplain. reflexivity. }
  destruct (AIAgent._getToolsForMode mode) as [|tool tools].
  - unfold bind at 1, AIAgent.chat.
    destruct (provider env (trace w1) _ _) as [[r|e] dt].
    + unfold AIAgent.push_history, bind, modify, ret.
      destruct (Js.truthy (content r)); cbn [snd trace set_trace
        set_conversationHistory]; (eexists; split; [reflexivity |]);
        constructor; [exact Hp | constructor | exact Hp | constructor].
    + cbn [snd trace set_trace]. eexists. split; [reflexivity |].
      constructor; [exact Hp | constructor].
  - exact (loop_requests input_of (tool :: tools) (maxIterations w) env
             (Z.to_nat (maxIterations w - 0)) 0 _ [] w1 eq_refl Hp).
Qed.

Lemma claude_requests_witness :
  exists added,
    trace (snd (AIAgent.processQuery "blink the LED" (VObj []) "agent"
                  Fixtures.eager (Fixtures.started true 2))) =
      trace (Fixtures.started true 2) ++ added /\
    requests_paired (fun v => v) added.
Proof.
  apply (claude_requests_answer_every_tool_use (fun v => v) "blink the LED"
           (VObj []) "agent" Fixtures.eager (Fixtures.started true 2)).
  - reflexivity.
  - discriminate.
  - reflexivity.
Defined.

(** ** Choosing a model *)

Lemma getProviderFromModel_text (modelId : value) (name : string) :
  AgentProviders.getProviderFromModel modelId = Some name ->
  Js.or_else modelId = fun _ => modelId.
Proof.
  unfold AgentProviders.getProviderFromModel, Js.or_else.
  destruct modelId as [| | | | |s| |]; try discriminate.
  cbn [Js.truthy]. destruct (String.eqb s ""); [discriminate | reflexivity].
Qed.

Ltac failure_case :=
  cbn [Ipc.agent Ipc.apiKeyManager];
  repeat split; intros; repeat split; try reflexivity; congruence.

(** X29. The handler of [ai:set-model] goes by the prefix of the model id and
    by the key in the store.  It never writes the store and never changes
    which providers are registered.  It succeeds exactly on an id whose
    prefix names a provider, for which a key that is not blank is stored,
    which is registered, whose client can be built and whose class accepts
    the key; the provider selected then has the stored key and the id, as it
    was given, as its model: the id is not looked up in the list of models.
    Every failure leaves the settings as they were; an id without a known
    prefix fails as 'Unknown model', and a provider without a key as 'API
    key required', naming the provider. *)
Theorem set_model_goes_by_prefix_and_stored_key
    (sdk : Providers.ProviderClass -> string -> option JsError)
    (modelId : value) (s : Ipc.Settings) :
  (let '(answer, s') := Ipc.set_model sdk modelId s in
   Ipc.apiKeyManager s' = Ipc.apiKeyManager s /\
   AgentProviders.providers (Ipc.agent s') =
     AgentProviders.providers (Ipc.agent s) /\
   match answer with
   | Ipc.Success (name, shown) =>
       shown = modelId /\
       AgentProviders.getProviderFromModel modelId = Some name /\
       exists p,
         AgentProviders.currentProvider (Ipc.agent s') = Some p /\
         Js.lookup_by name (AgentProviders.providers (Ipc.agent s)) =
           Some (Providers.class p) /\
         APIKeyManager.getAPIKey name (Ipc.apiKeyManager s) =
           Some (Providers.apiKey p) /\
         Text.trim (Providers.apiKey p) <> "" /\
         sdk (Providers.class p) (Providers.apiKey p) = None /\
         Providers.validateApiKey (Providers.class p) (Providers.apiKey p) =
           true /\
         Providers.model p = modelId
   | Ipc.Failure error more =>
       s' = s /\
       (AgentProviders.getProviderFromModel modelId = None ->
        error = "Unknown model" /\ more = []) /\
       (forall name,
          AgentProviders.getProviderFromModel modelId = Some name ->
          APIKeyManager.getAPIKey name (Ipc.apiKeyManager s) = None ->
          error = "API key required" /\
          more = [("needsKey", VBool true); ("provider", VStr name)])
   end) /\
  (forall name key c,
     AgentProviders.getProviderFromModel modelId = Some name ->
     APIKeyManager.getAPIKey name (Ipc.apiKeyManager s) = Some key ->
     Text.trim key <> "" ->
     Js.lookup_by name (AgentProviders.providers (Ipc.agent s)) = Some c ->
     sdk c key = None ->
     Providers.validateApiKey c key = true ->
     fst (Ipc.set_model sdk modelId s) = Ipc.Success (name, modelId)).
Proof.
  destruct s as [a store]. split.
  - unfold Ipc.set_model. cbn [Ipc.agent Ipc.apiKeyManager].
    destruct (AgentProviders.getProviderFromModel modelId) as [name|] eqn:P.
    2: { failure_case. }
    pose proof (getProviderFromModel_text modelId name P) as Hm.
    destruct (APIKeyManager.getAPIKey name store) as [key|] eqn:K.
    2: { failure_case. }
    destruct (String.eqb_spec key "") as [->|Hk]; cbn [orb].
    { failure_case. }
    destruct (String.eqb_spec (Text.trim key) "") as [Ht|Ht].
    { failure_case. }
    unfold Ipc.select, AgentProviders.setProvider, Providers.new.
    cbn [Ipc.agent Ipc.apiKeyManager].
    destruct (Js.lookup_by name (AgentProviders.providers a)) as [c|] eqn:L.
    2: { failure_case. }
    destruct (sdk c key) eqn:S.
    { failure_case. }
    destruct (Providers.validateApiKey c key) eqn:V.
    2: { failure_case. }
    cbn [Ipc.agent Ipc.apiKeyManager AgentProviders.providers].
    split; [reflexivity | split; [reflexivity |]].
    split; [reflexivity | split; [reflexivity |]].
    eexists. split; [reflexivity |].
    cbn [Providers.class Providers.apiKey Providers.model].
    repeat split; try assumption. now rewrite Hm.
  - intros name key c P K Ht L S V.
    unfold Ipc.set_model. cbn [Ipc.agent Ipc.apiKeyManager] in *.
    rewrite P, K.
    destruct (String.eqb_spec key "") as [->|Hk]; [now destruct Ht |].
    destruct (String.eqb_spec (Text.trim key) ""); [contradiction |].
    cbn [orb]. unfold Ipc.select, AgentProviders.setProvider, Providers.new.
    cbn [Ipc.agent]. rewrite L, S, V. reflexivity.
Qed.

(** ** The listeners of the serial monitor *)

Section KeepsListeners.
Context {A B : Type}.

Lemma kl_bind (c : M A) (k : A -> M B) :
  keeps_listeners c -> (forall a, keeps_listeners (k a)) ->
  keeps_listeners (bind c k).
Proof.
  intros Hc Hk env w. unfold bind. specialize (Hc env w).
  destruct (c env w) as [[a|e] w1]; cbn [snd] in *.
  - rewrite (Hk a env w1). exact Hc.
  - exact Hc.
Qed.

Lemma kl_try_catch (c : M A) (h : JsError -> M A) :
  keeps_listeners c -> (forall e, keeps_listeners (h e)) ->
  keeps_listeners (try_catch c h).
Proof.
  intros Hc Hh env w. unfold try_catch. specialize (Hc env w).
  destruct (c env w) as [[a|e] w1]; cbn [snd] in *.
  - exact Hc.
  - rewrite (Hh e env w1). exact Hc.
Qed.
End KeepsListeners.

Lemma kl_modify (f : World -> World) :
  (forall w, dataListeners (f w) = dataListeners w) ->
  keeps_listeners (modify f).
Proof. intros H env w. apply H. Qed.

Ltac kl_step :=
  first
    [ apply kl_bind; [| intros ?]
    | apply kl_try_catch; [| intros ?]
    | apply kl_modify; intros ?; reflexivity
    | match goal with
      | |- keeps_listeners (if ?b then _ else _) => destruct b
      | |- keeps_listeners (match ?x with _ => _ end) => destruct x
      | |- keeps_listeners (let (_, _) := ?x in _) => destruct x
      end
    | (intros ? ?; reflexivity) ].

Ltac kl_all :=
  unfold callback, invoke_on, peek_on, get, call_trim, text_of, to_integer,
         ToolExecutor.memory_search;
  repeat kl_step.

Lemma kl_record_execution tc result :
  keeps_listeners (ToolExecutor.record_execution tc result).
Proof. unfold ToolExecutor.record_execution. kl_all. Qed.

(** Every handler but the one of [connect_serial]. *)
Lemma kl_dispatch name handler args :
  name <> "connect_serial" ->
  ToolExecutor.dispatch name = Some handler -> keeps_listeners (handler args).
Proof.
  intros Hn. unfold ToolExecutor.dispatch, Js.lookup_by.
  repeat match goal with
  | |- (if String.eqb ?a ?b then _ else _) = _ -> _ =>
      destruct (String.eqb_spec a b); [intros [= <-] |]
  end; try discriminate; try contradiction.
  all: unfold ToolExecutor.executeCompile, ToolExecutor.executeUpload,
    ToolExecutor.executeListBoards, ToolExecutor.executeListPorts,
    ToolExecutor.executeDisconnectSerial,
    ToolExecutor.executeSendSerial, ToolExecutor.executeReadSerial,
    ToolExecutor.executeAutoDetectBaud, ToolExecutor.executeGetBaudRate,
    ToolExecutor.executeSetBaudRate, ToolExecutor.executeGetAvailableBaudRates,
    ToolExecutor.executeGetEditorCode, ToolExecutor.executeSetEditorCode,
    ToolExecutor.executeEditCode, ToolExecutor.executeSearchCode,
    ToolExecutor.executeReplaceInCode, ToolExecutor.executeGetCurrentSketchPath,
    ToolExecutor.executeSaveSketch, ToolExecutor.executeAnalyzeError,
    ToolExecutor.executeSearchMemory, ToolExecutor.executeRecordFix,
    ToolExecutor.executeGetCurrentState; kl_all.
Qed.

Lemma connect_adds_a_listener args env w v w1 :
  ToolExecutor.executeConnectSerial args env w = (Returned v, w1) ->
  dataListeners w1 = S (dataListeners w).
Proof.
  unfold ToolExecutor.executeConnectSerial, get, invoke_on.
  destruct (Js.nullish args); [discriminate |].
  unfold bind at 1. cbn [ret]. unfold bind at 1. cbn [ret].
  unfold bind at 1. unfold bind at 1, gets.
  destruct (serialMonitor w); [| discriminate].
  unfold invoke at 1. cbn zeta.
  destruct (outcome _); [| discriminate].
  unfold bind at 1, invoke. cbn zeta.
  destruct (outcome _); [| discriminate].
  unfold bind, modify, ret. intros [= _ <-]. reflexivity.
Qed.

Lemma run_listeners_fill (data : value) (env : Env) : forall (k : nat) (w : World),
  Js.truthy (Js.read data "timestamp") = true ->
  Js.truthy (Js.read data "data") = true ->
  data = VObj [("timestamp", Js.read data "timestamp");
               ("data", Js.read data "data");
               ("baudRate", Js.read data "baudRate")] ->
  Z.of_nat (List.length (serialBuffer w)) + Z.of_nat k
    <= ToolExecutor.maxBufferSize ->
  exists w',
    run_listeners k data env w = (Returned tt, w') /\
    serialBuffer w' = serialBuffer w ++ repeat data k /\
    dataListeners w' = dataListeners w.
Proof.
  intros k w Ht Hd Hshape. revert w.
  induction k as [|k IH]; intros w Hroom; cbn [run_listeners repeat].
  - exists w. now rewrite app_nil_r.
  - unfold bind at 1. unfold ToolExecutor.addToBuffer, get.
    destruct (Js.nullish data) eqn:N; [rewrite Hshape in N; discriminate |].
    unfold bind at 1. cbn [ret]. unfold bind at 1, gets.
    unfold bind at 1. cbn [ret]. unfold bind at 1. cbn [ret].
    unfold modify. unfold Js.or_else. rewrite Ht, Hd, <- Hshape.
    rewrite length_app. cbn [List.length].
    destruct (Z.ltb_spec ToolExecutor.maxBufferSize
                (Z.of_nat (List.length (serialBuffer w) + 1))); [lia |].
    destruct (IH (set_serialBuffer w (serialBuffer w ++ [data])))
      as (w' & Hrun & Hbuf & Hl).
    { cbn [serialBuffer set_serialBuffer]. rewrite length_app.
      cbn [List.length]. lia. }
    exists w'. split; [exact Hrun |]. split; [| exact Hl].
    rewrite Hbuf. cbn [serialBuffer set_serialBuffer].
    rewrite <- app_assoc. reflexivity.
Qed.

(** X30. Serial data is buffered once for every [connect_serial] that has
    succeeded, not once per connection.  A successful [connect_serial]
    registers one more listener; no other tool, [disconnect_serial]
    included, changes the number of listeners; and a chunk that the
    monitor emits is appended to the buffer once by every listener, so
    that after [k] connects [read_serial] sees every chunk [k] times, and
    without one it sees nothing. *)
Theorem serial_data_is_buffered_once_per_connect
    (tc : ToolCall) (timestamp text baudRate : value) (env : Env)
    (w : World) :
  (tc_name tc <> "connect_serial" ->
   dataListeners (snd (ToolExecutor.execute tc env w)) = dataListeners w) /\
  (tc_name tc = "connect_serial" ->
   forall r w',
     ToolExecutor.execute tc env w = (Returned r, w') ->
     success r = true ->
     dataListeners w' = S (dataListeners w)) /\
  (Js.truthy timestamp = true -> Js.truthy text = true ->
   Z.of_nat (List.length (serialBuffer w)) + Z.of_nat (dataListeners w)
     <= ToolExecutor.maxBufferSize ->
   exists w',
     emit_data timestamp text baudRate env w = (Returned tt, w') /\
     serialBuffer w' =
       serialBuffer w ++
       repeat (VObj [("timestamp", timestamp); ("data", text);
                     ("baudRate", baudRate)]) (dataListeners w) /\
     dataListeners w' = dataListeners w).
Proof.
  split; [| split].
  - intros Hn.
    assert (keeps_listeners (ToolExecutor.execute tc)) as K; [| apply K].
    unfold ToolExecutor.execute. apply kl_bind; [intros ? ?; reflexivity |].
    intros [|msg]; [| intros ? ?; reflexivity].
    apply kl_try_catch; [| intros ? ? ?; reflexivity].
    destruct (ToolExecutor.dispatch (tc_name tc)) as [h|] eqn:D;
      [| intros ? ?; reflexivity].
    apply kl_bind; [exact (kl_dispatch _ _ _ Hn D) |].
    intros result. apply kl_bind; [apply kl_record_execution |].
    intros ? ? ?; reflexivity.
  - intros Hn r w'. unfold ToolExecutor.execute, bind at 1, lift.
    destruct (validateToolCall tc) as [[|msg]|e]; cbn [ret].
    + unfold try_catch. rewrite Hn.
      change (ToolExecutor.dispatch "connect_serial")
        with (Some ToolExecutor.executeConnectSerial).
      unfold bind at 1.
      destruct (ToolExecutor.executeConnectSerial (tc_arguments tc) env w)
        as [[v|e] w1] eqn:E.
      * apply connect_adds_a_listener in E. unfold bind at 1.
        pose proof (kl_record_execution tc v env w1) as K.
        destruct (ToolExecutor.record_execution tc v env w1) as [[[]|e] w2];
          cbn [snd] in K; cbn [ret].
        -- intros [= <- <-] _. congruence.
        -- intros [= <- <-]. discriminate.
      * intros [= <- <-]. discriminate.
    + intros [= <- <-]. discriminate.
    + discriminate.
  - intros Ht Hd Hroom. unfold emit_data, bind at 1, gets.
    apply run_listeners_fill; [exact Ht | exact Hd | reflexivity | exact Hroom].
Qed.
